(** * image-gen-mcp: the image acquisition and normalisation pipeline

    A shallow embedding of [src/index.ts]: the model registry, the
    filename deriver, the two downloaders, the compressor, the metadata
    reader and the tool-call handler, followed by the properties of the
    specification that are settled on them. *)

From Stdlib Require Import ZArith QArith SpecFloat Ascii String Sorted.
From stdpp Require Import base tactics option list strings pretty gmap.

Local Open Scope Z_scope.
Local Open Scope string_scope.
Local Open Scope list_scope.

(** ** JavaScript strings

    A string is a sequence of code units.  The embedding covers code
    units 0..255 (Latin-1), which is what [ascii] holds. *)
Module Js.

Definition code (c : ascii) : N := N_of_ascii c.

Definition between (lo hi : N) (c : ascii) : bool :=
  ((lo <=? code c) && (code c <=? hi))%N.

(** [String.prototype.toLowerCase] on one code unit: A-Z, and the
    Latin-1 capitals U+00C0..U+00DE except the multiplication sign. *)
Definition lower_char (c : ascii) : ascii :=
  if between 65 90 c then ascii_of_N (code c + 32)
  else if between 192 222 c && negb (code c =? 215)%N
       then ascii_of_N (code c + 32)
  else c.

Fixpoint map_chars (f : ascii → ascii) (s : string) : string :=
  match s with
  | EmptyString => EmptyString
  | String c s' => String (f c) (map_chars f s')
  end.

Definition toLowerCase : string → string := map_chars lower_char.

(** The regular-expression class [\s], restricted to Latin-1: TAB, LF,
    VT, FF, CR, SPACE and NO-BREAK SPACE. *)
Definition is_space (c : ascii) : bool :=
  between 9 13 c || (code c =? 32)%N || (code c =? 160)%N.

(** [s.replace(/[...]/g, " ")] for a character class given as a
    predicate: every matching code unit becomes one space. *)
Definition replace_class (cls : ascii → bool) : string → string :=
  map_chars (λ c, if cls c then " "%char else c).

(** [s.split(/\s+/)]: the pieces between maximal runs of white space.
    A leading or trailing run yields an empty piece, and the empty
    string splits into one empty piece. *)
Fixpoint split_go (s tok : string) (inrun : bool) : list string :=
  match s with
  | EmptyString => [tok]
  | String c s' =>
      if is_space c
      then (if inrun then split_go s' tok true
            else tok :: split_go s' EmptyString true)
      else split_go s' (tok +:+ String c EmptyString) false
  end.

Definition split_ws (s : string) : list string := split_go s EmptyString false.

(** [arr.join(sep)] *)
Fixpoint join (sep : string) (l : list string) : string :=
  match l with
  | [] => EmptyString
  | [x] => x
  | x :: l' => x +:+ sep +:+ join sep l'
  end.

(** [s.startsWith(p)] *)
Definition startsWith (p s : string) : bool := String.prefix p s.

(** [s.includes(needle)] *)
Fixpoint includes (needle s : string) : bool :=
  String.prefix needle s ||
  match s with
  | EmptyString => false
  | String _ s' => includes needle s'
  end.

(** Template-literal rendering of a non-negative integer (exact below
    1e21, where JavaScript switches to exponent notation). *)
Definition show (n : N) : string := pretty n.

End Js.

(** ** Paths

    [path.normalize] and [path.join] of the POSIX flavour of Node's
    [path] module, and the ancestors of a path. *)
Module Path.

(** The pieces of [s] between its separators. *)
Fixpoint split_go (s piece : string) : list string :=
  match s with
  | EmptyString => [piece]
  | String c s' =>
      if decide (c = "/"%char) then piece :: split_go s' EmptyString
      else split_go s' (piece +:+ String c EmptyString)
  end.

Definition segments (s : string) : list string := split_go s EmptyString.

(** One round of [normalizeString]: an empty segment and [.] are
    dropped, [..] removes the segment kept last (or is kept itself, where
    the path may climb above its start), anything else is kept.  The
    kept segments are held last first. *)
Definition step (allowAboveRoot : bool) (kept : list string) (segment : string)
    : list string :=
  if decide (segment = "" ∨ segment = ".") then kept
  else if decide (segment = "..") then
    match kept with
    | last :: rest =>
        if decide (last = "..") then (if allowAboveRoot then ".." :: kept else kept)
        else rest
    | [] => if allowAboveRoot then [".."] else []
    end
  else segment :: kept.

Definition normalizeString (allowAboveRoot : bool) (p : string) : string :=
  Js.join "/" (rev (foldl (step allowAboveRoot) [] (segments p))).

Definition isAbsolute (p : string) : bool :=
  match p with
  | String c _ => bool_decide (c = "/"%char)
  | EmptyString => false
  end.

Fixpoint trailingSeparator (p : string) : bool :=
  match p with
  | EmptyString => false
  | String c p' =>
      match p' with
      | EmptyString => bool_decide (c = "/"%char)
      | String _ _ => trailingSeparator p'
      end
  end.

(** [path.normalize] *)
Definition normalize (p : string) : string :=
  if decide (p = "") then "."
  else
    let body := normalizeString (negb (isAbsolute p)) p in
    if decide (body = "") then
      (if isAbsolute p then "/" else if trailingSeparator p then "./" else ".")
    else (if isAbsolute p then "/" else "") +:+ body
         +:+ (if trailingSeparator p then "/" else "").

(** [path.join] of two arguments: the non-empty ones, put together with
    a separator and normalised. *)
Definition join (dir file : string) : string :=
  if decide (dir = "") then (if decide (file = "") then "." else normalize file)
  else if decide (file = "") then normalize dir
  else normalize (dir +:+ "/" +:+ file).

(** The directories above [p], the root apart: what stands before each
    separator of [p]. *)
Fixpoint ancestors_go (s before : string) : list string :=
  match s with
  | EmptyString => []
  | String c s' =>
      (if decide (c = "/"%char ∧ before ≠ "") then [before] else [])
      ++ ancestors_go s' (before +:+ String c EmptyString)
  end.

Definition ancestors (p : string) : list string := ancestors_go p EmptyString.

End Path.

(** ** The filename deriver *)

Definition stopWords : list string :=
  [ "a"; "an"; "the"; "and"; "or"; "but"; "in"; "on"; "at"; "to"; "for";
    "of"; "with"; "by"; "from"; "as"; "is"; "was"; "are"; "were"; "been";
    "be"; "have"; "has"; "had"; "do"; "does"; "did"; "will"; "would"; "could";
    "should"; "may"; "might"; "must"; "shall"; "can"; "need"; "it"; "its";
    "this"; "that"; "these"; "those"; "i"; "you"; "he"; "she"; "we"; "they";
    "what"; "which"; "who"; "where"; "when"; "why"; "how"; "all"; "each";
    "every"; "both"; "few"; "more"; "most"; "other"; "some"; "such"; "no";
    "not"; "only"; "own"; "same"; "so"; "than"; "too"; "very"; "just"; "also";
    "image"; "picture"; "photo"; "generate"; "create"; "make"; "show" ].

(** [stopWords.has(word)] *)
Definition stopWords_has (word : string) : bool := bool_decide (word ∈ stopWords).

(** The class of the first [replace]: the double and the single quote. *)
Definition quote_class (c : ascii) : bool :=
  (Js.code c =? 34)%N || (Js.code c =? 39)%N.

(** The class [[^a-z0-9\s-]]. *)
Definition unsafe_class (c : ascii) : bool :=
  negb (Js.between 97 122 c || Js.between 48 57 c || Js.is_space c
        || (Js.code c =? 45)%N).

(** The pieces of the prompt before filtering. *)
Definition promptTokens (prompt : string) : list string :=
  Js.split_ws
    (Js.replace_class unsafe_class
       (Js.replace_class quote_class (Js.toLowerCase prompt))).

(** The filter callback [word.length > 2 && !stopWords.has(word)]. *)
Definition keepWord (word : string) : bool :=
  (2 <? String.length word)%nat && negb (stopWords_has word).

Definition promptWords (prompt : string) : list string :=
  take 5 (filter (λ w, keepWord w = true) (promptTokens prompt)).

(** [generateFilenameFromPrompt], with the reading of [Date.now()] made
    an argument. *)
Definition filenameAt (timestamp : N) (prompt : string) (index : N) : string :=
  let words := promptWords prompt in
  let words := if decide (length words = 0%nat) then words ++ ["image"] else words in
  let slug := Js.join "_" words in
  let indexSuffix := if (0 <? index)%N then "_" +:+ Js.show (index + 1) else "" in
  slug +:+ "_" +:+ Js.show timestamp +:+ indexSuffix.

(** ** The model registry *)

Record ModelConfig := {
  id : string;
  name : string;
  provider : string;
  supportsReferenceImage : bool;
  cost : string;
  description : string;
}.

(** The own properties of [MODELS], in insertion order. *)
Definition MODELS : list (string * ModelConfig) :=
  [ ("imagen-3",
     {| id := "google-deepmind/imagen-3.0-generate-001";
        name := "Google Imagen 3"; provider := "replicate";
        supportsReferenceImage := false; cost := "$0.04";
        description := "Google's latest image generation model. High quality." |});
    ("imagen-3-fast",
     {| id := "google-deepmind/imagen-3.0-fast-generate-001";
        name := "Google Imagen 3 Fast"; provider := "replicate";
        supportsReferenceImage := false; cost := "$0.02";
        description := "Faster, cheaper version of Imagen 3." |});
    ("nano-banana-pro",
     {| id := "google-deepmind/nano-banana-pro";
        name := "Nano Banana Pro"; provider := "replicate";
        supportsReferenceImage := true; cost := "$0.05";
        description := "Google's advanced model. Excellent text rendering and reference image support." |});
    ("flux-schnell",
     {| id := "black-forest-labs/flux-schnell";
        name := "Flux Schnell"; provider := "replicate";
        supportsReferenceImage := false; cost := "$0.003";
        description := "Fastest and cheapest. Good for quick iterations." |});
    ("flux-dev",
     {| id := "black-forest-labs/flux-dev";
        name := "Flux Dev"; provider := "replicate";
        supportsReferenceImage := false; cost := "$0.025";
        description := "Higher quality, better details." |});
    ("flux-pro",
     {| id := "black-forest-labs/flux-1.1-pro";
        name := "Flux 1.1 Pro"; provider := "replicate";
        supportsReferenceImage := false; cost := "$0.04";
        description := "Professional quality. Good text rendering." |});
    ("flux-redux",
     {| id := "black-forest-labs/flux-redux-dev";
        name := "Flux Redux"; provider := "replicate";
        supportsReferenceImage := true; cost := "$0.025";
        description := "For image-to-image and style transfer." |}) ].

Definition DEFAULT_MODEL : string := "imagen-3".
Definition DEFAULT_COMPRESSION_QUALITY : Z := 85.

(** [Object.keys(MODELS)] *)
Definition modelKeys : list string := MODELS.*1.

(** [MODELS] is an object literal, so its prototype is [Object.prototype]
    and a property read that misses the own keys continues there.  These
    are the names [Object.prototype] defines; each of them holds a
    function, or for [__proto__] the prototype object itself. *)
Definition objectPrototypeKeys : list string :=
  [ "constructor"; "hasOwnProperty"; "isPrototypeOf"; "propertyIsEnumerable";
    "toLocaleString"; "toString"; "valueOf"; "__proto__";
    "__defineGetter__"; "__defineSetter__"; "__lookupGetter__"; "__lookupSetter__" ].

(** What the expression [MODELS[model]] evaluates to: a model record, a
    member of [Object.prototype] found under the given key, or
    [undefined]. *)
Inductive Lookup :=
| Own (config : ModelConfig)
| Inherited (key : string)
| Undefined.

Fixpoint assoc {A : Type} (key : string) (l : list (string * A)) : option A :=
  match l with
  | [] => None
  | (k, v) :: l' => if decide (k = key) then Some v else assoc key l'
  end.

Definition MODELS_get (model : string) : Lookup :=
  match assoc model MODELS with
  | Some config => Own config
  | None => if bool_decide (model ∈ objectPrototypeKeys)
            then Inherited model else Undefined
  end.

(** Truthiness of a lookup result: a model record and an inherited
    function are objects, hence truthy. *)
Definition truthy (l : Lookup) : bool :=
  match l with Undefined => false | _ => true end.

(** Reading [id], [provider], [cost] or [supportsReferenceImage] off the
    lookup result; an inherited member has none of them. *)
Definition field {A : Type} (f : ModelConfig → A) (l : Lookup) : option A :=
  match l with Own config => Some (f config) | _ => None end.

(** Reading [name] off the lookup result.  An inherited function has a
    [name] of its own: [Object] for the constructor, the property name
    for the other methods; the prototype object has none. *)
Definition nameOf (l : Lookup) : option string :=
  match l with
  | Own config => Some (name config)
  | Inherited key =>
      if decide (key = "__proto__") then None
      else if decide (key = "constructor") then Some "Object"
      else Some key
  | Undefined => None
  end.

(** ** Numbers

    File sizes, timestamps and indices are integers far below 2^53 and
    are kept as [N] or [Z].  The one computation that leaves the
    integers, the saved percentage, is carried out on IEEE 754 binary64
    values as JavaScript does. *)
Module Number.

Definition prec : Z := 53.
Definition emax : Z := 1024.

Definition ofInteger (z : Z) : spec_float := binary_normalize prec emax z 0 false.
Definition div : spec_float → spec_float → spec_float := SFdiv prec emax.
Definition sub : spec_float → spec_float → spec_float := SFsub prec emax.
Definition mul : spec_float → spec_float → spec_float := SFmul prec emax.

(** The numbers [Math.round] can return: an integer, minus zero, an
    infinity, or NaN. *)
Inductive Integral :=
| IntegerValue (z : Z)
| NegativeZero
| Infinite (negative : bool)
| NotANumber.

(** The exact value of a finite binary64 number, as a rational. *)
Definition value (s : bool) (m : positive) (e : Z) : Q :=
  match e with
  | Zneg k => cond_Zopp s (Zpos m) # (2 ^ k)
  | _ => inject_Z (cond_Zopp s (Zpos m) * 2 ^ e)
  end.

(** The integer nearest to a rational, ties towards plus infinity. *)
Definition nearest (q : Q) : Z := (2 * Qnum q + Zpos (Qden q)) / (2 * Zpos (Qden q)).

(** [Math.round] *)
Definition round (x : spec_float) : Integral :=
  match x with
  | S754_zero s => if s then NegativeZero else IntegerValue 0
  | S754_infinity s => Infinite s
  | S754_nan => NotANumber
  | S754_finite s m e =>
      let z := nearest (value s m e) in
      if (z =? 0)%Z && s then NegativeZero else IntegerValue z
  end.

(** A rounded number below zero, and a binary64 number below -1/2. *)
Definition negative (x : Integral) : Prop :=
  match x with
  | IntegerValue z => z < 0
  | Infinite true => True
  | _ => False
  end.

Definition belowMinusHalf (x : spec_float) : Prop :=
  match x with
  | S754_finite s m e => (value s m e < - (1 # 2))%Q
  | S754_infinity true => True
  | _ => False
  end.

(** Rendering inside a template literal. *)
Definition show (x : Integral) : string :=
  match x with
  | IntegerValue z => pretty z
  | NegativeZero => "0"
  | Infinite false => "Infinity"
  | Infinite true => "-Infinity"
  | NotANumber => "NaN"
  end.

(** [(bytes / 1024).toFixed(1)]: the division by a power of two is exact,
    and [toFixed] picks the nearest tenth, the larger one on a tie. *)
Definition toFixed1_of_1024ths (size : N) : string :=
  let tenths := ((10 * size + 512) / 1024)%N in
  pretty (tenths / 10)%N +:+ "." +:+ pretty (tenths mod 10)%N.

End Number.

(** [(1 - compressedSize / originalSize) * 100], in binary64. *)
Definition percentage (compressedSize originalSize : N) : spec_float :=
  Number.mul
    (Number.sub (Number.ofInteger 1)
       (Number.div (Number.ofInteger (Z.of_N compressedSize))
                   (Number.ofInteger (Z.of_N originalSize))))
    (Number.ofInteger 100).

(** [Math.round((1 - compressedSize / originalSize) * 100)] *)
Definition savedPercentOf (compressedSize originalSize : N) : Number.Integral :=
  Number.round (percentage compressedSize originalSize).

(** Following the specification's words: the saved percentage as
    [(1 - compressedSize / originalSize) * 100] in exact arithmetic, and
    its rounding to the nearest integer, a half upwards. *)
Definition statedPercentage (compressedSize originalSize : N) : Q :=
  ((1 - inject_Z (Z.of_N compressedSize) / inject_Z (Z.of_N originalSize)) * 100)%Q.

Definition statedSavedPercent (compressedSize originalSize : N) : Z :=
  Number.nearest (statedPercentage compressedSize originalSize).

(** ** The world outside the program *)

Abbreviation bytes := (list Byte.byte).

(** What running a statement yields: a value, or a thrown error (a
    rejected promise) with its message. *)
Inductive Result (A : Type) :=
| Ok (value : A)
| Throw (message : string).
Arguments Ok {A} value.
Arguments Throw {A} message.

(** The mutable part: the file system, and how many times the clock and
    the random generator have been read. *)
Record World := {
  files : gmap string bytes;
  dirs : gset string;
  clockReads : nat;
  randomDraws : nat;
}.

Inductive Protocol := Http | Https.

(** How piping a 200 response into a file stream ends: the stream
    finishes; the file stream reports an error; the body stalls until the
    request times out; or the connection breaks while the body arrives,
    which none of the handlers hears of. *)
Inductive Transfer :=
| Finished (body : bytes)
| StreamError (message : string)
| Stalled (partial : bytes)
| Aborted (partial : bytes).

(** How a GET request ends: an error or the 60 s timeout before any
    response, or a response with its status, [Location] header and body. *)
Inductive Exchange :=
| RequestError (message : string)
| RequestTimeout
| Response (statusCode : N) (location : option string) (transfer : Transfer).

(** A [sharp] pipeline: the optional [resize(maxWidth, maxHeight, {fit:
    "inside", withoutEnlargement: true})] and the JPEG quality. *)
Record SharpJob := {
  resize : option (option Z * option Z);
  jpegQuality : Z;
}.

(** [toFile] either writes the encoded image, or rejects, possibly
    leaving an incomplete output file behind. *)
Inductive SharpOutcome :=
| Encoded (output : bytes)
| Rejected (message : string) (debris : option bytes).

Record Metadata := {
  width : option Z;
  height : option Z;
  format : option string;
}.

(** The [input] object handed to the backend; [image] stands for the
    data URI built from a MIME type and the bytes of the reference file. *)
Record BackendInput := {
  input_prompt : option string;
  input_aspect_ratio : string;
  input_num_outputs : Z;
  input_image : option (string * bytes);
  input_prompt_strength : option Q;
}.

(** The backend's output, each item given by its [String(item)]. *)
Inductive BackendOutput :=
| OutputArray (items : list string)
| OutputSingle (item : string).

(** Everything the program reads but does not control. *)
Record Env := {
  OUTPUT_DIR : string;
  REPLICATE_API_TOKEN : option string;
  Date_now : nat → N;
  Math_random : nat → list N;
  http_get : Protocol → string → Exchange;
  sharp_toFile : SharpJob → option bytes → SharpOutcome;
  sharp_metadata : option bytes → Result Metadata;
  replicate_run : option string → BackendInput → Result BackendOutput;
  path_resolve : string → string;
  path_normalize : string → string;
  path_extname : string → string;
  path_dirname : string → string;
  path_basename : string → string → string;
  stat_directory_size : string → N;
  stat_birthtime : string → N;
}.

(** [path.join(dir, file)] for a canonical directory (absolute,
    normalised, without trailing separator) and a plain file name (not
    empty, not [.] or [..], free of separators): there [Path.join], which
    normalises, only concatenates (lemma [join_canonical]).  The output
    directory is taken to be canonical, and its entries to be known by
    one path each; the statements that spell a joined path say so. *)
Definition path_join (dir file : string) : string := dir +:+ "/" +:+ file.

(** ** Stateful, fallible computations

    A computation maps a world to a result and a successor world; [None]
    means the computation has not finished within the fuel it was given
    (a redirect chain longer than the fuel). *)
Definition M (A : Type) : Type := World → option (Result A * World).

Definition ret {A : Type} (a : A) : M A := λ w, Some (Ok a, w).
Definition throw {A : Type} (message : string) : M A := λ w, Some (Throw message, w).
Definition pending {A : Type} : M A := λ _, None.

Definition bind {A B : Type} (m : M A) (k : A → M B) : M B :=
  λ w, match m w with
       | None => None
       | Some (Ok a, w') => k a w'
       | Some (Throw message, w') => Some (Throw message, w')
       end.

Notation "'let*' x := m 'in' k" := (bind m (λ x, k))
  (at level 10, x name, m at level 200, k at level 200, only parsing).
Notation "m ;; k" := (bind m (λ _, k))
  (at level 100, right associativity, only parsing).

Definition lift {A : Type} (r : Result A) : M A := λ w, Some (r, w).

(** *** File system primitives *)

Definition set_files (f : gmap string bytes → gmap string bytes) (w : World) : World :=
  {| files := f (files w); dirs := dirs w;
     clockReads := clockReads w; randomDraws := randomDraws w |}.

(** [fs.existsSync] *)
Definition existsSync (p : string) : M bool :=
  λ w, Some (Ok (bool_decide (is_Some (files w !! p) ∨ p ∈ dirs w)), w).

Definition ENOENT (syscall p : string) : string :=
  "ENOENT: no such file or directory, " +:+ syscall +:+ " '" +:+ p +:+ "'".

Section Primitives.
Context (E : Env).

(** [fs.statSync(p).size] *)
Definition statSync_size (p : string) : M N :=
  λ w, match files w !! p with
       | Some content => Some (Ok (N.of_nat (length content)), w)
       | None => if bool_decide (p ∈ dirs w)
                 then Some (Ok (stat_directory_size E p), w)
                 else Some (Throw (ENOENT "stat" p), w)
       end.

(** A completed write of [content] to [p], creating or replacing it. *)
Definition writeFile (p : string) (content : bytes) : M unit :=
  λ w, Some (Ok tt, set_files <[p := content]> w).

(** [fs.unlinkSync] *)
Definition unlinkSync (p : string) : M unit :=
  λ w, match files w !! p with
       | Some _ => Some (Ok tt, set_files (delete p) w)
       | None => if bool_decide (p ∈ dirs w)
                 then Some (Throw ("EISDIR: illegal operation on a directory, unlink '"
                                   +:+ p +:+ "'"), w)
                 else Some (Throw (ENOENT "unlink" p), w)
       end.

(** [fs.unlink(p, () => {})]: the outcome is ignored. *)
Definition unlink_ignoring (p : string) : M unit :=
  λ w, Some (Ok tt, set_files (delete p) w).

(** [Date.now()] *)
Definition now : M N :=
  λ w, Some (Ok (Date_now E (clockReads w)),
             {| files := files w; dirs := dirs w;
                clockReads := S (clockReads w); randomDraws := randomDraws w |}).

(** One digit of a base-36 numeral. *)
Definition digit36 (d : N) : ascii :=
  let d := (d mod 36)%N in
  if (d <? 10)%N then ascii_of_N (48 + d) else ascii_of_N (87 + d).

(** [Math.random().toString(36).slice(2)]: the digits after the point. *)
Definition random36 : M string :=
  λ w, Some (Ok (string_of_list_ascii (digit36 <$> Math_random E (randomDraws w))),
             {| files := files w; dirs := dirs w;
                clockReads := clockReads w; randomDraws := S (randomDraws w) |}).

(** *** The downloaders *)

(** The redirect test: status 301 or 302 and a truthy [Location]. *)
Definition redirectTarget (statusCode : N) (location : option string) : option string :=
  if ((statusCode =? 301) || (statusCode =? 302))%N then
    match location with
    | Some redirectUrl => if decide (redirectUrl = "") then None else Some redirectUrl
    | None => None
    end
  else None.

Definition protocolOf (url : string) : Protocol :=
  if Js.startsWith "https" url then Https else Http.

(** [response.pipe(fileStream)] and the ways it ends: [finish]; the
    stream's [error], after which the file is unlinked; the request
    timeout while the body is still arriving, which leaves what was
    written so far; or a broken connection, after which what was written
    stays and the promise is never settled. *)
Definition pipeToFile (p : string) (transfer : Transfer) : M unit :=
  match transfer with
  | Finished body => writeFile p body
  | StreamError message => unlink_ignoring p ;; throw message
  | Stalled partial => writeFile p partial ;; throw "Download timeout"
  | Aborted partial => writeFile p partial ;; pending
  end.

Definition httpFailure (statusCode : N) : string :=
  "Failed to download image: HTTP " +:+ Js.show statusCode.

Fixpoint downloadImage (fuel : nat) (url filename : string) : M string :=
  match fuel with
  | O => pending
  | S fuel' =>
      let outputPath := path_join (OUTPUT_DIR E) filename in
      match http_get E (protocolOf url) url with
      | RequestError message => throw message
      | RequestTimeout => throw "Download timeout"
      | Response statusCode location transfer =>
          match redirectTarget statusCode location with
          | Some redirectUrl => downloadImage fuel' redirectUrl filename
          | None =>
              if negb (statusCode =? 200)%N then throw (httpFailure statusCode)
              else pipeToFile outputPath transfer ;; ret outputPath
          end
      end
  end.

End Primitives.

Section Pipeline.
Context (E : Env).

(** *** The compressor *)

Record Compression := {
  originalSize : N;
  compressedSize : N;
  savedPercent : Number.Integral;
}.

(** [await sharp(input)...toFile(output)]: [sharp] refuses to write onto
    its own input; otherwise the encoder decides. *)
Definition sharp_run (job : SharpJob) (input output : string) : M unit :=
  λ w, if decide (input = output)
       then Some (Throw "Cannot use same file for input and output", w)
       else match sharp_toFile E job (files w !! input) with
            | Encoded data => Some (Ok tt, set_files <[output := data]> w)
            | Rejected message None => Some (Throw message, w)
            | Rejected message (Some data) =>
                Some (Throw message, set_files <[output := data]> w)
            end.

(** Truthiness of an optional number. *)
Definition truthyNumber (x : option Z) : bool :=
  match x with Some z => negb (z =? 0)%Z | None => false end.

Definition compressImage (inputPath outputPath : string)
    (quality : option Z) (maxWidth maxHeight : option Z) : M Compression :=
  let quality := default DEFAULT_COMPRESSION_QUALITY quality in
  let absoluteInput := path_resolve E inputPath in
  let absoluteOutput := path_resolve E outputPath in
  let* found := existsSync absoluteInput in
  if negb found then throw ("Input image not found: " +:+ absoluteInput)
  else
    let* originalSize := statSync_size E absoluteInput in
    let job := {| resize := if truthyNumber maxWidth || truthyNumber maxHeight
                            then Some (maxWidth, maxHeight) else None;
                  jpegQuality := quality |} in
    sharp_run job absoluteInput absoluteOutput ;;
    let* compressedSize := statSync_size E absoluteOutput in
    ret {| originalSize := originalSize;
           compressedSize := compressedSize;
           savedPercent := savedPercentOf compressedSize originalSize |}.

(** *** Download and compress in one step *)

Record Download := {
  path : string;
  sizes : Compression;
}.

Fixpoint downloadAndCompressImage (fuel : nat) (url filename : string)
    (compressionQuality : Z) : M Download :=
  match fuel with
  | O => pending
  | S fuel' =>
      let* timestamp := now E in
      let* suffix := random36 E in
      let tempFilename := "temp_" +:+ Js.show timestamp +:+ "_" +:+ suffix in
      let tempPath := path_join (OUTPUT_DIR E) tempFilename in
      let finalPath := path_join (OUTPUT_DIR E) filename in
      (match http_get E (protocolOf url) url with
       | RequestError message => throw message
       | RequestTimeout => throw "Download timeout"
       | Response statusCode location transfer =>
           match redirectTarget statusCode location with
           | Some redirectUrl =>
               downloadAndCompressImage fuel' redirectUrl filename compressionQuality ;;
               ret tt
           | None =>
               if negb (statusCode =? 200)%N then throw (httpFailure statusCode)
               else pipeToFile tempPath transfer
           end
       end) ;;
      let* originalSize := statSync_size E tempPath in
      sharp_run {| resize := None; jpegQuality := compressionQuality |}
                tempPath finalPath ;;
      unlinkSync tempPath ;;
      let* compressedSize := statSync_size E finalPath in
      ret {| path := finalPath;
             sizes := {| originalSize := originalSize;
                         compressedSize := compressedSize;
                         savedPercent := savedPercentOf compressedSize originalSize |} |}
  end.

(** *** Metadata *)

Record ImageInfo := {
  info_width : Z;
  info_height : Z;
  info_format : string;
  info_size : N;
}.

(** [x || 0] on an optional number, and [s || "unknown"] on an optional
    string. *)
Definition orZero (x : option Z) : Z := default 0%Z x.
Definition orUnknown (s : option string) : string :=
  match s with
  | Some s => if decide (s = "") then "unknown" else s
  | None => "unknown"
  end.

Definition getImageMetadata (imagePath : string) : M ImageInfo :=
  let absolutePath := path_resolve E imagePath in
  let* found := existsSync absolutePath in
  if negb found then throw ("Image not found: " +:+ absolutePath)
  else
    let* metadata := (λ w, Some (sharp_metadata E (files w !! absolutePath), w)) in
    let* size := statSync_size E absolutePath in
    ret {| info_width := orZero (width metadata);
           info_height := orZero (height metadata);
           info_format := orUnknown (format metadata);
           info_size := size |}.

(** [generateFilenameFromPrompt] *)
Definition generateFilenameFromPrompt (prompt : string) (index : N) : M string :=
  let* timestamp := now E in
  ret (filenameAt timestamp prompt index).

End Pipeline.

(** ** The tool-call handler *)

(** A JSON document.  The handler returns [JSON.stringify(doc, null, 2)];
    the embedding keeps the document itself.  A property whose value is
    [undefined] is left out, as [JSON.stringify] does. *)
#[warnings="-register-all"]
Inductive Json :=
| JBool (b : bool)
| JNumber (z : Z)
| JString (s : string)
| JArray (items : list Json)
| JObject (members : list (string * Json)).

Record TextContent := {
  type : string;
  text : Json;
}.

(** The result envelope; [isError] is absent on success. *)
Record ToolResult := {
  content : list TextContent;
  isError : option bool;
}.

(** The [arguments] object of a call, each property possibly absent. *)
Record ToolArguments := {
  prompt : option string;
  model : option string;
  reference_image : option string;
  aspect_ratio : option string;
  compression_quality : option Z;
  num_outputs : option Z;
  prompt_strength : option Q;
  input_path : option string;
  output_path : option string;
  quality : option Z;
  max_width : option Z;
  max_height : option Z;
  image_path : option string;
}.

Definition noArguments : ToolArguments :=
  {| prompt := None; model := None; reference_image := None; aspect_ratio := None;
     compression_quality := None; num_outputs := None; prompt_strength := None;
     input_path := None; output_path := None; quality := None;
     max_width := None; max_height := None; image_path := None |}.

Definition dquote : string := String (ascii_of_N 34) EmptyString.

(** The [TypeError]s raised when a required string is [undefined]. *)
Definition undefinedReceiver (method : string) : string :=
  "Cannot read properties of undefined (reading '" +:+ method +:+ "')".
Definition undefinedPathArgument (parameter : string) : string :=
  "The " +:+ dquote +:+ parameter +:+ dquote
  +:+ " argument must be of type string. Received undefined".
Definition undefinedArguments (property : string) : string :=
  "Cannot destructure property '" +:+ property +:+ "' of 'args' as it is undefined.".

(** Truthiness of an optional string. *)
Definition truthyString (s : option string) : bool :=
  match s with Some s => negb (bool_decide (s = "")) | None => false end.

Definition kilobytes (size : N) : string := Number.toFixed1_of_1024ths size +:+ " KB".
Definition percent (saved : Number.Integral) : string := Number.show saved +:+ "%".

Definition member (key : string) (value : option Json) : list (string * Json) :=
  match value with Some v => [(key, v)] | None => [] end.

Definition textResult (doc : Json) : ToolResult :=
  {| content := [ {| type := "text"; text := doc |} ]; isError := None |}.

(** The [catch] clause of the handler. *)
Definition errorResult (errorMessage : string) : ToolResult :=
  {| content := [ {| type := "text";
                     text := JObject [ ("success", JBool false);
                                       ("error", JString errorMessage) ] |} ];
     isError := Some true |}.

Section Handler.
Context (E : Env).

Definition getReplicateClient : M unit :=
  if truthyString (REPLICATE_API_TOKEN E) then ret tt
  else throw ("REPLICATE_API_TOKEN environment variable is required. "
              +:+ "Get your API token from https://replicate.com/account/api-tokens").

(** [fs.readFileSync] *)
Definition readFileSync (p : string) : M bytes :=
  λ w, match files w !! p with
       | Some data => Some (Ok data, w)
       | None => if bool_decide (p ∈ dirs w)
                 then Some (Throw "EISDIR: illegal operation on a directory, read", w)
                 else Some (Throw (ENOENT "open" p), w)
       end.

(** [fileToDataUri]: the MIME type and the bytes that make up the URI. *)
Definition fileToDataUri (filePath : string) : M (string * bytes) :=
  let absolutePath := path_resolve E filePath in
  let* found := existsSync absolutePath in
  if negb found then throw ("Reference image not found: " +:+ absolutePath)
  else
    let* buffer := readFileSync absolutePath in
    let ext := Js.toLowerCase (path_extname E filePath) in
    let mimeType :=
      if bool_decide (ext = ".jpg" ∨ ext = ".jpeg") then "image/jpeg"
      else if bool_decide (ext = ".webp") then "image/webp"
      else if bool_decide (ext = ".gif") then "image/gif"
      else "image/png" in
    ret (mimeType, buffer).

Record ImageEntry := {
  entry_path : string;
  original_size : string;
  compressed_size : string;
  saved : string;
}.

Definition entryOf (result : Download) : ImageEntry :=
  {| entry_path := path result;
     original_size := kilobytes (originalSize (sizes result));
     compressed_size := kilobytes (compressedSize (sizes result));
     saved := percent (savedPercent (sizes result)) |}.

(** One iteration of the loop over [urls]. *)
Definition downloadOne (fuel : nat) (prompt : option string) (quality : Z)
    (url : string) (i : N) : M ImageEntry :=
  let* baseFilename :=
    match prompt with
    | Some prompt => generateFilenameFromPrompt E prompt i
    | None => throw (undefinedReceiver "toLowerCase")
    end in
  let filename := baseFilename +:+ ".jpg" in
  let* result := downloadAndCompressImage E fuel url filename quality in
  ret (entryOf result).

(** The loop [for (let i = 0; i < urls.length; i++)], started at index
    [i] with the [results] pushed so far. *)
Fixpoint downloadAll (fuel : nat) (prompt : option string) (quality : Z)
    (urls : list string) (i : N) (results : list ImageEntry) : M (list ImageEntry) :=
  match urls with
  | [] => ret results
  | url :: urls' =>
      let* entry := downloadOne fuel prompt quality url i in
      downloadAll fuel prompt quality urls' (i + 1) (results ++ [entry])
  end.

Definition entryJson (e : ImageEntry) : Json :=
  JObject [ ("path", JString (entry_path e));
            ("original_size", JString (original_size e));
            ("compressed_size", JString (compressed_size e));
            ("saved", JString (saved e)) ].

(** What the first half of [generate_image] establishes before the
    loop: the model key and lookup result, the defaulted settings and
    the addresses returned by the backend. *)
Record Generation := {
  gen_model : string;
  gen_modelConfig : Lookup;
  gen_aspect_ratio : string;
  gen_compression_quality : Z;
  gen_urls : list string;
}.

Definition requestImages (args : ToolArguments) : M Generation :=
  let model := default DEFAULT_MODEL (model args) in
  let aspect_ratio := default "1:1" (aspect_ratio args) in
  let compression_quality :=
    default DEFAULT_COMPRESSION_QUALITY (compression_quality args) in
  let num_outputs := default 1%Z (num_outputs args) in
  let prompt_strength := default (8 # 10)%Q (prompt_strength args) in
  (* Validate model *)
  let modelConfig := MODELS_get model in
  if negb (truthy modelConfig) then
    throw ("Unknown model: " +:+ model +:+ ". Available models: "
           +:+ Js.join ", " modelKeys)
  else
  let supports := default false (field supportsReferenceImage modelConfig) in
  (* Check reference image support *)
  if truthyString (reference_image args) && negb supports then
    throw ("Model " +:+ model +:+ " does not support reference images. "
           +:+ "Use flux-redux or nano-banana-pro instead.")
  else
  getReplicateClient ;;
  let* image :=
    match reference_image args with
    | Some reference =>
        if truthyString (Some reference) && supports
        then let* uri := fileToDataUri reference in ret (Some uri)
        else ret None
    | None => ret None
    end in
  let input :=
    {| input_prompt := prompt args;
       input_aspect_ratio := aspect_ratio;
       input_num_outputs := Z.min (Z.max num_outputs 1) 4;
       input_image := image;
       input_prompt_strength :=
         match image with Some _ => Some prompt_strength | None => None end |} in
  (* Run the model *)
  let* output := lift (replicate_run E (field id modelConfig) input) in
  (* Process output - can be string URL or array of URLs *)
  let urls := match output with
              | OutputArray items => items
              | OutputSingle item => [item]
              end in
  ret {| gen_model := model; gen_modelConfig := modelConfig;
         gen_aspect_ratio := aspect_ratio;
         gen_compression_quality := compression_quality;
         gen_urls := urls |}.

Definition generate_image (fuel : nat) (args : option ToolArguments) : M ToolResult :=
  match args with
  | None => throw (undefinedArguments "prompt")
  | Some args =>
      let* g := requestImages args in
      (* Download and compress all generated images *)
      let* results := downloadAll fuel (prompt args) (gen_compression_quality g)
                        (gen_urls g) 0 [] in
      ret (textResult (JObject (
        [ ("success", JBool true);
          ("message", JString ("Generated " +:+ pretty (length results) +:+ " image(s)"));
          ("images", JArray (entryJson <$> results)) ]
        ++ member "prompt" (JString <$> prompt args)
        ++ [ ("model", JObject (
                [ ("key", JString (gen_model g)) ]
                ++ member "name" (JString <$> nameOf (gen_modelConfig g))
                ++ member "provider" (JString <$> field provider (gen_modelConfig g))
                ++ member "cost_per_image" (JString <$> field cost (gen_modelConfig g))));
             ("settings", JObject
                [ ("aspect_ratio", JString (gen_aspect_ratio g));
                  ("compression_quality", JNumber (gen_compression_quality g));
                  ("had_reference_image", JBool (truthyString (reference_image args))) ]) ])))
  end.

End Handler.

(** *** Dates

    [new Date(ms).toISOString()] for instants from 1970 through the year
    9999: the civil date of a day count, then the clock time. *)
Module IsoDate.

Definition pad (digits : nat) (n : N) : string :=
  let s := pretty n in
  String.concat "" (replicate (digits - String.length s) "0") +:+ s.

(** Year, month and day of the day number [days] counted from
    1970-01-01, by the usual era arithmetic on 400-year cycles. *)
Definition civil (days : N) : N * N * N :=
  let z := (days + 719468)%N in
  let era := (z / 146097)%N in
  let doe := (z mod 146097)%N in
  let yoe := ((doe - doe / 1460 + doe / 36524 - doe / 146096) / 365)%N in
  let doy := (doe - (365 * yoe + yoe / 4 - yoe / 100))%N in
  let mp := ((5 * doy + 2) / 153)%N in
  let d := (doy - (153 * mp + 2) / 5 + 1)%N in
  let m := (if (mp <? 10)%N then mp + 3 else mp - 9)%N in
  let y := (yoe + era * 400 + (if (m <=? 2)%N then 1 else 0))%N in
  (y, m, d).

Definition toISOString (ms : N) : string :=
  let '(y, m, d) := civil (ms / 86400000) in
  let t := (ms mod 86400000)%N in
  pad 4 y +:+ "-" +:+ pad 2 m +:+ "-" +:+ pad 2 d +:+ "T"
  +:+ pad 2 (t / 3600000) +:+ ":" +:+ pad 2 (t / 60000 mod 60) +:+ ":"
  +:+ pad 2 (t / 1000 mod 60) +:+ "." +:+ pad 3 (t mod 1000) +:+ "Z".

End IsoDate.

(** *** Directory listings *)

Fixpoint strip_prefix (p s : string) : option string :=
  match p, s with
  | EmptyString, _ => Some s
  | String a p', String b s' => if decide (a = b) then strip_prefix p' s' else None
  | String _ _, EmptyString => None
  end.

Fixpoint contains_char (c : ascii) (s : string) : bool :=
  match s with
  | EmptyString => false
  | String a s' => bool_decide (a = c) || contains_char c s'
  end.

(** [s.endsWith(suffix)] *)
Definition endsWith (suffix s : string) : bool :=
  String.prefix (String.rev suffix) (String.rev s).

(** The name of [p] inside [dir], when [p] is an entry of [dir]. *)
Definition entryName (dir p : string) : option string :=
  match strip_prefix (dir +:+ "/") p with
  | Some n => if bool_decide (n = "") || contains_char "/" n then None else Some n
  | None => None
  end.

(** [fs.readdirSync(dir)]; the order of the names is the one in which
    the map enumerates them. *)
Definition readdirSync (dir : string) : M (list string) :=
  λ w, if bool_decide (dir ∈ dirs w)
       then Some (Ok (omap (entryName dir) (elements (dom (files w) ∪ dirs w))), w)
       else Some (Throw (ENOENT "scandir" dir), w).

(** The test [/\.(png|jpg|jpeg|webp|gif)$/i]. *)
Definition isImageName (f : string) : bool :=
  let f := Js.toLowerCase f in
  endsWith ".png" f || endsWith ".jpg" f || endsWith ".jpeg" f
  || endsWith ".webp" f || endsWith ".gif" f.

Record Listed := {
  listed_filename : string;
  listed_path : string;
  listed_size : string;
  listed_birthtime : N;
}.

(** [Array.prototype.sort] is stable; the comparator orders by creation
    time, newest first. *)
Fixpoint insertNewestFirst (x : Listed) (l : list Listed) : list Listed :=
  match l with
  | [] => [x]
  | y :: l' => if (listed_birthtime y <? listed_birthtime x)%N then x :: l
               else y :: insertNewestFirst x l'
  end.

Definition sortNewestFirst (l : list Listed) : list Listed :=
  foldl (λ sorted x, insertNewestFirst x sorted) [] l.

(** The names of the entries of [tools]. *)
Definition toolNames : list string :=
  [ "generate_image"; "compress_image"; "get_image_info";
    "list_models"; "list_generated_images"; "get_output_directory" ].

Section Tools.
Context (E : Env).

(** [fs.mkdirSync(p, { recursive: true })]: the directory and every
    ancestor that is missing are created; a regular file in the place of
    one of them makes the call fail. *)
Definition mkdirSync_recursive (p : string) : M unit :=
  λ w, if bool_decide (Exists (λ a, is_Some (files w !! a)) (p :: Path.ancestors p))
       then Some (Throw ("ENOTDIR: not a directory, mkdir '" +:+ p +:+ "'"), w)
       else Some (Ok tt, {| files := files w;
                            dirs := list_to_set (p :: Path.ancestors p) ∪ dirs w;
                            clockReads := clockReads w;
                            randomDraws := randomDraws w |}).

(** The module's start-up: create the output directory when missing. *)
Definition ensureOutputDirectory : M unit :=
  let* found := existsSync (OUTPUT_DIR E) in
  if found then ret tt else mkdirSync_recursive (OUTPUT_DIR E).

Definition compress_image (args : option ToolArguments) : M ToolResult :=
  match args with
  | None => throw (undefinedArguments "input_path")
  | Some args =>
      let quality := default DEFAULT_COMPRESSION_QUALITY (quality args) in
      let* finalOutputPath :=
        if truthyString (output_path args) then ret (default "" (output_path args))
        else match input_path args with
             | None => throw (undefinedPathArgument "path")
             | Some input_path =>
                 let dir := path_dirname E input_path in
                 let base := path_basename E input_path (path_extname E input_path) in
                 ret (path_normalize E (path_join dir (base +:+ "_compressed.jpg")))
             end in
      match input_path args with
      | None => throw (undefinedPathArgument "paths[0]")
      | Some input_path =>
          let* result := compressImage E input_path finalOutputPath
                           (Some quality) (max_width args) (max_height args) in
          ret (textResult (JObject
            [ ("success", JBool true);
              ("input_path", JString input_path);
              ("output_path", JString finalOutputPath);
              ("original_size", JString (kilobytes (originalSize result)));
              ("compressed_size", JString (kilobytes (compressedSize result)));
              ("saved", JString (percent (savedPercent result))) ]))
      end
  end.

Definition get_image_info (args : option ToolArguments) : M ToolResult :=
  match args with
  | None => throw (undefinedArguments "image_path")
  | Some args =>
      match image_path args with
      | None => throw (undefinedPathArgument "paths[0]")
      | Some image_path =>
          let* metadata := getImageMetadata E image_path in
          ret (textResult (JObject
            [ ("path", JString (path_resolve E image_path));
              ("width", JNumber (info_width metadata));
              ("height", JNumber (info_height metadata));
              ("format", JString (info_format metadata));
              ("size", JString (kilobytes (info_size metadata))) ]))
      end
  end.

Definition list_models : M ToolResult :=
  let modelList :=
    (λ '(key, config),
       JObject [ ("key", JString key);
                 ("name", JString (name config));
                 ("provider", JString (provider config));
                 ("cost", JString (cost config));
                 ("supports_reference_image", JBool (supportsReferenceImage config));
                 ("description", JString (description config)) ]) <$> MODELS in
  ret (textResult (JObject
    [ ("default_model", JString DEFAULT_MODEL);
      ("models", JArray modelList) ])).

Fixpoint statAll (names : list string) : M (list Listed) :=
  match names with
  | [] => ret []
  | f :: names' =>
      let fullPath := path_join (OUTPUT_DIR E) f in
      let* size := statSync_size E fullPath in
      let* rest := statAll names' in
      ret ({| listed_filename := f; listed_path := fullPath;
              listed_size := kilobytes size;
              listed_birthtime := stat_birthtime E fullPath |} :: rest)
  end.

Definition list_generated_images : M ToolResult :=
  let* names := readdirSync (OUTPUT_DIR E) in
  let* stats := statAll (filter (λ f, isImageName f = true) names) in
  let files := sortNewestFirst stats in
  ret (textResult (JObject
    [ ("output_directory", JString (OUTPUT_DIR E));
      ("image_count", JNumber (Z.of_nat (length files)));
      ("images", JArray ((λ f, JObject
          [ ("filename", JString (listed_filename f));
            ("path", JString (listed_path f));
            ("size", JString (listed_size f));
            ("created", JString (IsoDate.toISOString (listed_birthtime f))) ])
          <$> files)) ])).

Definition get_output_directory : M ToolResult :=
  let* found := existsSync (OUTPUT_DIR E) in
  ret (textResult (JObject
    [ ("output_directory", JString (OUTPUT_DIR E));
      ("exists", JBool found) ])).

(** The [switch] over the tool name. *)
Definition dispatch (fuel : nat) (name : string) (args : option ToolArguments)
    : M ToolResult :=
  if decide (name = "generate_image") then generate_image E fuel args
  else if decide (name = "compress_image") then compress_image args
  else if decide (name = "get_image_info") then get_image_info args
  else if decide (name = "list_models") then list_models
  else if decide (name = "list_generated_images") then list_generated_images
  else if decide (name = "get_output_directory") then get_output_directory
  else throw ("Unknown tool: " +:+ name).

(** The request handler: the [switch] inside [try], and the [catch] that
    turns every thrown error into an error envelope. *)
Definition handleToolCall (fuel : nat) (name : string) (args : option ToolArguments)
    (w : World) : option (ToolResult * World) :=
  match dispatch fuel name args w with
  | None => None
  | Some (Ok result, w') => Some (result, w')
  | Some (Throw errorMessage, w') => Some (errorResult errorMessage, w')
  end.

End Tools.

(** ** A concrete environment, for running the embedding *)
Module Demo.

Definition data (s : string) : bytes := list_byte_of_string s.

(** Encoding halves the input; input that does not start with the
    letter I is rejected as not an image. *)
Definition encode (job : SharpJob) (input : option bytes) : SharpOutcome :=
  match input with
  | Some (Byte.x49 :: rest) => Encoded (take (length rest / 2) rest)
  | Some _ => Rejected "Input buffer contains unsupported image format" None
  | None => Rejected "Input file is missing" None
  end.

Definition metadataOf (input : option bytes) : Result Metadata :=
  match input with
  | Some (Byte.x49 :: _) =>
      Ok {| width := Some 100%Z; height := Some 100%Z; format := Some "png" |}
  | Some (Byte.x3f :: _) =>
      Ok {| width := None; height := None; format := None |}
  | _ => Throw "Input file contains unsupported image format"
  end.

Definition env (net : string → Exchange)
    (backend : option string → Result BackendOutput) : Env :=
  {| OUTPUT_DIR := "/out";
     REPLICATE_API_TOKEN := Some "test-token";
     Date_now := λ n, (1700000000000 + N.of_nat n)%N;
     Math_random := λ n, [N.of_nat n; 7; 35]%N;
     http_get := λ _ url, net url;
     sharp_toFile := encode;
     sharp_metadata := metadataOf;
     replicate_run := λ id _, backend id;
     path_resolve := λ p, p;
     path_normalize := λ p, p;
     path_extname := λ _, ".png";
     path_dirname := λ _, "/out";
     path_basename := λ _ _, "in";
     stat_directory_size := λ _, 4096%N;
     stat_birthtime := λ _, 1700000000000%N |}.

Definition world : World :=
  {| files := ∅; dirs := {[ "/out" ]}; clockReads := 0; randomDraws := 0 |}.

Definition ok (body : string) : Exchange := Response 200 None (Finished (data body)).

End Demo.

(** ** Notions used in the statements *)

(** A canonical directory: absolute, without trailing separator, and
    left as it is by [path.normalize]. *)
Definition canonicalDirectory (d : string) : Prop :=
  Path.isAbsolute d = true ∧ Path.trailingSeparator d = false ∧ Path.normalize d = d.

(** A plain file name: not empty, not [.] or [..], free of separators. *)
Definition plainName (n : string) : Prop :=
  n ≠ "" ∧ n ≠ "." ∧ n ≠ ".." ∧ contains_char "/" n = false.

(** The name of the temporary file drawn by a call started in world [w]. *)
Definition tempNameAt (E : Env) (w : World) : string :=
  "temp_" +:+ Js.show (Date_now E (clockReads w)) +:+ "_"
  +:+ string_of_list_ascii (digit36 <$> Math_random E (randomDraws w)).

(** The temporary path drawn by a call started in world [w]. *)
Definition tempPathAt (E : Env) (w : World) : string :=
  path_join (OUTPUT_DIR E)
    ("temp_" +:+ Js.show (Date_now E (clockReads w)) +:+ "_"
     +:+ string_of_list_ascii (digit36 <$> Math_random E (randomDraws w))).

(** The world after the call has read the clock and the generator. *)
Definition afterDraw (w : World) : World :=
  {| files := files w; dirs := dirs w;
     clockReads := S (clockReads w); randomDraws := S (randomDraws w) |}.

(** The final path the iteration for index [i] uses when started in
    world [w]. *)
Definition finalPathAt (E : Env) (prompt : string) (i : N) (w : World) : string :=
  path_join (OUTPUT_DIR E)
    (filenameAt (Date_now E (clockReads w)) prompt i +:+ ".jpg").

(** The integer a rounded number stands for, minus zero being zero. *)
Definition integerOf (x : Number.Integral) : option Z :=
  match x with
  | Number.IntegerValue z => Some z
  | Number.NegativeZero => Some 0
  | _ => None
  end.

(** The exact percentage lies half-way between two integers. *)
Definition halfway (compressedSize originalSize : N) : bool :=
  let q := statedPercentage compressedSize originalSize in
  ((2 * Qnum q + Zpos (Qden q)) mod (2 * Zpos (Qden q)) =? 0)%Z.

(** The reported percentage is the stated one, or on a half the integer
    below it. *)
Definition agreesWithStated (compressedSize originalSize : N) : bool :=
  match integerOf (savedPercentOf compressedSize originalSize) with
  | Some z =>
      (z =? statedSavedPercent compressedSize originalSize)%Z
      || (halfway compressedSize originalSize
          && (z =? statedSavedPercent compressedSize originalSize - 1)%Z)
  | None => false
  end.

(** [preserves P m]: however [m] ends, every path satisfying [P] holds
    afterwards what it held before. *)
Definition preserves {A : Type} (P : string → Prop) (m : M A) : Prop :=
  ∀ w r w', m w = Some (r, w') → ∀ p, P p → files w' !! p = files w !! p.

(** A decimal numeral contains no underscore. *)
Definition underscore_free (s : string) : Prop := contains_char "_" s = false.

(** ** Scenarios

    Concrete environments, worlds and requests on which the embedding
    is run. *)

(** The client library fails on a model identifier that is [undefined],
    and otherwise returns no address. *)
Definition strictBackend (id : option string) : Result BackendOutput :=
  match id with
  | None => Throw "Cannot read properties of undefined (reading 'match')"
  | Some _ => Ok (OutputArray [])
  end.

(** Every address answers 404. *)
Definition notFoundEnv : Env :=
  Demo.env (λ _, Response 404 None (Finished [])) strictBackend.

(** Every address serves a page of text. *)
Definition notAnImageEnv : Env :=
  Demo.env (λ _, Demo.ok "<html>sign in</html>") strictBackend.

(** The first address redirects to the second, which serves an image. *)
Definition redirectEnv : Env :=
  Demo.env
    (λ url, if decide (url = "https://a/cat")
            then Response 302 (Some "https://b/cat") (Finished [])
            else Demo.ok "IMAGEDATA")
    strictBackend.

(** The backend returns two addresses; the first serves an image, the
    second answers 500. *)
Definition secondFailsEnv : Env :=
  Demo.env
    (λ url, if decide (url = "https://cdn/1") then Demo.ok "IMAGEDATA"
            else Response 500 None (Finished []))
    (λ _, Ok (OutputArray ["https://cdn/1"; "https://cdn/2"])).

(** An encoder that turns every input into 935 bytes, and a world with
    an input of 1000 bytes. *)
Definition sizesEnv : Env :=
  {| OUTPUT_DIR := "/out";
     REPLICATE_API_TOKEN := Some "test-token";
     Date_now := Date_now notFoundEnv;
     Math_random := Math_random notFoundEnv;
     http_get := http_get notFoundEnv;
     sharp_toFile := λ _ _, Encoded (replicate 935 Byte.x00);
     sharp_metadata := sharp_metadata notFoundEnv;
     replicate_run := replicate_run notFoundEnv;
     path_resolve := path_resolve notFoundEnv;
     path_normalize := path_normalize notFoundEnv;
     path_extname := path_extname notFoundEnv;
     path_dirname := path_dirname notFoundEnv;
     path_basename := path_basename notFoundEnv;
     stat_directory_size := stat_directory_size notFoundEnv;
     stat_birthtime := stat_birthtime notFoundEnv |}.

Definition sizesWorld : World :=
  set_files <["/out/in.png" := replicate 1000 Byte.x00]> Demo.world.

(** The output directory holding one image, and holding one file whose
    metadata has no dimensions and no format. *)
Definition imageWorld : World :=
  set_files <["/out/in.png" := Demo.data "IMAGEDATA"]> Demo.world.

Definition opaqueWorld : World :=
  set_files <["/out/q.png" := Demo.data "?????"]> Demo.world.

(** The output directory holding the 100-byte file of the test suite. *)
Definition listingWorld : World :=
  set_files <["/out/test-image.jpg" := replicate 100 Byte.x00]> Demo.world.

(** Requests. *)
Definition promptOnly (p : string) : ToolArguments :=
  {| prompt := Some p; model := None; reference_image := None;
     aspect_ratio := None; compression_quality := None; num_outputs := None;
     prompt_strength := None; input_path := None; output_path := None;
     quality := None; max_width := None; max_height := None; image_path := None |}.

Definition withModel (m : string) (reference : option string) : ToolArguments :=
  {| prompt := Some "test prompt"; model := Some m; reference_image := reference;
     aspect_ratio := None; compression_quality := None; num_outputs := None;
     prompt_strength := None; input_path := None; output_path := None;
     quality := None; max_width := None; max_height := None; image_path := None |}.

Definition imagePath (p : string) : ToolArguments :=
  {| prompt := None; model := None; reference_image := None;
     aspect_ratio := None; compression_quality := None; num_outputs := None;
     prompt_strength := None; input_path := None; output_path := None;
     quality := None; max_width := None; max_height := None; image_path := Some p |}.

Definition inputPath (p : string) : ToolArguments :=
  {| prompt := None; model := None; reference_image := None;
     aspect_ratio := None; compression_quality := None; num_outputs := None;
     prompt_strength := None; input_path := Some p; output_path := None;
     quality := None; max_width := None; max_height := None; image_path := None |}.

(** ** Notions used in the further statements *)

(** [redirects E url final n]: starting at [url], [n] followed redirects
    lead to the address [final]. *)
Inductive redirects (E : Env) : string → string → nat → Prop :=
| redirects_none (url : string) : redirects E url url 0
| redirects_step (url : string) (statusCode : N) (location : option string)
    (transfer : Transfer) (next final : string) (n : nat) :
    http_get E (protocolOf url) url = Response statusCode location transfer →
    redirectTarget statusCode location = Some next →
    redirects E next final n →
    redirects E url final (S n).

(** The message with which a download is rejected when the exchange
    fails before or while the body is written: a request error, the
    timeout before a response, a status other than 200 on a response
    that is not a followed redirect, or an error of the file stream. *)
Definition downloadFailure (x : Exchange) : option string :=
  match x with
  | RequestError message => Some message
  | RequestTimeout => Some "Download timeout"
  | Response statusCode location transfer =>
      match redirectTarget statusCode location with
      | Some _ => None
      | None =>
          if negb (statusCode =? 200)%N then Some (httpFailure statusCode)
          else match transfer with
               | StreamError message => Some message
               | _ => None
               end
      end
  end.

(** [unchanged m]: however [m] ends, the world is what it was. *)
Definition unchanged {A : Type} (m : M A) : Prop :=
  ∀ w r w', m w = Some (r, w') → w' = w.

(** [returnsText m]: when [m] returns, it returns a text result without
    error flag. *)
Definition returnsText (m : M ToolResult) : Prop :=
  ∀ w r w', m w = Some (Ok r, w') → ∃ doc, r = textResult doc.

(** The tools that only inspect. *)
Definition inspectionTools : list string :=
  [ "get_image_info"; "list_models"; "list_generated_images"; "get_output_directory" ].

(** [keepsDirs m]: however [m] ends, the directories are those there
    were before. *)
Definition keepsDirs {A : Type} (m : M A) : Prop :=
  ∀ w r w', m w = Some (r, w') → dirs w' = dirs w.

(** [afterCalls E w w']: the world [w'] is reached from [w] by tool
    calls handled one after another. *)
Inductive afterCalls (E : Env) : World → World → Prop :=
| afterCalls_none (w : World) : afterCalls E w w
| afterCalls_call (fuel : nat) (name : string) (args : option ToolArguments)
    (w : World) (r : ToolResult) (w1 w2 : World) :
    handleToolCall E fuel name args w = Some (r, w1) →
    afterCalls E w1 w2 → afterCalls E w w2.

(** [directEntry E p]: [p] names an entry directly in the output
    directory: it is [path.join] of the directory and a plain name. *)
Definition directEntry (E : Env) (p : string) : Prop :=
  ∃ n, plainName n ∧ p = Path.join (OUTPUT_DIR E) n.

(** The addresses in the backend's output. *)
Definition urlsOf (output : BackendOutput) : list string :=
  match output with
  | OutputArray items => items
  | OutputSingle item => [item]
  end.

(** [serves E quality url body output]: the address answers 200 with
    [body], which the encoder turns into [output] at this quality. *)
Definition serves (E : Env) (quality : Z) (url : string) (body output : bytes) : Prop :=
  (∃ location, http_get E (protocolOf url) url = Response 200 location (Finished body))
  ∧ sharp_toFile E {| resize := None; jpegQuality := quality |} (Some body)
    = Encoded output.

(** [reports entry body output]: the entry gives the sizes of [body] and
    of [output] and the percentage saved between them. *)
Definition reports (entry : ImageEntry) (body output : bytes) : Prop :=
  original_size entry = kilobytes (N.of_nat (length body))
  ∧ compressed_size entry = kilobytes (N.of_nat (length output))
  ∧ saved entry = percent (savedPercentOf (N.of_nat (length output))
                                          (N.of_nat (length body))).

(** The path [compress_image] writes to for the input [p]: the given
    [output_path] unless it is missing or empty, else the input's name
    with [_compressed.jpg] in place of its extension, beside the input. *)
Definition outputPathFor (E : Env) (args : ToolArguments) (p : string) : string :=
  match output_path args with
  | Some given => if decide (given = "") then
                    path_normalize E
                      (path_join (path_dirname E p)
                         (path_basename E p (path_extname E p) +:+ "_compressed.jpg"))
                  else given
  | None => path_normalize E
              (path_join (path_dirname E p)
                 (path_basename E p (path_extname E p) +:+ "_compressed.jpg"))
  end.

(** The characters [[a-z0-9_-]]. *)
Definition filenameChar (c : ascii) : bool :=
  Js.between 97 122 c || Js.between 48 57 c
  || (Js.code c =? 45)%N || (Js.code c =? 95)%N.

(** [newerOrSame a b]: [a] was created no earlier than [b]. *)
Definition newerOrSame (a b : Listed) : Prop :=
  (listed_birthtime b ≤ listed_birthtime a)%N.

(** The JSON of one listed file. *)
Definition listedJson (f : Listed) : Json :=
  JObject [ ("filename", JString (listed_filename f));
            ("path", JString (listed_path f));
            ("size", JString (listed_size f));
            ("created", JString (IsoDate.toISOString (listed_birthtime f))) ].

(** Two redirects, then an image. *)
Definition twoHopsEnv : Env :=
  Demo.env
    (λ url, if decide (url = "http://a/cat")
            then Response 301 (Some "http://b/cat") (Finished [])
            else if decide (url = "http://b/cat")
            then Response 302 (Some "https://c/cat") (Finished [])
            else Demo.ok "IMAGEDATA")
    strictBackend.


(** The file stream fails while the body is written. *)
Definition brokenStreamEnv : Env :=
  Demo.env (λ _, Response 200 None (StreamError "write ECONNRESET")) strictBackend.

(** Every address serves an image. *)
Definition imageEnv : Env :=
  Demo.env (λ _, Demo.ok "IMAGEDATA") strictBackend.

(** The environment [E] with another backend behind [replicate.run]. *)
Definition withBackend (E : Env)
    (backend : option string → BackendInput → Result BackendOutput) : Env :=
  {| OUTPUT_DIR := OUTPUT_DIR E;
     REPLICATE_API_TOKEN := REPLICATE_API_TOKEN E;
     Date_now := Date_now E;
     Math_random := Math_random E;
     http_get := http_get E;
     sharp_toFile := sharp_toFile E;
     sharp_metadata := sharp_metadata E;
     replicate_run := backend;
     path_resolve := path_resolve E;
     path_normalize := path_normalize E;
     path_extname := path_extname E;
     path_dirname := path_dirname E;
     path_basename := path_basename E;
     stat_directory_size := stat_directory_size E;
     stat_birthtime := stat_birthtime E |}.

(** The environment [E] with another output directory. *)
Definition withOutputDir (E : Env) (dir : string) : Env :=
  {| OUTPUT_DIR := dir;
     REPLICATE_API_TOKEN := REPLICATE_API_TOKEN E;
     Date_now := Date_now E;
     Math_random := Math_random E;
     http_get := http_get E;
     sharp_toFile := sharp_toFile E;
     sharp_metadata := sharp_metadata E;
     replicate_run := replicate_run E;
     path_resolve := path_resolve E;
     path_normalize := path_normalize E;
     path_extname := path_extname E;
     path_dirname := path_dirname E;
     path_basename := path_basename E;
     stat_directory_size := stat_directory_size E;
     stat_birthtime := stat_birthtime E |}.

(** An output directory two levels down. *)
Definition nestedEnv : Env := withOutputDir secondFailsEnv "/srv/images/out".

(** What every call of the backend made by the handler looks like: the
    number of outputs lies between 1 and 4, a prompt strength is sent
    exactly when an image is, and an image is sent only to the
    identifier of a registered model that supports reference images. *)
Definition wellFormedRequest (backendId : option string) (input : BackendInput) : Prop :=
(1 ≤ input_num_outputs input ≤ 4)%Z
  ∧ (is_Some (input_prompt_strength input) ↔ is_Some (input_image input))
  ∧ (is_Some (input_image input) →
     ∃ key config, assoc key MODELS = Some config
                   ∧ backendId = Some (id config)
                   ∧ supportsReferenceImage config = true).

(** A backend that answers only well-formed requests. *)
Definition pickyBackend (backendId : option string) (input : BackendInput)
    : Result BackendOutput :=
  if bool_decide (1 ≤ input_num_outputs input ≤ 4)%Z
  then Ok (OutputSingle "https://cdn/1")
  else Throw "num_outputs out of range".

(** A request for nine images. *)
Definition nineImages : ToolArguments :=
  {| prompt := Some "a red fox"; model := Some "flux-schnell";
     reference_image := None; aspect_ratio := Some "16:9";
     compression_quality := Some 60; num_outputs := Some 9;
     prompt_strength := None; input_path := None; output_path := None;
     quality := None; max_width := None; max_height := None; image_path := None |}.

(** The environment without an API token. *)
Definition noTokenEnv : Env :=
  {| OUTPUT_DIR := "/out";
     REPLICATE_API_TOKEN := None;
     Date_now := Date_now imageEnv;
     Math_random := Math_random imageEnv;
     http_get := http_get imageEnv;
     sharp_toFile := sharp_toFile imageEnv;
     sharp_metadata := sharp_metadata imageEnv;
     replicate_run := replicate_run imageEnv;
     path_resolve := path_resolve imageEnv;
     path_normalize := path_normalize imageEnv;
     path_extname := path_extname imageEnv;
     path_dirname := path_dirname imageEnv;
     path_basename := path_basename imageEnv;
     stat_directory_size := stat_directory_size imageEnv;
     stat_birthtime := stat_birthtime imageEnv |}.

(** A world in which the output directory has not been created yet. *)
Definition freshWorld : World :=
  {| files := ∅; dirs := ∅; clockReads := 0; randomDraws := 0 |}.

(** A world with a file outside the output directory. *)
Definition homeWorld : World :=
  set_files <["/home/user/notes.txt" := Demo.data "keep"]> Demo.world.

(** A request to compress [/out/in.png] at quality 60, with an empty
    output path. *)
Definition compressRequest : ToolArguments :=
  {| prompt := None; model := None; reference_image := None; aspect_ratio := None;
     compression_quality := None; num_outputs := None; prompt_strength := None;
     input_path := Some "/out/in.png"; output_path := Some "";
     quality := Some 60%Z; max_width := None; max_height := None; image_path := None |}.

(** The output directory holding two images of different age and a text
    file. *)
Definition galleryEnv : Env :=
  {| OUTPUT_DIR := "/out";
     REPLICATE_API_TOKEN := Some "test-token";
     Date_now := Date_now imageEnv;
     Math_random := Math_random imageEnv;
     http_get := http_get imageEnv;
     sharp_toFile := sharp_toFile imageEnv;
     sharp_metadata := sharp_metadata imageEnv;
     replicate_run := replicate_run imageEnv;
     path_resolve := path_resolve imageEnv;
     path_normalize := path_normalize imageEnv;
     path_extname := path_extname imageEnv;
     path_dirname := path_dirname imageEnv;
     path_basename := path_basename imageEnv;
     stat_directory_size := stat_directory_size imageEnv;
     stat_birthtime := λ p, if decide (p = "/out/old.PNG") then 1600000000000%N
                            else 1700000000000%N |}.

Definition galleryWorld : World :=
  set_files (λ _, <["/out/old.PNG" := Demo.data "I"]>
                    (<["/out/new.jpg" := Demo.data "II"]>
                       (<["/out/notes.txt" := Demo.data "n"]> ∅))) Demo.world.

(** * Properties *)

(** ** Running the embedding *)

(** The cases of the repository's test suite, replayed. *)

Example test_get_image_info_missing :
  handleToolCall notFoundEnv 0 "get_image_info"
    (Some (imagePath "/nonexistent/path/image.jpg")) Demo.world
  = Some (errorResult "Image not found: /nonexistent/path/image.jpg", Demo.world).
Proof. vm_compute. reflexivity. Qed.

Example test_compress_image_missing :
  handleToolCall notFoundEnv 0 "compress_image"
    (Some (inputPath "/nonexistent/input.jpg")) Demo.world
  = Some (errorResult "Input image not found: /nonexistent/input.jpg", Demo.world).
Proof. vm_compute. reflexivity. Qed.

Example test_reference_image_unsupported :
  handleToolCall notFoundEnv 0 "generate_image"
    (Some (withModel "imagen-3" (Some "/some/image.jpg"))) Demo.world
  = Some (errorResult ("Model imagen-3 does not support reference images. "
                       +:+ "Use flux-redux or nano-banana-pro instead."),
          Demo.world).
Proof. vm_compute. reflexivity. Qed.

Example test_get_image_info_png :
  handleToolCall notFoundEnv 0 "get_image_info" (Some (imagePath "/out/in.png"))
    imageWorld
  = Some (textResult (JObject [ ("path", JString "/out/in.png");
                                ("width", JNumber 100);
                                ("height", JNumber 100);
                                ("format", JString "png");
                                ("size", JString "0.0 KB") ]), imageWorld).
Proof. vm_compute. reflexivity. Qed.

Example test_compress_image :
  ∃ w', handleToolCall notFoundEnv 0 "compress_image" (Some (inputPath "/out/in.png"))
          imageWorld
        = Some (textResult (JObject [ ("success", JBool true);
                                      ("input_path", JString "/out/in.png");
                                      ("output_path", JString "/out/in_compressed.jpg");
                                      ("original_size", JString "0.0 KB");
                                      ("compressed_size", JString "0.0 KB");
                                      ("saved", JString "56%") ]), w').
Proof. eexists. vm_compute. reflexivity. Qed.

Example test_list_generated_images :
  handleToolCall notFoundEnv 0 "list_generated_images" None listingWorld
  = Some (textResult (JObject
      [ ("output_directory", JString "/out");
        ("image_count", JNumber 1);
        ("images", JArray
           [ JObject [ ("filename", JString "test-image.jpg");
                       ("path", JString "/out/test-image.jpg");
                       ("size", JString "0.1 KB");
                       ("created", JString "2023-11-14T22:13:20.000Z") ] ]) ]),
      listingWorld).
Proof. vm_compute. reflexivity. Qed.

Example test_get_output_directory :
  handleToolCall notFoundEnv 0 "get_output_directory" None Demo.world
  = Some (textResult (JObject [ ("output_directory", JString "/out");
                                ("exists", JBool true) ]), Demo.world).
Proof. vm_compute. reflexivity. Qed.

Example test_model_count : length MODELS = 7%nat ∧ length toolNames = 6%nat
                           ∧ truthy (MODELS_get DEFAULT_MODEL) = true.
Proof. repeat split. Qed.

(** A request that succeeds. *)
Example generate_two_images :
  ∃ w', handleToolCall
          (Demo.env (λ _, Demo.ok "IMAGEDATA")
             (λ _, Ok (OutputArray ["https://cdn/1"; "https://cdn/2"])))
          1 "generate_image" (Some (promptOnly "a red fox")) Demo.world
        = Some (textResult (JObject
            [ ("success", JBool true);
              ("message", JString "Generated 2 image(s)");
              ("images", JArray
                 [ JObject [ ("path", JString "/out/red_fox_1700000000000.jpg");
                             ("original_size", JString "0.0 KB");
                             ("compressed_size", JString "0.0 KB");
                             ("saved", JString "56%") ];
                   JObject [ ("path", JString "/out/red_fox_1700000000002_2.jpg");
                             ("original_size", JString "0.0 KB");
                             ("compressed_size", JString "0.0 KB");
                             ("saved", JString "56%") ] ]);
              ("prompt", JString "a red fox");
              ("model", JObject [ ("key", JString "imagen-3");
                                  ("name", JString "Google Imagen 3");
                                  ("provider", JString "replicate");
                                  ("cost_per_image", JString "$0.04") ]);
              ("settings", JObject [ ("aspect_ratio", JString "1:1");
                                     ("compression_quality", JNumber 85);
                                     ("had_reference_image", JBool false) ]) ]), w')
        ∧ files w' !! "/out/red_fox_1700000000000.jpg" = Some (Demo.data "MAGE")
        ∧ files w' !! "/out/red_fox_1700000000002_2.jpg" = Some (Demo.data "MAGE")
        ∧ size (files w') = 2%nat.
Proof. eexists. repeat split; vm_compute; reflexivity. Qed.

Example filenameAt_cat :
  filenameAt 1700000000000 "A photo of the Grey cat, sleeping!" 0
  = "grey_cat_sleeping_1700000000000".
Proof. vm_compute. reflexivity. Qed.

Example filenameAt_second :
  filenameAt 1700000000000 "  it's a DOG  " 1 = "dog_1700000000000_2".
Proof. vm_compute. reflexivity. Qed.

Example filenameAt_empty : filenameAt 5 "" 0 = "image_5".
Proof. vm_compute. reflexivity. Qed.

Example savedPercent_half : savedPercentOf 50 100 = Number.IntegerValue 50.
Proof. vm_compute. reflexivity. Qed.

Example savedPercent_grew : savedPercentOf 150 100 = Number.IntegerValue (-50).
Proof. vm_compute. reflexivity. Qed.

Example savedPercent_third : savedPercentOf 1 3 = Number.IntegerValue 67.
Proof. vm_compute. reflexivity. Qed.

Example savedPercent_tie : savedPercentOf 199 200 = Number.IntegerValue 1.
Proof. vm_compute. reflexivity. Qed.

Example savedPercent_tiny_loss : savedPercentOf 1001 1000 = Number.NegativeZero.
Proof. vm_compute. reflexivity. Qed.

Example savedPercent_binary64 : savedPercentOf 935 1000 = Number.IntegerValue 6.
Proof. vm_compute. reflexivity. Qed.

(** A connection that breaks while the body arrives: the download never
    settles, whatever the fuel. *)
Example aborted_download_never_settles :
  downloadImage (Demo.env (λ _, Response 200 None (Aborted (Demo.data "IMA")))
                          strictBackend) 5 "https://cdn/cat" "cat.jpg" Demo.world
  = None.
Proof. reflexivity. Qed.

Example savedPercent_of_empty : savedPercentOf 10 0 = Number.Infinite true.
Proof. vm_compute. reflexivity. Qed.

Example kilobytes_100 : Number.toFixed1_of_1024ths 100 = "0.1".
Proof. vm_compute. reflexivity. Qed.

Example iso_epoch : IsoDate.toISOString 0 = "1970-01-01T00:00:00.000Z".
Proof. vm_compute. reflexivity. Qed.

Example iso_2023 : IsoDate.toISOString 1700000000123 = "2023-11-14T22:13:20.123Z".
Proof. vm_compute. reflexivity. Qed.

Example iso_leap_day : IsoDate.toISOString 1709164800000 = "2024-02-29T00:00:00.000Z".
Proof. vm_compute. reflexivity. Qed.

(** ** The monad *)

Lemma bind_Some {A B : Type} (m : M A) (k : A → M B) w r w' :
  bind m k w = Some (r, w') →
  (∃ a w1, m w = Some (Ok a, w1) ∧ k a w1 = Some (r, w'))
  ∨ (∃ message, m w = Some (Throw message, w') ∧ r = Throw message).
Proof.
  unfold bind. destruct (m w) as [[[a|message] w1]|] eqn:Hm; intros H.
  - left. eauto.
  - right. inversion H; subst. eauto.
  - discriminate.
Qed.

Lemma bind_Ok {A B : Type} (m : M A) (k : A → M B) w a w1 :
  m w = Some (Ok a, w1) → bind m k w = k a w1.
Proof. unfold bind. intros ->. reflexivity. Qed.

Lemma bind_Throw {A B : Type} (m : M A) (k : A → M B) w message w1 :
  m w = Some (Throw message, w1) → bind m k w = Some (Throw message, w1).
Proof. unfold bind. intros ->. reflexivity. Qed.

(** ** The handler *)

(** C9: a call whose tool name is none of the six defined ones returns
    the error envelope: the error flag is set and the body is
    [{success: false, error: message}], where the message is
    [Unknown tool: <name>]; the world is left as it was. *)
Theorem unknown_tool_envelope (E : Env) (fuel : nat) (name : string)
    (args : option ToolArguments) (w : World) :
  name ∉ toolNames →
  ∃ message,
    handleToolCall E fuel name args w
    = Some ({| content := [ {| type := "text";
                               text := JObject [ ("success", JBool false);
                                                 ("error", JString message) ] |} ];
               isError := Some true |}, w)
    ∧ message = "Unknown tool: " +:+ name
    ∧ Js.includes "Unknown tool" message = true.
Proof.
  intros Hname. exists ("Unknown tool: " +:+ name).
  split; [|split; reflexivity].
  unfold handleToolCall, dispatch.
  repeat (case_decide; [exfalso; apply Hname; subst name; set_solver|]).
  reflexivity.
Qed.

Lemma unknown_tool_envelope_witness :
  ∃ message,
    handleToolCall (Demo.env (λ _, RequestTimeout) (λ _, Throw "offline")) 0
      "unknown_tool" (Some noArguments) Demo.world
    = Some ({| content := [ {| type := "text";
                               text := JObject [ ("success", JBool false);
                                                 ("error", JString message) ] |} ];
               isError := Some true |}, Demo.world)
    ∧ message = "Unknown tool: unknown_tool"
    ∧ Js.includes "Unknown tool" message = true.
Proof.
  apply unknown_tool_envelope.
  apply (bool_decide_unpack _). vm_compute. exact I.
Defined.

(** A model name that is neither a key of [MODELS] nor a property of
    [Object.prototype] is rejected before anything else happens. *)
Lemma generate_image_undefined_model (E : Env) (fuel : nat)
    (args : ToolArguments) (m : string) (w : World) :
  model args = Some m →
  MODELS_get m = Undefined →
  handleToolCall E fuel "generate_image" (Some args) w
  = Some (errorResult ("Unknown model: " +:+ m +:+ ". Available models: "
                       +:+ Js.join ", " modelKeys), w).
Proof.
  intros Hm Hget. unfold handleToolCall, dispatch.
  rewrite decide_True by reflexivity.
  unfold generate_image, requestImages. rewrite Hm.
  change (default DEFAULT_MODEL (Some m)) with m. rewrite Hget. reflexivity.
Qed.

Example generate_image_unknown_model :
  handleToolCall (Demo.env (λ _, RequestTimeout) (λ _, Throw "offline")) 0
    "generate_image"
    (Some (withModel "unknown-model" None)) Demo.world
  = Some (errorResult
            ("Unknown model: unknown-model. Available models: imagen-3, "
             +:+ "imagen-3-fast, nano-banana-pro, flux-schnell, flux-dev, "
             +:+ "flux-pro, flux-redux"), Demo.world).
Proof. vm_compute. reflexivity. Qed.

(** A model name found on [Object.prototype] passes the model check:
    without a reference image the call goes on to the client, and the
    error the caller sees is whatever the backend throws for an
    undefined model identifier. *)
Lemma generate_image_inherited_reaches_backend (E : Env) (fuel : nat)
    (args : ToolArguments) (m : string) (w : World) (message : string) :
  model args = Some m →
  MODELS_get m = Inherited m →
  reference_image args = None →
  truthyString (REPLICATE_API_TOKEN E) = true →
  replicate_run E None
    {| input_prompt := prompt args;
       input_aspect_ratio := default "1:1" (aspect_ratio args);
       input_num_outputs := Z.min (Z.max (default 1%Z (num_outputs args)) 1) 4;
       input_image := None;
       input_prompt_strength := None |}
  = Throw message →
  handleToolCall E fuel "generate_image" (Some args) w
  = Some (errorResult message, w).
Proof.
  intros Hm Hget Href Htoken Hrun. unfold handleToolCall, dispatch.
  rewrite decide_True by reflexivity.
  unfold generate_image, requestImages, getReplicateClient. rewrite Hm.
  change (default DEFAULT_MODEL (Some m)) with m. rewrite Hget, Href, Htoken.
  simpl. unfold bind, ret, lift. simpl. rewrite Hrun. reflexivity.
Qed.

(** C5: with [model = "constructor"], which is not a key of the
    registry, the lookup [MODELS[model]] finds the inherited
    [Object.prototype.constructor], the model check passes, and the
    backend is called with an undefined identifier.  The envelope that
    comes back is an error envelope, but its message is the backend's
    and does not mention [Unknown model]. *)
Theorem generate_image_inherited_model :
  MODELS_get "constructor" = Inherited "constructor"
  ∧ assoc "constructor" MODELS = None
  ∧ handleToolCall (Demo.env (λ _, RequestTimeout) strictBackend) 1
      "generate_image" (Some (withModel "constructor" None)) Demo.world
    = Some (errorResult "Cannot read properties of undefined (reading 'match')",
            Demo.world)
  ∧ Js.includes "Unknown model"
      "Cannot read properties of undefined (reading 'match')" = false.
Proof. repeat split; vm_compute; reflexivity. Qed.

(** ** Metadata *)

(** C10: for an existing file whose metadata [sharp] decodes,
    [getImageMetadata] returns normally; a missing width or height is
    reported as 0, a missing format as [unknown], and the size is the
    byte length of the file.  The [get_image_info] tool then answers
    with a result that carries no error flag and reports these values,
    the size as the byte length in kilobytes. *)
Theorem getImageMetadata_defaults (E : Env) (fuel : nat) (imagePath : string)
    (args : ToolArguments) (w : World) (content : bytes) (metadata : Metadata) :
  files w !! path_resolve E imagePath = Some content →
  sharp_metadata E (Some content) = Ok metadata →
  image_path args = Some imagePath →
  ∃ info,
    getImageMetadata E imagePath w = Some (Ok info, w)
    ∧ info_width info = match width metadata with Some x => x | None => 0%Z end
    ∧ info_height info = match height metadata with Some x => x | None => 0%Z end
    ∧ (format metadata = None → info_format info = "unknown")
    ∧ (∀ f, format metadata = Some f → f ≠ "" → info_format info = f)
    ∧ info_size info = N.of_nat (length content)
    ∧ handleToolCall E fuel "get_image_info" (Some args) w
      = Some ({| content :=
                   [ {| type := "text";
                        text := JObject
                          [ ("path", JString (path_resolve E imagePath));
                            ("width", JNumber (info_width info));
                            ("height", JNumber (info_height info));
                            ("format", JString (info_format info));
                            ("size", JString (kilobytes (N.of_nat (length content)))) ]
                     |} ];
                 isError := None |}, w).
Proof.
  intros Hfile Hmeta Harg.
  assert (Hrun : getImageMetadata E imagePath w
    = Some (Ok {| info_width := orZero (width metadata);
                  info_height := orZero (height metadata);
                  info_format := orUnknown (format metadata);
                  info_size := N.of_nat (length content) |}, w)).
  { unfold getImageMetadata, bind, existsSync, statSync_size, ret.
    rewrite Hfile.
    rewrite bool_decide_eq_true_2 by (left; eauto).
    simpl. rewrite Hfile, Hmeta. reflexivity. }
  eexists. split; [exact Hrun|]. simpl.
  split; [by destruct (width metadata)|].
  split; [by destruct (height metadata)|].
  split; [by intros ->|].
  split; [intros f -> Hf; simpl; by rewrite decide_False|].
  split; [reflexivity|].
  unfold handleToolCall, dispatch.
  rewrite decide_False by discriminate.
  rewrite decide_False by discriminate.
  rewrite decide_True by reflexivity.
  unfold get_image_info. rewrite Harg.
  erewrite bind_Ok by exact Hrun. reflexivity.
Qed.

Lemma getImageMetadata_defaults_witness :
  ∃ info,
    getImageMetadata notFoundEnv "/out/q.png" opaqueWorld
    = Some (Ok info, opaqueWorld)
    ∧ info_width info = 0%Z
    ∧ info_height info = 0%Z
    ∧ info_format info = "unknown"
    ∧ info_size info = 5%N
    ∧ handleToolCall notFoundEnv 0 "get_image_info" (Some (imagePath "/out/q.png"))
        opaqueWorld
      = Some (textResult (JObject [ ("path", JString "/out/q.png");
                                    ("width", JNumber 0);
                                    ("height", JNumber 0);
                                    ("format", JString "unknown");
                                    ("size", JString "0.0 KB") ]), opaqueWorld).
Proof.
  destruct (getImageMetadata_defaults notFoundEnv 0 "/out/q.png"
              (imagePath "/out/q.png") opaqueWorld (Demo.data "?????")
              {| width := None; height := None; format := None |})
    as (info & Hrun & Hw & Hh & Hf & _ & Hs & Hcall).
  - vm_compute. reflexivity.
  - vm_compute. reflexivity.
  - reflexivity.
  - exists info. rewrite Hcall, Hw, Hh, Hf by reflexivity.
    repeat split; auto.
Defined.

(** ** Downloads *)

Lemma not_200 (statusCode : N) :
  ¬ (200 ≤ statusCode < 300)%N → negb (statusCode =? 200)%N = true.
Proof. intros H. apply negb_true_iff, N.eqb_neq. lia. Qed.

(** C4: when the response is not a followed redirect (status 301 or 302
    with a usable [Location]) and its status is outside 200..299, both
    downloaders fail with the message [Failed to download image: HTTP
    <status>], and no file is created, changed or removed. *)
Theorem download_fails_with_status (E : Env) (fuel : nat) (url filename : string)
    (compressionQuality : Z) (w : World)
    (statusCode : N) (location : option string) (transfer : Transfer) :
  http_get E (protocolOf url) url = Response statusCode location transfer →
  redirectTarget statusCode location = None →
  ¬ (200 ≤ statusCode < 300)%N →
  let message := "Failed to download image: HTTP " +:+ pretty statusCode in
  downloadImage E (S fuel) url filename w = Some (Throw message, w)
  ∧ ∃ w', downloadAndCompressImage E (S fuel) url filename compressionQuality w
          = Some (Throw message, w')
          ∧ files w' = files w ∧ dirs w' = dirs w.
Proof.
  intros Hget Hredirect Hstatus message. split.
  - simpl. rewrite Hget, Hredirect, not_200 by done. reflexivity.
  - simpl. unfold bind at 1. simpl. unfold bind at 1. simpl.
    unfold bind at 1. rewrite Hget, Hredirect, not_200 by done.
    simpl. eexists. split; [reflexivity|]. split; reflexivity.
Qed.

Lemma download_fails_with_status_witness :
  downloadImage notFoundEnv 1 "https://a/cat" "cat.jpg" Demo.world
  = Some (Throw "Failed to download image: HTTP 404", Demo.world)
  ∧ ∃ w', downloadAndCompressImage notFoundEnv 1 "https://a/cat" "cat.jpg" 85
            Demo.world
          = Some (Throw "Failed to download image: HTTP 404", w')
          ∧ files w' = files Demo.world ∧ dirs w' = dirs Demo.world.
Proof.
  apply (download_fails_with_status notFoundEnv 0 "https://a/cat" "cat.jpg" 85
           Demo.world 404 None (Finished [])).
  - reflexivity.
  - reflexivity.
  - lia.
Defined.

Example redirect_without_location_fails :
  downloadImage (Demo.env (λ _, Response 302 (Some "") (Finished [])) strictBackend)
    1 "http://a/cat" "cat.jpg" Demo.world
  = Some (Throw "Failed to download image: HTTP 302", Demo.world).
Proof. vm_compute. reflexivity. Qed.

(** The standalone downloader follows a redirect by running itself on
    the new address with the same file name. *)
Lemma downloadImage_redirect (E : Env) (fuel : nat) (url filename : string)
    (w : World) (statusCode : N) (location : option string)
    (transfer : Transfer) (redirectUrl : string) :
  http_get E (protocolOf url) url = Response statusCode location transfer →
  redirectTarget statusCode location = Some redirectUrl →
  downloadImage E (S fuel) url filename w = downloadImage E fuel redirectUrl filename w.
Proof. intros Hget Hredirect. simpl. rewrite Hget, Hredirect. reflexivity. Qed.

(** ** Strings *)

Lemma append_nil (b : string) : "" +:+ b = b.
Proof. reflexivity. Qed.

Lemma append_cons (c : ascii) (a b : string) :
  String c a +:+ b = String c (a +:+ b).
Proof. reflexivity. Qed.

Ltac norm_append H := rewrite ?append_cons, ?append_nil in H.

Lemma append_empty_r (a : string) : a +:+ "" = a.
Proof.
  induction a as [|c a IH]; [reflexivity|].
  rewrite append_cons. by rewrite IH.
Qed.

Lemma length_append (a b : string) :
  String.length (a +:+ b) = (String.length a + String.length b)%nat.
Proof.
  induction a as [|c a IH]; [reflexivity|].
  rewrite append_cons. simpl. by rewrite IH.
Qed.

Lemma append_nonempty_r (a b : string) : b ≠ "" → a +:+ b ≠ "".
Proof. destruct a; [done|]. rewrite append_cons. discriminate. Qed.

(** Appending the same four characters is injective. *)
Lemma append_jpg_inj (a b : string) : a +:+ ".jpg" = b +:+ ".jpg" → a = b.
Proof.
  revert b. induction a as [|c a IH]; intros [|d b] Heq; norm_append Heq.
  - done.
  - apply (f_equal String.length) in Heq. simpl in Heq.
    rewrite length_append in Heq. simpl in Heq. lia.
  - apply (f_equal String.length) in Heq. simpl in Heq.
    rewrite length_append in Heq. simpl in Heq. lia.
  - injection Heq as -> Heq. f_equal. by apply IH.
Qed.

Lemma contains_char_append (c : ascii) (a b : string) :
  contains_char c (a +:+ b) = contains_char c a || contains_char c b.
Proof.
  induction a as [|d a IH]; [reflexivity|].
  rewrite append_cons. simpl. rewrite IH. apply orb_assoc.
Qed.

Lemma pretty_N_char_digit (x : N) : Js.between 48 57 (pretty_N_char x) = true.
Proof. unfold pretty_N_char. by repeat case_match. Qed.

Lemma pretty_N_go_digits (c : ascii) (x : N) (s : string) :
  Js.between 48 57 c = false →
  contains_char c s = false → contains_char c (pretty_N_go x s) = false.
Proof.
  intros Hc. revert s. induction (N.lt_wf_0 x) as [x _ IH]; intros s Hs.
  destruct (decide (x = 0%N)) as [->|Hx].
  - by rewrite pretty_N_go_0.
  - rewrite pretty_N_go_step by lia. apply IH.
    + apply N.div_lt; lia.
    + simpl. rewrite Hs, orb_false_r. apply bool_decide_eq_false.
      intros Heq. pose proof (pretty_N_char_digit (x `mod` 10)) as Hd.
      rewrite Heq in Hd. congruence.
Qed.

Lemma show_digits (c : ascii) (n : N) :
  Js.between 48 57 c = false → contains_char c (Js.show n) = false.
Proof.
  intros Hc. unfold Js.show, pretty, pretty_N. case_decide.
  - simpl. rewrite orb_false_r. apply bool_decide_eq_false. by intros <-.
  - by apply pretty_N_go_digits.
Qed.

(** A decimal numeral contains no underscore. *)
Lemma show_underscore_free (n : N) : underscore_free (Js.show n).
Proof. by apply show_digits. Qed.

Lemma underscore_free_cons (c : ascii) (s : string) :
  underscore_free (String c s) ↔ c ≠ "_"%char ∧ underscore_free s.
Proof.
  unfold underscore_free. simpl. rewrite orb_false_iff, bool_decide_eq_false.
  reflexivity.
Qed.

Lemma underscore_not_free (a y : string) : ¬ underscore_free (a +:+ "_" +:+ y).
Proof.
  unfold underscore_free. rewrite !contains_char_append. simpl.
  rewrite orb_true_r. discriminate.
Qed.

(** Two strings cut at their first underscore agree on both sides. *)
Lemma split_at_underscore (a b x y : string) :
  underscore_free a → underscore_free b →
  a +:+ "_" +:+ x = b +:+ "_" +:+ y → a = b ∧ x = y.
Proof.
  revert b. induction a as [|c a IH]; intros [|d b] Ha Hb Heq; norm_append Heq.
  - injection Heq as ->. done.
  - injection Heq as <- _.
    apply underscore_free_cons in Hb as [Hd _]. done.
  - injection Heq as -> _.
    apply underscore_free_cons in Ha as [Hc _]. done.
  - injection Heq as -> Heq.
    apply underscore_free_cons in Ha as [_ Ha].
    apply underscore_free_cons in Hb as [_ Hb].
    destruct (IH b Ha Hb Heq) as [-> ->]. done.
Qed.

(** ** File names *)

Lemma filter_none {A : Type} (P : A → Prop) `{∀ x, Decision (P x)} (l : list A) :
  Forall (λ x, ¬ P x) l → filter P l = [].
Proof.
  induction 1 as [|x l Hx _ IH]; [reflexivity|].
  rewrite filter_cons_False by done. exact IH.
Qed.

Lemma keepWord_false (word : string) :
  (String.length word ≤ 2)%nat ∨ word ∈ stopWords → keepWord word ≠ true.
Proof.
  unfold keepWord, stopWords_has. intros [Hlen|Hstop] Hkeep.
  - apply andb_true_iff in Hkeep as [Hlt _]. apply Nat.ltb_lt in Hlt. lia.
  - apply andb_true_iff in Hkeep as [_ Hnot].
    rewrite bool_decide_eq_true_2 in Hnot by done. discriminate.
Qed.

(** C7: the deriver always returns a non-empty name; and when every
    piece of the prompt is dropped by the filter (it has at most two
    characters or is a stop word; the empty prompt has the single empty
    piece), the name at index 0 is [image_<timestamp>] for the reading
    of the clock taken by the call. *)
Theorem generateFilenameFromPrompt_fallback (E : Env) (prompt : string) (w : World) :
  (∀ index, ∃ name w',
      generateFilenameFromPrompt E prompt index w = Some (Ok name, w')
      ∧ name ≠ "")
  ∧ (Forall (λ token, (String.length token ≤ 2)%nat ∨ token ∈ stopWords)
            (promptTokens prompt) →
     ∃ w', generateFilenameFromPrompt E prompt 0 w
           = Some (Ok ("image_" +:+ pretty (Date_now E (clockReads w))), w')).
Proof.
  split.
  - intros index. eexists. eexists. split; [reflexivity|].
    unfold filenameAt. apply append_nonempty_r. discriminate.
  - intros Hall. eexists. unfold generateFilenameFromPrompt, bind, now, ret.
    do 3 f_equal. unfold filenameAt, promptWords.
    rewrite filter_none.
    + simpl. unfold Js.show. by rewrite append_empty_r.
    + eapply Forall_impl; [exact Hall|]. intros token. apply keepWord_false.
Qed.

Lemma generateFilenameFromPrompt_fallback_witness :
  ∃ w', generateFilenameFromPrompt notFoundEnv "Make me a photo of it!" 0 Demo.world
        = Some (Ok "image_1700000000000", w').
Proof.
  apply (proj2 (generateFilenameFromPrompt_fallback notFoundEnv
                  "Make me a photo of it!" Demo.world)).
  apply (bool_decide_unpack _). vm_compute. exact I.
Defined.

(** The name determines the index: the text after the slug is a decimal
    timestamp, followed for a positive index by an underscore and the
    index plus one. *)
Lemma filenameAt_index_inj (prompt : string) (timestamp1 timestamp2 : N) (i j : N) :
  filenameAt timestamp1 prompt i = filenameAt timestamp2 prompt j → i = j.
Proof.
  intros Heq. unfold filenameAt in Heq.
  apply (inj (String.append _)) in Heq.
  apply (inj (String.append "_")) in Heq.
  pose proof (show_underscore_free timestamp1) as H1.
  pose proof (show_underscore_free timestamp2) as H2.
  destruct (0 <? i)%N eqn:Hi; destruct (0 <? j)%N eqn:Hj.
  - apply split_at_underscore in Heq as [_ Heq]; [|done..].
    apply (inj pretty) in Heq. lia.
  - rewrite append_empty_r in Heq. rewrite <- Heq in H2.
    by apply underscore_not_free in H2.
  - rewrite append_empty_r in Heq. rewrite Heq in H1.
    by apply underscore_not_free in H1.
  - apply N.ltb_ge in Hi, Hj. lia.
Qed.

(** The names of one request, with their extension, as the loop derives
    them. *)
Lemma request_filenames_distinct (prompt : string) (timestamps : N → N) (i j : N) :
  i ≠ j →
  filenameAt (timestamps i) prompt i +:+ ".jpg"
  ≠ filenameAt (timestamps j) prompt j +:+ ".jpg".
Proof.
  intros Hij Heq. apply Hij.
  by apply append_jpg_inj, filenameAt_index_inj in Heq.
Qed.

(** C6: for one prompt, two different output indices never receive the
    same name, whatever the two readings of the clock are, equal or
    not.  This covers the indices 0..3 of a request with up to four
    outputs. *)
Theorem filenames_distinct (prompt : string) (timestamp1 timestamp2 : N) (i j : N) :
  i ≠ j →
  filenameAt timestamp1 prompt i ≠ filenameAt timestamp2 prompt j.
Proof. intros Hij Heq. apply Hij. by apply filenameAt_index_inj in Heq. Qed.

Lemma filenames_distinct_witness :
  filenameAt 1700000000000 "a red fox" 0 ≠ filenameAt 1700000000000 "a red fox" 1.
Proof. apply filenames_distinct. discriminate. Defined.

(** ** Download and compress *)

Lemma downloadAndCompressImage_unfold (E : Env) (fuel : nat) (url filename : string)
    (compressionQuality : Z) (w : World) :
  downloadAndCompressImage E (S fuel) url filename compressionQuality w
  = (let tempPath := tempPathAt E w in
     let finalPath := path_join (OUTPUT_DIR E) filename in
     (match http_get E (protocolOf url) url with
      | RequestError message => throw message
      | RequestTimeout => throw "Download timeout"
      | Response statusCode location transfer =>
          match redirectTarget statusCode location with
          | Some redirectUrl =>
              downloadAndCompressImage E fuel redirectUrl filename compressionQuality ;;
              ret tt
          | None =>
              if negb (statusCode =? 200)%N then throw (httpFailure statusCode)
              else pipeToFile tempPath transfer
          end
      end) ;;
     let* originalSize := statSync_size E tempPath in
     sharp_run E {| resize := None; jpegQuality := compressionQuality |}
               tempPath finalPath ;;
     unlinkSync tempPath ;;
     let* compressedSize := statSync_size E finalPath in
     ret {| path := finalPath;
            sizes := {| originalSize := originalSize;
                        compressedSize := compressedSize;
                        savedPercent := savedPercentOf compressedSize originalSize |} |})
    (afterDraw w).
Proof. reflexivity. Qed.

(** Whenever the body arrives and the encoder then rejects it, the call
    throws the encoder's error and the temporary file stays behind with
    the downloaded bytes. *)
Lemma temp_file_left_behind (E : Env) (fuel : nat) (url filename : string)
    (compressionQuality : Z) (w : World) (location : option string)
    (body : bytes) (message : string) (debris : option bytes) :
  http_get E (protocolOf url) url = Response 200 location (Finished body) →
  sharp_toFile E {| resize := None; jpegQuality := compressionQuality |} (Some body)
  = Rejected message debris →
  tempPathAt E w ≠ path_join (OUTPUT_DIR E) filename →
  ∃ w', downloadAndCompressImage E (S fuel) url filename compressionQuality w
        = Some (Throw message, w')
        ∧ files w' !! tempPathAt E w = Some body.
Proof.
  intros Hget Hsharp Hne. rewrite downloadAndCompressImage_unfold.
  cbv zeta. rewrite Hget. simpl redirectTarget. cbv iota. simpl negb. cbv iota.
  unfold bind, pipeToFile, writeFile, statSync_size, sharp_run. simpl.
  rewrite lookup_insert_eq. rewrite decide_False by done. simpl.
  rewrite lookup_insert_eq, Hsharp.
  destruct debris as [data|]; eexists; (split; [reflexivity|]); simpl.
  - rewrite lookup_insert_ne by done. apply lookup_insert_eq.
  - apply lookup_insert_eq.
Qed.

(** C1: a 200 response whose body the encoder rejects.  The step throws
    the encoder's error, and the temporary file it created still exists
    afterwards, holding the downloaded bytes: the only [unlinkSync] of
    the temporary file comes after the compression and is skipped when
    the compression throws. *)
Theorem temp_file_survives_failed_compression :
  ∃ w', downloadAndCompressImage notAnImageEnv 1 "https://cdn/cat" "cat.jpg" 85
          Demo.world
        = Some (Throw "Input buffer contains unsupported image format", w')
        ∧ files Demo.world !! "/out/temp_1700000000000_07z" = None
        ∧ files w' !! "/out/temp_1700000000000_07z"
          = Some (Demo.data "<html>sign in</html>").
Proof.
  eexists. split; [vm_compute; reflexivity|].
  split; vm_compute; reflexivity.
Qed.

(** On success the temporary file is gone. *)
Example temp_file_removed_on_success :
  ∃ r w', downloadAndCompressImage
            (Demo.env (λ _, Demo.ok "IMAGEDATA") strictBackend) 1
            "https://cdn/cat" "cat.jpg" 85 Demo.world = Some (Ok r, w')
          ∧ files w' !! "/out/temp_1700000000000_07z" = None
          ∧ files w' !! "/out/cat.jpg" = Some (Demo.data "MAGE").
Proof. eexists. eexists. repeat split; vm_compute; reflexivity. Qed.

(** After a followed redirect the inner call has done all the work, and
    the outer call goes on to [statSync] its own temporary path, which
    it never created. *)
Lemma redirect_then_stat_fails (E : Env) (fuel : nat) (url filename : string)
    (compressionQuality : Z) (w : World) (statusCode : N)
    (location : option string) (transfer : Transfer) (redirectUrl : string)
    (inner : Download) (w1 : World) :
  http_get E (protocolOf url) url = Response statusCode location transfer →
  redirectTarget statusCode location = Some redirectUrl →
  downloadAndCompressImage E fuel redirectUrl filename compressionQuality (afterDraw w)
  = Some (Ok inner, w1) →
  files w1 !! tempPathAt E w = None →
  tempPathAt E w ∉ dirs w1 →
  downloadAndCompressImage E (S fuel) url filename compressionQuality w
  = Some (Throw (ENOENT "stat" (tempPathAt E w)), w1).
Proof.
  intros Hget Hredirect Hinner Hfile Hdir.
  rewrite downloadAndCompressImage_unfold. cbv zeta.
  rewrite Hget, Hredirect.
  erewrite bind_Ok; [|erewrite bind_Ok by exact Hinner; reflexivity].
  apply bind_Throw. unfold statSync_size.
  rewrite Hfile, bool_decide_eq_false_2 by done. reflexivity.
Qed.

(** C2: the standalone download follows the redirect and ends exactly as
    a direct request of the target does.  The combined step does not:
    requested directly, the target yields a result; reached through the
    redirect, the image is written to the same final path, and then the
    call throws [ENOENT] for its own temporary file. *)
Theorem redirect_breaks_combined_step :
  downloadImage redirectEnv 2 "https://a/cat" "cat.jpg" Demo.world
  = downloadImage redirectEnv 1 "https://b/cat" "cat.jpg" Demo.world
  ∧ (∃ w', downloadImage redirectEnv 2 "https://a/cat" "cat.jpg" Demo.world
           = Some (Ok "/out/cat.jpg", w')
           ∧ files w' !! "/out/cat.jpg" = Some (Demo.data "IMAGEDATA"))
  ∧ (∃ r w', downloadAndCompressImage redirectEnv 1 "https://b/cat" "cat.jpg" 85
               Demo.world = Some (Ok r, w')
             ∧ path r = "/out/cat.jpg"
             ∧ files w' !! "/out/cat.jpg" = Some (Demo.data "MAGE"))
  ∧ (∃ w', downloadAndCompressImage redirectEnv 2 "https://a/cat" "cat.jpg" 85
             Demo.world
           = Some (Throw ("ENOENT: no such file or directory, "
                          +:+ "stat '/out/temp_1700000000000_07z'"), w')
           ∧ files w' !! "/out/cat.jpg" = Some (Demo.data "MAGE")).
Proof.
  split; [vm_compute; reflexivity|].
  split; [eexists; split; vm_compute; reflexivity|].
  split; [eexists; eexists; repeat split; vm_compute; reflexivity|].
  eexists; split; vm_compute; reflexivity.
Qed.

(** ** The saved percentage *)

Lemma nearest_negative (q : Q) : Number.nearest q < 0 ↔ (q < - (1 # 2))%Q.
Proof.
  destruct q as [n d]. unfold Number.nearest, Qlt. simpl.
  split; intros H.
  - pose proof (Z.div_pos (2 * n + Z.pos d) (2 * Z.pos d)). lia.
  - apply Z.div_lt_upper_bound; lia.
Qed.

(** [Math.round] does not clamp: its result is below zero exactly when
    its argument is below -1/2. *)
Lemma round_negative (x : spec_float) :
  Number.negative (Number.round x) ↔ Number.belowMinusHalf x.
Proof.
  destruct x as [s|s| |s m e]; simpl.
  - destruct s; simpl; [tauto|lia].
  - destruct s; simpl; tauto.
  - tauto.
  - rewrite <- nearest_negative.
    destruct (Number.nearest (Number.value s m e) =? 0)%Z eqn:Hz; simpl.
    + apply Z.eqb_eq in Hz. destruct s; simpl; lia.
    + reflexivity.
Qed.

Lemma sharp_run_Ok (E : Env) (job : SharpJob) (input output : string)
    (u : unit) (w w' : World) :
  sharp_run E job input output w = Some (Ok u, w') →
  input ≠ output
  ∧ ∃ data, sharp_toFile E job (files w !! input) = Encoded data
            ∧ w' = set_files <[output := data]> w.
Proof.
  unfold sharp_run. case_decide; [discriminate|].
  destruct (sharp_toFile E job (files w !! input)) as [data|message [data|]];
    intros Hrun; inversion Hrun; subst. eauto.
Qed.

Lemma statSync_size_Some (E : Env) (p : string) (w : World) (r : Result N) (w' : World) :
  statSync_size E p w = Some (r, w') → w' = w.
Proof.
  unfold statSync_size. destruct (files w !! p); [|case_bool_decide];
    intros Hrun; by inversion Hrun.
Qed.

Lemma statSync_size_file (E : Env) (p : string) (w : World) (data : bytes) :
  files w !! p = Some data →
  statSync_size E p w = Some (Ok (N.of_nat (length data)), w).
Proof. unfold statSync_size. by intros ->. Qed.

Lemma unlinkSync_Ok (p : string) (u : unit) (w w' : World) :
  unlinkSync p w = Some (Ok u, w') → w' = set_files (delete p) w.
Proof.
  unfold unlinkSync. destruct (files w !! p); [|case_bool_decide];
    intros Hrun; by inversion Hrun.
Qed.

Tactic Notation "bind_inv" hyp(H) "as" ident(a) ident(w1) ident(Hm) :=
  apply bind_Some in H as [(a & w1 & Hm & H) | (? & ? & ?)]; [|discriminate].

(** What a successful combined step returns and leaves on disk. *)
Lemma downloadAndCompressImage_Ok (E : Env) (fuel : nat) (url filename : string)
    (compressionQuality : Z) (w : World) (r : Download) (w' : World) :
  downloadAndCompressImage E fuel url filename compressionQuality w = Some (Ok r, w') →
  path r = path_join (OUTPUT_DIR E) filename
  ∧ (∃ data, files w' !! path r = Some data
             ∧ compressedSize (sizes r) = N.of_nat (length data))
  ∧ savedPercent (sizes r)
    = savedPercentOf (compressedSize (sizes r)) (originalSize (sizes r)).
Proof.
  destruct fuel as [|fuel]; [discriminate|]. intros H.
  rewrite downloadAndCompressImage_unfold in H. cbv zeta in H.
  bind_inv H as u0 w1 Hget.
  bind_inv H as o w2 Hstat. pose proof (statSync_size_Some _ _ _ _ _ Hstat) as ->.
  bind_inv H as u1 w3 Hsharp. apply sharp_run_Ok in Hsharp as (Hne & data & _ & ->).
  bind_inv H as u2 w4 Hunlink. apply unlinkSync_Ok in Hunlink as ->.
  bind_inv H as c w5 Hstat'. pose proof (statSync_size_Some _ _ _ _ _ Hstat') as ->.
  rewrite (statSync_size_file E _ _ data) in Hstat'
    by (simpl; rewrite lookup_delete_ne by done; apply lookup_insert_eq).
  inversion Hstat'; subst; clear Hstat'.
  inversion H; subst; clear H. simpl.
  split; [reflexivity|]. split; [|reflexivity].
  exists data. split; [|reflexivity].
  rewrite lookup_delete_ne by done. apply lookup_insert_eq.
Qed.

(** [Math.round] gives the integer nearest to its argument, a half
    upwards. *)
Lemma nearest_spec (q : Q) :
  (inject_Z (Number.nearest q) - (1 # 2) <= q)%Q
  ∧ (q < inject_Z (Number.nearest q) + (1 # 2))%Q.
Proof.
  destruct q as [n d]. unfold Number.nearest. cbn [Qnum Qden].
  pose proof (Z.mul_div_le (2 * n + Z.pos d) (2 * Z.pos d) ltac:(lia)) as Hle.
  pose proof (Z.mul_succ_div_gt (2 * n + Z.pos d) (2 * Z.pos d) ltac:(lia)) as Hgt.
  generalize dependent ((2 * n + Z.pos d) / (2 * Z.pos d)). intros z Hle Hgt.
  unfold Qle, Qlt, Qminus, Qplus, Qopp, inject_Z. cbn [Qnum Qden].
  rewrite ?Pos2Z.inj_mul. split; lia.
Qed.

Lemma round_nearest (s : bool) (m : positive) (e : Z) :
  ∃ z, integerOf (Number.round (S754_finite s m e)) = Some z
       ∧ (inject_Z z - (1 # 2) <= Number.value s m e)%Q
       ∧ (Number.value s m e < inject_Z z + (1 # 2))%Q.
Proof.
  exists (Number.nearest (Number.value s m e)).
  split; [|apply nearest_spec]. cbn [Number.round].
  destruct (Number.nearest (Number.value s m e) =? 0)%Z eqn:Hz; [|reflexivity].
  apply Z.eqb_eq in Hz. rewrite Hz. by destruct s.
Qed.

(** For sizes up to 64 and 128 bytes, checked one by one: the reported
    percentage is the one the exact formula gives, except that where the
    exact percentage lies on a half it can be the integer below. *)
Lemma saved_percent_small_sizes (compressedSize originalSize : N) :
  (0 < originalSize ≤ 64)%N → (compressedSize ≤ 128)%N →
  agreesWithStated compressedSize originalSize = true.
Proof.
  intros Ho Hc.
  assert (Hall : forallb (λ o, forallb (λ c, agreesWithStated (N.of_nat c) (N.of_nat o))
                                (seq 0 129)) (seq 1 64) = true)
    by (vm_compute; reflexivity).
  rewrite forallb_forall in Hall.
  specialize (Hall (N.to_nat originalSize)). rewrite forallb_forall in Hall.
  rewrite <- (N2Nat.id compressedSize), <- (N2Nat.id originalSize).
  apply Hall; apply in_seq; lia.
Qed.

(** C8: whenever a compression returns, the compressed size
    it reports is the byte length of the file now at the output path,
    the original size is what [statSync] gave for the input, and the
    saved percentage is [Math.round] of the binary64 value of
    [(1 - compressedSize / originalSize) * 100] on those two numbers, in
    both [compressImage] and [downloadAndCompressImage].  Where that
    value is finite the report is the integer nearest to it, a half
    upwards.  Nothing clamps it: it is below zero exactly when the
    binary64 percentage is below -1/2, as for an output of 150 bytes
    from an input of 100, which reports -50. *)
Theorem saved_percent_formula (E : Env) :
  (∀ inputPath outputPath quality maxWidth maxHeight w r w',
      compressImage E inputPath outputPath quality maxWidth maxHeight w
      = Some (Ok r, w') →
      statSync_size E (path_resolve E inputPath) w = Some (Ok (originalSize r), w)
      ∧ (∃ data, files w' !! path_resolve E outputPath = Some data
                 ∧ compressedSize r = N.of_nat (length data))
      ∧ savedPercent r
        = Number.round (percentage (compressedSize r) (originalSize r)))
  ∧ (∀ fuel url filename compressionQuality w r w',
      downloadAndCompressImage E fuel url filename compressionQuality w
      = Some (Ok r, w') →
      (∃ data, files w' !! path r = Some data
               ∧ compressedSize (sizes r) = N.of_nat (length data))
      ∧ savedPercent (sizes r)
        = Number.round (percentage (compressedSize (sizes r)) (originalSize (sizes r))))
  ∧ (∀ compressedSize originalSize s m e,
      percentage compressedSize originalSize = S754_finite s m e →
      ∃ z, integerOf (savedPercentOf compressedSize originalSize) = Some z
           ∧ (inject_Z z - (1 # 2) <= Number.value s m e)%Q
           ∧ (Number.value s m e < inject_Z z + (1 # 2))%Q)
  ∧ (∀ compressedSize originalSize,
      Number.negative (savedPercentOf compressedSize originalSize)
      ↔ Number.belowMinusHalf (percentage compressedSize originalSize))
  ∧ savedPercentOf 150 100 = Number.IntegerValue (-50).
Proof.
  split; [|split; [|split; [|split]]].
  - intros inputPath outputPath quality maxWidth maxHeight w r w' H.
    unfold compressImage in H.
    bind_inv H as found w1 Hfound. destruct found; simpl in H; [|discriminate].
    unfold existsSync in Hfound. inversion Hfound; subst w1; clear Hfound.
    bind_inv H as o w1 Hstat. pose proof (statSync_size_Some _ _ _ _ _ Hstat) as ->.
    bind_inv H as u w2 Hsharp. apply sharp_run_Ok in Hsharp as (Hne & data & _ & ->).
    bind_inv H as c w3 Hstat'. pose proof (statSync_size_Some _ _ _ _ _ Hstat') as ->.
    rewrite (statSync_size_file E _ _ data) in Hstat' by apply lookup_insert_eq.
    inversion Hstat'; subst; clear Hstat'.
    inversion H; subst; clear H. simpl.
    split; [exact Hstat|]. split; [|reflexivity].
    exists data. split; [apply lookup_insert_eq|reflexivity].
  - intros fuel url filename compressionQuality w r w' H.
    by apply downloadAndCompressImage_Ok in H as (_ & Hdata & Hsaved).
  - intros c o s m e Hfinite. unfold savedPercentOf. rewrite Hfinite.
    apply round_nearest.
  - intros c o. apply round_negative.
  - vm_compute. reflexivity.
Qed.

Lemma saved_percent_formula_witness :
  ∃ r w',
    compressImage notFoundEnv "/out/in.png" "/out/out.jpg" None None None imageWorld
    = Some (Ok r, w')
    ∧ (∃ data, files w' !! "/out/out.jpg" = Some data
               ∧ compressedSize r = N.of_nat (length data))
    ∧ savedPercent r = Number.round (percentage (compressedSize r) (originalSize r)).
Proof.
  eexists. eexists. split; [vm_compute; reflexivity|].
  eapply proj2.
  eapply (proj1 (saved_percent_formula notFoundEnv)
            "/out/in.png" "/out/out.jpg" None None None imageWorld).
  vm_compute. reflexivity.
Defined.

(** C8 in exact arithmetic does not hold: a compression of 1000 bytes
    into 935 reports 6, where [(1 - 935 / 1000) * 100] is 6.5 and its
    rounding 7. *)
Lemma saved_percent_not_exact :
  fst <$> compressImage sizesEnv "/out/in.png" "/out/out.jpg" None None None sizesWorld
  = Some (Ok {| originalSize := 1000; compressedSize := 935;
                savedPercent := Number.IntegerValue 6 |})
  ∧ (statedPercentage 935 1000 == 65 # 10)%Q
  ∧ statedSavedPercent 935 1000 = 7
  ∧ Number.IntegerValue 6 ≠ Number.IntegerValue (statedSavedPercent 935 1000).
Proof.
  split; [vm_compute; reflexivity|]. split; [reflexivity|].
  split; [reflexivity|]. vm_compute. discriminate.
Qed.

Example savedPercent_second_half :
  savedPercentOf 356 800 = Number.IntegerValue 55 ∧ statedSavedPercent 356 800 = 56.
Proof. split; vm_compute; reflexivity. Qed.

(** ** Files that a computation leaves alone *)

Section Preserves.
Context (E : Env) (P : string → Prop).

Lemma preserves_pure {A : Type} (r : Result A) : preserves P (λ w, Some (r, w)).
Proof. intros w r' w' H p _. by inversion H. Qed.

Lemma preserves_pending {A : Type} : preserves P (@pending A).
Proof. intros w r w' H. discriminate. Qed.

Lemma preserves_bind {A B : Type} (m : M A) (k : A → M B) :
  preserves P m → (∀ a, preserves P (k a)) → preserves P (bind m k).
Proof.
  intros Hm Hk w r w' H p Hp.
  apply bind_Some in H as [(a & w1 & H1 & H2) | (message & H1 & _)].
  - rewrite (Hk a _ _ _ H2 p Hp). exact (Hm _ _ _ H1 p Hp).
  - exact (Hm _ _ _ H1 p Hp).
Qed.

Lemma preserves_statSync_size (p : string) : preserves P (statSync_size E p).
Proof.
  intros w r w' H q _. by rewrite (statSync_size_Some _ _ _ _ _ H).
Qed.

Lemma preserves_writeFile (p : string) (data : bytes) :
  ¬ P p → preserves P (writeFile p data).
Proof.
  intros Hp w r w' H q Hq. inversion H; subst. simpl.
  apply lookup_insert_ne. by intros ->.
Qed.

Lemma preserves_unlink_ignoring (p : string) :
  ¬ P p → preserves P (unlink_ignoring p).
Proof.
  intros Hp w r w' H q Hq. inversion H; subst. simpl.
  apply lookup_delete_ne. by intros ->.
Qed.

Lemma preserves_unlinkSync (p : string) : ¬ P p → preserves P (unlinkSync p).
Proof.
  intros Hp w r w' H q Hq. unfold unlinkSync in H.
  destruct (files w !! p); [|case_bool_decide]; inversion H; subst; [|done..].
  simpl. apply lookup_delete_ne. by intros ->.
Qed.

Lemma preserves_sharp_run (job : SharpJob) (input output : string) :
  ¬ P output → preserves P (sharp_run E job input output).
Proof.
  intros Hp w r w' H q Hq. unfold sharp_run in H.
  case_decide; [by inversion H|].
  destruct (sharp_toFile E job (files w !! input)) as [data|message [data|]];
    inversion H; subst; [| |done];
    simpl; apply lookup_insert_ne; by intros ->.
Qed.

Lemma preserves_pipeToFile (p : string) (transfer : Transfer) :
  ¬ P p → preserves P (pipeToFile p transfer).
Proof.
  intros Hp. destruct transfer; simpl.
  - by apply preserves_writeFile.
  - apply preserves_bind; [by apply preserves_unlink_ignoring|].
    intros _. apply preserves_pure.
  - apply preserves_bind; [by apply preserves_writeFile|].
    intros _. apply preserves_pure.
  - apply preserves_bind; [by apply preserves_writeFile|].
    intros _. apply preserves_pending.
Qed.

End Preserves.

(** The combined step touches only its final path and temporary paths. *)
Lemma downloadAndCompressImage_frame (E : Env) (fuel : nat) (url filename : string)
    (compressionQuality : Z) :
  preserves (λ p, p ≠ path_join (OUTPUT_DIR E) filename ∧ ∀ w, p ≠ tempPathAt E w)
    (downloadAndCompressImage E fuel url filename compressionQuality).
Proof.
  revert url. induction fuel as [|fuel IH]; intros url.
  - apply preserves_pending.
  - intros w r w' H p Hp. rewrite downloadAndCompressImage_unfold in H.
    cbv zeta in H. change (files w) with (files (afterDraw w)).
    revert H. generalize (afterDraw w). intros w0 H.
    assert (Htemp : ¬ (tempPathAt E w ≠ path_join (OUTPUT_DIR E) filename
                       ∧ ∀ w1, tempPathAt E w ≠ tempPathAt E w1)).
    { intros [_ Hall]. by apply (Hall w). }
    assert (Hfinal : ¬ (path_join (OUTPUT_DIR E) filename
                          ≠ path_join (OUTPUT_DIR E) filename
                        ∧ ∀ w1, path_join (OUTPUT_DIR E) filename ≠ tempPathAt E w1)).
    { intros [Hne _]. by apply Hne. }
    revert w0 r w' H p Hp.
    apply preserves_bind.
    + destruct (http_get E (protocolOf url) url) as [message| |statusCode location transfer];
        [apply preserves_pure..|].
      destruct (redirectTarget statusCode location) as [redirectUrl|].
      * apply preserves_bind; [apply IH|]. intros _. apply preserves_pure.
      * destruct (negb (statusCode =? 200)%N); [apply preserves_pure|].
        by apply preserves_pipeToFile.
    + intros _. apply preserves_bind; [apply preserves_statSync_size|].
      intros originalSize. apply preserves_bind; [by apply preserves_sharp_run|].
      intros _. apply preserves_bind; [by apply preserves_unlinkSync|].
      intros _. apply preserves_bind; [apply preserves_statSync_size|].
      intros compressedSize. apply preserves_pure.
Qed.

(** ** Names that cannot collide *)

Lemma digit36_not_dot (d : N) : digit36 d ≠ "."%char.
Proof.
  unfold digit36. assert (d `mod` 36 < 36)%N by (apply N.mod_upper_bound; lia).
  generalize dependent (d `mod` 36)%N. intros x Hx.
  destruct (x <? 10)%N; intros Heq;
    apply (f_equal N_of_ascii) in Heq;
    rewrite N_ascii_embedding in Heq by lia;
    change (N_of_ascii ".") with 46%N in Heq; lia.
Qed.

Lemma chars_dot_free (l : list ascii) :
  Forall (λ c, c ≠ "."%char) l → contains_char "." (string_of_list_ascii l) = false.
Proof.
  induction 1 as [|c l Hc _ IH]; [reflexivity|].
  simpl. rewrite IH, orb_false_r. by apply bool_decide_eq_false.
Qed.

Lemma random_suffix_dot_free (digits : list N) :
  contains_char "." (string_of_list_ascii (digit36 <$> digits)) = false.
Proof.
  apply chars_dot_free, Forall_fmap, Forall_true. intros d. apply digit36_not_dot.
Qed.

Lemma path_join_inj (dir a b : string) : path_join dir a = path_join dir b → a = b.
Proof.
  unfold path_join. intros H.
  apply (inj (String.append dir)) in H. by apply (inj (String.append "/")) in H.
Qed.

(** A temporary name has no dot, a final name ends in [.jpg]. *)
Lemma final_path_not_temporary (E : Env) (base : string) (w : World) :
  path_join (OUTPUT_DIR E) (base +:+ ".jpg") ≠ tempPathAt E w.
Proof.
  intros H. apply path_join_inj in H.
  apply (f_equal (contains_char ".")) in H.
  rewrite !contains_char_append in H.
  rewrite show_digits, random_suffix_dot_free in H by reflexivity.
  simpl in H. rewrite orb_true_r in H. discriminate.
Qed.

(** ** The loop over the addresses *)

Section Loop.
Context (E : Env) (fuel : nat) (prompt : option string) (quality : Z).

Lemma downloadOne_Ok (url : string) (i : N) (w : World) (entry : ImageEntry) (w' : World) :
  downloadOne E fuel prompt quality url i w = Some (Ok entry, w') →
  ∃ p data, prompt = Some p
            ∧ entry_path entry = finalPathAt E p i w
            ∧ files w' !! entry_path entry = Some data.
Proof.
  unfold downloadOne. intros H. destruct prompt as [p|]; [|discriminate].
  bind_inv H as base w1 Hname. inversion Hname; subst; clear Hname.
  bind_inv H as r w2 Hrun. inversion H; subst; clear H.
  apply downloadAndCompressImage_Ok in Hrun as (Hpath & (data & Hdata & _) & _).
  exists p, data. simpl. rewrite Hpath in *. done.
Qed.

(** An iteration, however it ends, leaves the final file of every other
    index of the same prompt as it was. *)
Lemma downloadOne_frame (url : string) (i : N) (w : World)
    (r : Result ImageEntry) (w' : World) (p : string) (k : N) (w0 : World) :
  downloadOne E fuel prompt quality url i w = Some (r, w') →
  prompt = Some p → k ≠ i →
  files w' !! finalPathAt E p k w0 = files w !! finalPathAt E p k w0.
Proof.
  unfold downloadOne. intros H -> Hk.
  apply bind_Some in H as [(base & w1 & Hname & H) | (message & Hname & _)];
    [|by inversion Hname].
  inversion Hname; subst; clear Hname.
  change (files w) with
    (files {| files := files w; dirs := dirs w;
              clockReads := S (clockReads w); randomDraws := randomDraws w |}).
  revert H. generalize ({| files := files w; dirs := dirs w;
              clockReads := S (clockReads w); randomDraws := randomDraws w |}).
  intros w1 H.
  assert (Hframe : files w' !! finalPathAt E p k w0 = files w1 !! finalPathAt E p k w0);
    [|exact Hframe].
  apply bind_Some in H as [(r' & w2 & Hrun & H) | (message & Hrun & _)].
  - inversion H; subst; clear H.
    eapply downloadAndCompressImage_frame; [exact Hrun|]. split.
    + intros Heq. apply path_join_inj in Heq.
      by apply (request_filenames_distinct p
                  (λ j, if decide (j = k) then Date_now E (clockReads w0)
                        else Date_now E (clockReads w)) k i Hk);
        rewrite decide_True, decide_False by done.
    + intros w3. apply final_path_not_temporary.
  - eapply downloadAndCompressImage_frame; [exact Hrun|]. split.
    + intros Heq. apply path_join_inj in Heq.
      by apply (request_filenames_distinct p
                  (λ j, if decide (j = k) then Date_now E (clockReads w0)
                        else Date_now E (clockReads w)) k i Hk);
        rewrite decide_True, decide_False by done.
    + intros w3. apply final_path_not_temporary.
Qed.

Lemma downloadAll_frame (urls : list string) (i : N) (results : list ImageEntry)
    (w : World) (r : Result (list ImageEntry)) (w' : World)
    (p : string) (k : N) (w0 : World) :
  downloadAll E fuel prompt quality urls i results w = Some (r, w') →
  prompt = Some p → (k < i)%N →
  files w' !! finalPathAt E p k w0 = files w !! finalPathAt E p k w0.
Proof.
  revert i results w. induction urls as [|url urls IH]; intros i results w H Hp Hk.
  - by inversion H.
  - simpl in H.
    apply bind_Some in H as [(entry & w1 & Hone & H) | (message & Hone & _)].
    + rewrite (IH _ _ _ H Hp) by lia.
      eapply downloadOne_frame; [exact Hone|exact Hp|lia].
    + eapply downloadOne_frame; [exact Hone|exact Hp|lia].
Qed.

(** When the iterations for [urls] succeed and the one for the next
    address throws, the whole loop throws. *)
Lemma downloadAll_fails (urls : list string) (url : string) (rest : list string)
    (i : N) (results entries : list ImageEntry) (w w1 w2 : World) (message : string) :
  downloadAll E fuel prompt quality urls i results w = Some (Ok entries, w1) →
  downloadOne E fuel prompt quality url (i + N.of_nat (length urls)) w1
  = Some (Throw message, w2) →
  downloadAll E fuel prompt quality (urls ++ url :: rest) i results w
  = Some (Throw message, w2).
Proof.
  revert i results w. induction urls as [|u urls IH]; intros i results w Hall Hone.
  - inversion Hall; subst. simpl in *. rewrite N.add_0_r in Hone.
    by erewrite bind_Throw.
  - simpl in Hall. bind_inv Hall as entry w3 Hfirst.
    simpl. erewrite bind_Ok by exact Hfirst.
    apply (IH _ _ _ Hall). rewrite <- Hone. f_equal. simpl length. lia.
Qed.

(** What a successful run of the loop has done: one entry per address,
    each produced by its iteration and still on disk at the end. *)
Lemma downloadAll_Ok (urls : list string) (i : N) (results entries : list ImageEntry)
    (w w1 : World) :
  downloadAll E fuel prompt quality urls i results w = Some (Ok entries, w1) →
  ∃ new, entries = results ++ new
    ∧ length new = length urls
    ∧ ∀ k entry, new !! k = Some entry →
        ∃ u wk wk' data,
          urls !! k = Some u
          ∧ downloadAll E fuel prompt quality (take k urls) i results w
            = Some (Ok (results ++ take k new), wk)
          ∧ downloadOne E fuel prompt quality u (i + N.of_nat k) wk
            = Some (Ok entry, wk')
          ∧ files wk' !! entry_path entry = Some data
          ∧ files w1 !! entry_path entry = Some data.
Proof.
  revert i results w. induction urls as [|url urls IH]; intros i results w H.
  - inversion H; subst. exists []. rewrite app_nil_r. repeat split; try done.
  - simpl in H. bind_inv H as e w' Hone.
    destruct (IH _ _ _ H) as (new & -> & Hlen & Hnew).
    exists (e :: new). rewrite <- app_assoc. split; [done|].
    split; [simpl; by rewrite Hlen|].
    intros [|k] entry Hk.
    + injection Hk as <-.
      destruct (downloadOne_Ok _ _ _ _ _ Hone) as (p & data & Hp & Hpath & Hdata).
      exists url, w, w', data. rewrite N.add_0_r, app_nil_r.
      repeat split; try done.
      rewrite Hpath in *. rewrite (downloadAll_frame _ _ _ _ _ _ p i w H Hp) by lia.
      exact Hdata.
    + destruct (Hnew k entry Hk) as (u & wk & wk' & data & Hu & Hpre & Hrun & Hd & Hd1).
      exists u, wk, wk', data. repeat split; try done.
      * simpl. erewrite bind_Ok by exact Hone.
        rewrite Hpre. by rewrite <- app_assoc.
      * rewrite <- Hrun. f_equal. lia.
Qed.

End Loop.

(** ** Partial results *)

(** C3: the backend returned the addresses [earlier ++ url :: rest], the
    iterations for [earlier] succeeded and the one for [url] throws.
    Then the call returns the error envelope carrying the thrown
    message, and every final file produced by an earlier iteration is
    still on disk with the bytes that iteration left there: neither the
    later iterations nor the failing one change it, and nothing removes
    it on the way out. *)
Theorem partial_results_remain (E : Env) (fuel : nat) (args : ToolArguments)
    (g : Generation) (w0 w : World) (earlier : list string) (url : string)
    (rest : list string) (entries : list ImageEntry) (w1 : World)
    (message : string) (w2 : World) :
  requestImages E args w0 = Some (Ok g, w) →
  gen_urls g = earlier ++ url :: rest →
  downloadAll E fuel (prompt args) (gen_compression_quality g) earlier 0 [] w
  = Some (Ok entries, w1) →
  downloadOne E fuel (prompt args) (gen_compression_quality g) url
    (N.of_nat (length earlier)) w1
  = Some (Throw message, w2) →
  handleToolCall E fuel "generate_image" (Some args) w0
  = Some ({| content := [ {| type := "text";
                             text := JObject [ ("success", JBool false);
                                               ("error", JString message) ] |} ];
             isError := Some true |}, w2)
  ∧ length entries = length earlier
  ∧ ∀ k entry, entries !! k = Some entry →
      ∃ u wk wk' data,
        earlier !! k = Some u
        ∧ downloadAll E fuel (prompt args) (gen_compression_quality g)
            (take k earlier) 0 [] w
          = Some (Ok (take k entries), wk)
        ∧ downloadOne E fuel (prompt args) (gen_compression_quality g) u
            (N.of_nat k) wk
          = Some (Ok entry, wk')
        ∧ files wk' !! entry_path entry = Some data
        ∧ files w2 !! entry_path entry = Some data.
Proof.
  intros Hrequest Hurls Hearlier Hfail.
  destruct (downloadAll_Ok _ _ _ _ _ _ _ _ _ _ Hearlier) as (new & Hnew & Hlen & Hall).
  simpl in Hnew. subst new.
  split; [|split; [exact Hlen|]].
  - unfold handleToolCall, dispatch. rewrite decide_True by reflexivity.
    unfold generate_image. erewrite bind_Ok by exact Hrequest.
    rewrite Hurls.
    erewrite bind_Throw; [reflexivity|].
    eapply downloadAll_fails; [exact Hearlier|exact Hfail].
  - intros k entry Hk.
    destruct (Hall k entry Hk) as (u & wk & wk' & data & Hu & Hpre & Hrun & Hd & Hd1).
    change (0 + N.of_nat k)%N with (N.of_nat k) in Hrun.
    exists u, wk, wk', data. repeat split; try done.
    destruct (downloadOne_Ok _ _ _ _ _ _ _ _ _ Hrun) as (p & data' & Hp & Hpath & _).
    rewrite Hpath in *.
    rewrite (downloadOne_frame _ _ _ _ _ _ _ _ _ p (N.of_nat k) wk Hfail Hp);
      [exact Hd1|].
    apply lookup_lt_Some in Hk. lia.
Qed.

Lemma partial_results_remain_witness :
  ∃ w2,
    handleToolCall secondFailsEnv 1 "generate_image" (Some (promptOnly "a red fox")) Demo.world
    = Some (errorResult "Failed to download image: HTTP 500", w2)
    ∧ files w2 !! "/out/red_fox_1700000000000.jpg" = Some (Demo.data "MAGE").
Proof.
  edestruct partial_results_remain
    with (E := secondFailsEnv) (fuel := 1%nat) (args := promptOnly "a red fox")
         (w0 := Demo.world) (earlier := ["https://cdn/1"])
         (url := "https://cdn/2") (rest := @nil string)
    as (Hcall & _ & Hfiles).
  - vm_compute. reflexivity.
  - reflexivity.
  - vm_compute. reflexivity.
  - vm_compute. reflexivity.
  - eexists. split; [exact Hcall|]. vm_compute. reflexivity.
Defined.

(** * Further properties of the code *)

(** ** Joining paths *)

Lemma append_assoc (a b c : string) : a +:+ b +:+ c = (a +:+ b) +:+ c.
Proof. induction a as [|x a IH]; [reflexivity|]. rewrite !append_cons. by f_equal. Qed.

Example normalize_examples :
  Path.normalize "/out/" = "/out/" ∧ Path.normalize "/a/b/../c" = "/a/c"
  ∧ Path.normalize "../x" = "../x" ∧ Path.normalize "a/../.." = ".."
  ∧ Path.normalize "/.." = "/" ∧ Path.normalize "./x//y/." = "x/y"
  ∧ Path.normalize "" = "." ∧ Path.normalize "./" = "./".
Proof. repeat split; vm_compute; reflexivity. Qed.

Example join_examples :
  Path.join "/out/" "cat.jpg" = "/out/cat.jpg"
  ∧ Path.join "/out" "a/../b.jpg" = "/out/b.jpg"
  ∧ Path.join "./x" "cat.jpg" = "x/cat.jpg"
  ∧ Path.join "/out" "cat.jpg" = "/out/cat.jpg"
  ∧ Path.join "/" "cat.jpg" = "/cat.jpg"
  ∧ Path.join "/out" ".." = "/".
Proof. repeat split; vm_compute; reflexivity. Qed.

Example ancestors_examples :
  Path.ancestors "/a/b/c" = ["/a"; "/a/b"] ∧ Path.ancestors "/out" = []
  ∧ Path.ancestors "x/y" = ["x"].
Proof. repeat split; vm_compute; reflexivity. Qed.

Lemma split_go_plain (n piece : string) :
  contains_char "/" n = false → Path.split_go n piece = [piece +:+ n].
Proof.
  revert piece. induction n as [|c n IH]; intros piece Hn; simpl.
  - by rewrite append_empty_r.
  - simpl in Hn. apply orb_false_iff in Hn as [Hc Hn].
    apply bool_decide_eq_false in Hc. rewrite decide_False by done.
    rewrite IH by done. by rewrite <- append_assoc.
Qed.

Lemma split_go_snoc (d n piece : string) :
  contains_char "/" n = false →
  Path.split_go (d +:+ "/" +:+ n) piece = Path.split_go d piece ++ [n].
Proof.
  intros Hn. revert piece. induction d as [|c d IH]; intros piece.
  - rewrite append_nil. rewrite append_cons. simpl.
    rewrite append_nil, (split_go_plain n "" Hn). by rewrite append_nil.
  - rewrite append_cons. simpl. case_decide; by rewrite IH.
Qed.

Lemma step_plain (allowAboveRoot : bool) (kept : list string) (n : string) :
  n ≠ "" → n ≠ "." → n ≠ ".." → Path.step allowAboveRoot kept n = n :: kept.
Proof.
  intros H0 H1 H2. unfold Path.step.
  rewrite decide_False by (by intros [?|?]). by rewrite decide_False.
Qed.

Lemma join_snoc (sep : string) (l : list string) (x : string) :
  l ≠ [] → Js.join sep (l ++ [x]) = Js.join sep l +:+ sep +:+ x.
Proof.
  induction l as [|a l IH]; [done|]. intros _. destruct l as [|b l].
  - reflexivity.
  - change (Js.join sep ((a :: b :: l) ++ [x]))
      with (a +:+ sep +:+ Js.join sep ((b :: l) ++ [x])).
    rewrite IH by done.
    change (Js.join sep (a :: b :: l)) with (a +:+ sep +:+ Js.join sep (b :: l)).
    by rewrite <- !append_assoc.
Qed.

Lemma trailingSeparator_append (a n : string) :
  n ≠ "" → Path.trailingSeparator (a +:+ n) = Path.trailingSeparator n.
Proof.
  intros Hn. induction a as [|c a IH]; [reflexivity|].
  rewrite append_cons. simpl. rewrite IH.
  destruct (a +:+ n) eqn:Heq; [|reflexivity].
  destruct a; [by rewrite append_nil in Heq|by rewrite append_cons in Heq].
Qed.

Lemma trailingSeparator_plain (n : string) :
  contains_char "/" n = false → Path.trailingSeparator n = false.
Proof.
  induction n as [|c n IH]; [reflexivity|]. simpl.
  intros [Hc Hn]%orb_false_iff. destruct n; [exact Hc|by apply IH].
Qed.

(** On a canonical directory and a plain name [path.join] only
    concatenates. *)
Lemma join_canonical (d n : string) :
  canonicalDirectory d → plainName n → Path.join d n = path_join d n.
Proof.
  intros (Habs & Htrail & Hnorm) (Hn & Hdot & Hdots & Hslash).
  assert (Hd : d ≠ "") by (by intros ->).
  unfold Path.join. rewrite !decide_False by done. unfold path_join.
  unfold Path.normalize in Hnorm. rewrite decide_False in Hnorm by done.
  rewrite Habs, Htrail in Hnorm. cbn [negb] in Hnorm.
  unfold Path.normalize.
  assert (Hne : d +:+ "/" +:+ n ≠ "").
  { destruct d; [done|]. by rewrite append_cons. }
  rewrite decide_False by done.
  assert (Habs' : Path.isAbsolute (d +:+ "/" +:+ n) = true).
  { destruct d; [done|]. by rewrite append_cons. }
  assert (Htrail' : Path.trailingSeparator (d +:+ "/" +:+ n) = false).
  { rewrite append_assoc, trailingSeparator_append by done.
    by apply trailingSeparator_plain. }
  rewrite Habs', Htrail'. cbn [negb].
  unfold Path.normalizeString in *. unfold Path.segments in *.
  rewrite split_go_snoc by done. rewrite foldl_app. cbn [foldl].
  rewrite step_plain by done. cbn [rev].
  remember (rev (foldl (Path.step false) [] (Path.split_go d ""))) as kept eqn:Hkept.
  clear Hkept. destruct (decide (Js.join "/" kept = "")) as [Hbody|Hbody].
  { subst d. discriminate. }
  assert (Hkept : kept ≠ []) by (by intros ->).
  rewrite join_snoc by done.
  rewrite append_empty_r in Hnorm. rewrite append_empty_r.
  rewrite decide_False.
  - rewrite <- Hnorm. apply append_assoc.
  - destruct (Js.join "/" kept); [done|]. by rewrite append_cons.
Qed.

(** ** The characters of a derived file name *)

Lemma contains_char_singleton (c d : ascii) :
  contains_char c (String d EmptyString) = true → d = c.
Proof. simpl. rewrite orb_false_r. apply bool_decide_eq_true. Qed.

Lemma replace_class_chars (cls : ascii → bool) (c : ascii) (s : string) :
  contains_char c (Js.replace_class cls s) = true → c = " "%char ∨ cls c = false.
Proof.
  induction s as [|d s IH]; simpl; [discriminate|].
  intros [Hd|Hs]%orb_true_iff; [|by apply IH].
  apply bool_decide_eq_true in Hd. destruct (cls d) eqn:Hcls; [by left|].
  right. by rewrite <- Hd.
Qed.

Lemma split_go_chars (c : ascii) (s acc tok : string) (inrun : bool) :
  tok ∈ Js.split_go s acc inrun → contains_char c tok = true →
  contains_char c acc = true
  ∨ (contains_char c s = true ∧ Js.is_space c = false).
Proof.
  revert acc inrun. induction s as [|d s IH]; intros acc inrun Htok Hc; simpl in Htok.
  - apply list_elem_of_singleton in Htok as ->. by left.
  - destruct (Js.is_space d) eqn:Hd.
    + assert (Hrest : tok = acc ∨ ∃ acc' inrun', (acc' = acc ∨ acc' = EmptyString)
                                  ∧ tok ∈ Js.split_go s acc' inrun').
      { destruct inrun.
        - right. exists acc, true. by split; [left|].
        - apply elem_of_cons in Htok as [->|Htok]; [by left|].
          right. exists EmptyString, true. by split; [right|]. }
      destruct Hrest as [->|(acc' & inrun' & Hacc & Htok')]; [by left|].
      destruct (IH _ _ Htok' Hc) as [Hacc'|[Hs Hsp]].
      * destruct Hacc as [->| ->]; [by left|discriminate].
      * right. split; [|exact Hsp]. simpl. rewrite Hs. apply orb_true_r.
    + destruct (IH _ _ Htok Hc) as [Hacc|[Hs Hsp]].
      * rewrite contains_char_append in Hacc.
        apply orb_true_iff in Hacc as [Hacc|Hd']; [by left|].
        apply contains_char_singleton in Hd' as ->.
        right. split; [|exact Hd]. simpl. by rewrite bool_decide_eq_true_2.
      * right. split; [|exact Hsp]. simpl. rewrite Hs. apply orb_true_r.
Qed.

Lemma promptTokens_chars (c : ascii) (prompt tok : string) :
  tok ∈ promptTokens prompt → contains_char c tok = true → filenameChar c = true.
Proof.
  unfold promptTokens, Js.split_ws. intros Htok Hc.
  destruct (split_go_chars c _ _ _ _ Htok Hc) as [Hempty|[Hs Hsp]]; [discriminate|].
  apply replace_class_chars in Hs as [->|Hsafe]; [discriminate|].
  unfold unsafe_class in Hsafe. apply negb_false_iff in Hsafe.
  rewrite Hsp, orb_false_r in Hsafe. unfold filenameChar.
  apply orb_true_iff in Hsafe as [Hsafe| ->]; [|by rewrite orb_true_r].
  by rewrite Hsafe.
Qed.

Lemma join_chars (c : ascii) (sep : string) (l : list string) :
  contains_char c (Js.join sep l) = true →
  contains_char c sep = true ∨ ∃ x, x ∈ l ∧ contains_char c x = true.
Proof.
  induction l as [|x l IH]; [discriminate|].
  destruct l as [|y l].
  - intros Hx. right. exists x. split; [apply list_elem_of_here|exact Hx].
  - change (Js.join sep (x :: y :: l)) with (x +:+ sep +:+ Js.join sep (y :: l)).
    rewrite !contains_char_append.
    intros [Hx|[Hsep|Hrest]%orb_true_iff]%orb_true_iff.
    + right. exists x. split; [apply list_elem_of_here|exact Hx].
    + by left.
    + destruct (IH Hrest) as [Hsep|(z & Hz & Hcz)]; [by left|].
      right. exists z. split; [by apply list_elem_of_further|exact Hcz].
Qed.

Lemma show_chars (c : ascii) (n : N) :
  contains_char c (Js.show n) = true → filenameChar c = true.
Proof.
  intros Hc. destruct (Js.between 48 57 c) eqn:Hdigit.
  - unfold filenameChar. rewrite Hdigit. by rewrite orb_true_r.
  - by rewrite show_digits in Hc.
Qed.

Lemma filenameAt_chars (timestamp : N) (prompt : string) (index : N) (c : ascii) :
  contains_char c (filenameAt timestamp prompt index) = true → filenameChar c = true.
Proof.
  unfold filenameAt. rewrite !contains_char_append.
  intros [Hslug|[Hsep|[Htime|Hindex]%orb_true_iff]%orb_true_iff]%orb_true_iff.
  - apply join_chars in Hslug as [Hsep|(x & Hx & Hcx)].
    + by apply contains_char_singleton in Hsep as <-.
    + case_decide.
      * apply elem_of_app in Hx as [Hx|Hx].
        -- unfold promptWords in Hx. apply elem_of_take in Hx as (i & Hx & _).
           apply list_elem_of_lookup_2, list_elem_of_filter in Hx as [_ Hx].
           by eapply promptTokens_chars.
        -- apply list_elem_of_singleton in Hx as ->.
           simpl in Hcx. repeat (apply orb_true_iff in Hcx as [Hcx|Hcx];
             [by apply bool_decide_eq_true in Hcx as <-|]). discriminate.
      * unfold promptWords in Hx. apply elem_of_take in Hx as (i & Hx & _).
        apply list_elem_of_lookup_2, list_elem_of_filter in Hx as [_ Hx].
        by eapply promptTokens_chars.
  - by apply contains_char_singleton in Hsep as <-.
  - by eapply show_chars.
  - destruct (0 <? index)%N; [|discriminate].
    rewrite contains_char_append in Hindex.
    apply orb_true_iff in Hindex as [Hsep|Hshow]; [|by eapply show_chars].
    by apply contains_char_singleton in Hsep as <-.
Qed.

(** ** Plain names *)

Lemma digit36_not_slash (d : N) : digit36 d ≠ "/"%char.
Proof.
  unfold digit36. assert (d `mod` 36 < 36)%N by (apply N.mod_upper_bound; lia).
  generalize dependent (d `mod` 36)%N. intros x Hx.
  destruct (x <? 10)%N; intros Heq;
    apply (f_equal N_of_ascii) in Heq;
    rewrite N_ascii_embedding in Heq by lia;
    change (N_of_ascii "/") with 47%N in Heq; lia.
Qed.

Lemma temporary_name_slash_free (timestamp : N) (digits : list N) :
  contains_char "/" ("temp_" +:+ Js.show timestamp +:+ "_"
                     +:+ string_of_list_ascii (digit36 <$> digits)) = false.
Proof.
  rewrite !contains_char_append, show_digits by reflexivity.
  assert (Hsuffix : contains_char "/" (string_of_list_ascii (digit36 <$> digits)) = false).
  { induction digits as [|d digits IH]; [reflexivity|].
    rewrite fmap_cons. simpl. rewrite IH, orb_false_r.
    apply bool_decide_eq_false, digit36_not_slash. }
  rewrite Hsuffix. reflexivity.
Qed.

Lemma final_name_slash_free (timestamp : N) (prompt : string) (index : N) :
  contains_char "/" (filenameAt timestamp prompt index +:+ ".jpg") = false.
Proof.
  rewrite contains_char_append. apply orb_false_iff. split; [|reflexivity].
  apply not_true_is_false. intros Hc. by apply filenameAt_chars in Hc.
Qed.

Lemma temporary_name_plain (timestamp : N) (digits : list N) :
  plainName ("temp_" +:+ Js.show timestamp +:+ "_"
             +:+ string_of_list_ascii (digit36 <$> digits)).
Proof.
  repeat split; [| | |apply temporary_name_slash_free];
    intros H; rewrite append_cons in H; discriminate.
Qed.

Lemma final_name_plain (timestamp : N) (prompt : string) (index : N) :
  plainName (filenameAt timestamp prompt index +:+ ".jpg").
Proof.
  assert (Hj : contains_char "j" (filenameAt timestamp prompt index +:+ ".jpg") = true).
  { rewrite contains_char_append. simpl. apply orb_true_r. }
  repeat split; [| | |apply final_name_slash_free];
    intros H; rewrite H in Hj; discriminate.
Qed.

(** On a canonical output directory the temporary path is the joined
    temporary name. *)
Lemma tempPathAt_join (E : Env) (w : World) :
  canonicalDirectory (OUTPUT_DIR E) →
  Path.join (OUTPUT_DIR E) (tempNameAt E w) = tempPathAt E w.
Proof. intros Hdir. apply join_canonical; [exact Hdir|apply temporary_name_plain]. Qed.

(** The output directory of the scenarios is canonical. *)
Lemma out_canonical : canonicalDirectory "/out".
Proof. repeat split. Qed.

(** ** The downloaders *)

Lemma downloadImage_unfold (E : Env) (fuel : nat) (url filename : string) (w : World) :
  downloadImage E (S fuel) url filename w
  = match http_get E (protocolOf url) url with
    | RequestError message => throw message w
    | RequestTimeout => throw "Download timeout" w
    | Response statusCode location transfer =>
        match redirectTarget statusCode location with
        | Some redirectUrl => downloadImage E fuel redirectUrl filename w
        | None =>
            if negb (statusCode =? 200)%N then throw (httpFailure statusCode) w
            else (pipeToFile (path_join (OUTPUT_DIR E) filename) transfer ;;
                  ret (path_join (OUTPUT_DIR E) filename)) w
        end
    end.
Proof.
  simpl. destruct (http_get E (protocolOf url) url) as [| |s l t]; try reflexivity.
  destruct (redirectTarget s l); [reflexivity|]. by destruct (negb (s =? 200)%N).
Qed.

Lemma redirects_downloadImage (E : Env) (url final : string) (n : nat)
    (fuel : nat) (filename : string) (w : World) :
  redirects E url final n →
  downloadImage E (n + fuel) url filename w = downloadImage E fuel final filename w.
Proof.
  induction 1 as [url|url s l t next final n Hget Hred _ IH]; [reflexivity|].
  change (S n + fuel)%nat with (S (n + fuel)).
  rewrite downloadImage_unfold, Hget, Hred. exact IH.
Qed.

(** X1: with a canonical output directory and a plain file name,
    [downloadImage] follows any number of redirects; when the last
    address answers 200 and the body arrives, the call returns
    [path.join] of the output directory and the file name, that file
    holds exactly the body, and no other file is changed. *)
Theorem downloadImage_delivers (E : Env) (url final : string) (n fuel : nat)
    (filename : string) (w : World) (location : option string) (body : bytes) :
  canonicalDirectory (OUTPUT_DIR E) →
  plainName filename →
  redirects E url final n →
  http_get E (protocolOf final) final = Response 200 location (Finished body) →
  downloadImage E (n + S fuel) url filename w
  = Some (Ok (Path.join (OUTPUT_DIR E) filename),
          set_files <[Path.join (OUTPUT_DIR E) filename := body]> w).
Proof.
  intros Hdir Hname Hchain Hget. rewrite (join_canonical _ _ Hdir Hname).
  rewrite (redirects_downloadImage _ _ _ _ _ _ _ Hchain).
  rewrite downloadImage_unfold, Hget. reflexivity.
Qed.

Lemma downloadImage_delivers_witness :
  downloadImage twoHopsEnv 3 "http://a/cat" "cat.jpg" Demo.world
  = Some (Ok "/out/cat.jpg",
          set_files <["/out/cat.jpg" := Demo.data "IMAGEDATA"]> Demo.world).
Proof.
  apply (downloadImage_delivers twoHopsEnv "http://a/cat" "https://c/cat" 2 0
           "cat.jpg" Demo.world None (Demo.data "IMAGEDATA")).
  - by repeat split.
  - by repeat split.
  - eapply redirects_step; [reflexivity|reflexivity|].
    eapply redirects_step; [reflexivity|reflexivity|].
    apply redirects_none.
  - reflexivity.
Defined.



(** X3: when the exchange fails (request error, timeout before the
    response, a status other than 200 without a followed redirect, or an
    error of the file stream), both downloaders throw the corresponding
    message and leave no new or changed file behind: every file present
    afterwards was there before with the same content. *)
Theorem failed_download_leaves_no_file (E : Env) (fuel : nat) (url filename : string)
    (compressionQuality : Z) (w : World) (message : string) :
  downloadFailure (http_get E (protocolOf url) url) = Some message →
  (∃ w1, downloadImage E (S fuel) url filename w = Some (Throw message, w1)
         ∧ files w1 ⊆ files w)
  ∧ (∃ w2, downloadAndCompressImage E (S fuel) url filename compressionQuality w
           = Some (Throw message, w2)
           ∧ files w2 ⊆ files w).
Proof.
  intros Hfail. rewrite downloadImage_unfold, downloadAndCompressImage_unfold.
  cbv zeta. unfold downloadFailure in Hfail.
  destruct (http_get E (protocolOf url) url) as [m| |s l t].
  - injection Hfail as <-. split; eexists; (split; [reflexivity|done]).
  - injection Hfail as <-. split; eexists; (split; [reflexivity|done]).
  - destruct (redirectTarget s l); [discriminate|].
    destruct (negb (s =? 200)%N).
    + injection Hfail as <-. split; eexists; (split; [reflexivity|done]).
    + destruct t as [body|m|partial|partial]; try discriminate. injection Hfail as <-.
      split; eexists; (split; [reflexivity|]); simpl; apply delete_subseteq.
Qed.

Lemma failed_download_leaves_no_file_witness :
  (∃ w1, downloadImage brokenStreamEnv 1 "https://cdn/cat" "cat.jpg" imageWorld
         = Some (Throw "write ECONNRESET", w1)
         ∧ files w1 ⊆ files imageWorld)
  ∧ (∃ w2, downloadAndCompressImage brokenStreamEnv 1 "https://cdn/cat" "cat.jpg" 85
             imageWorld
           = Some (Throw "write ECONNRESET", w2)
           ∧ files w2 ⊆ files imageWorld).
Proof.
  apply (failed_download_leaves_no_file brokenStreamEnv 0 "https://cdn/cat"
           "cat.jpg" 85 imageWorld "write ECONNRESET").
  reflexivity.
Defined.

(** ** Download and compress, when it works *)

(** X4: a 200 response whose body the encoder accepts, with a canonical
    output directory and a plain file name.  The call returns as final
    path [path.join] of the output directory and the file name, with
    the byte length of the body as original size, the byte length of
    the encoder's output as compressed size and the percentage computed
    from the two; afterwards the final path holds the encoder's output,
    the temporary file, joined to the output directory likewise, no
    longer exists, and every other file is as before. *)
Theorem downloadAndCompressImage_succeeds (E : Env) (fuel : nat)
    (url filename : string) (compressionQuality : Z) (w : World)
    (location : option string) (body output : bytes) :
  canonicalDirectory (OUTPUT_DIR E) →
  plainName filename →
  http_get E (protocolOf url) url = Response 200 location (Finished body) →
  sharp_toFile E {| resize := None; jpegQuality := compressionQuality |} (Some body)
  = Encoded output →
  filename ≠ tempNameAt E w →
  ∃ w',
    downloadAndCompressImage E (S fuel) url filename compressionQuality w
    = Some (Ok {| path := Path.join (OUTPUT_DIR E) filename;
                  sizes := {| originalSize := N.of_nat (length body);
                              compressedSize := N.of_nat (length output);
                              savedPercent :=
                                savedPercentOf (N.of_nat (length output))
                                               (N.of_nat (length body)) |} |}, w')
    ∧ files w'
      = <[Path.join (OUTPUT_DIR E) filename := output]>
          (delete (Path.join (OUTPUT_DIR E) (tempNameAt E w)) (files w))
    ∧ dirs w' = dirs w.
Proof.
  intros Hdir Hname Hget Hsharp Hfresh.
  rewrite (join_canonical _ _ Hdir Hname), (tempPathAt_join E w Hdir).
  assert (Hne : tempPathAt E w ≠ path_join (OUTPUT_DIR E) filename).
  { intros H. apply Hfresh. symmetry. exact (path_join_inj _ _ _ H). }
  rewrite downloadAndCompressImage_unfold.
  cbv zeta. rewrite Hget. simpl redirectTarget. cbv iota. simpl negb. cbv iota.
  unfold bind, pipeToFile, writeFile, statSync_size, sharp_run, unlinkSync. simpl.
  rewrite lookup_insert_eq. rewrite decide_False by done. simpl.
  rewrite lookup_insert_eq, Hsharp. simpl.
  rewrite lookup_insert_ne by done. rewrite lookup_insert_eq. simpl.
  rewrite lookup_delete_ne by done. rewrite lookup_insert_eq.
  eexists. split; [reflexivity|]. simpl. split; [|reflexivity].
  rewrite delete_insert_ne by done. by rewrite delete_insert_eq.
Qed.

Lemma downloadAndCompressImage_succeeds_witness :
  ∃ w',
    downloadAndCompressImage imageEnv 1 "https://cdn/cat" "cat.jpg" 85 Demo.world
    = Some (Ok {| path := "/out/cat.jpg";
                  sizes := {| originalSize := 9; compressedSize := 4;
                              savedPercent := Number.IntegerValue 56 |} |}, w')
    ∧ files w' = <["/out/cat.jpg" := Demo.data "MAGE"]>
                   (delete "/out/temp_1700000000000_07z" (files Demo.world))
    ∧ dirs w' = dirs Demo.world.
Proof.
  apply (downloadAndCompressImage_succeeds imageEnv 0 "https://cdn/cat" "cat.jpg" 85
           Demo.world None (Demo.data "IMAGEDATA") (Demo.data "MAGE")).
  - by repeat split.
  - by repeat split.
  - reflexivity.
  - reflexivity.
  - intros H. vm_compute in H. discriminate H.
Defined.

(** X5: with a canonical output directory and a plain file name, however
    the combined step ends, the only files it can have created, changed
    or removed are its final path and the paths of temporary files:
    [path.join] of the output directory and the file name, respectively
    a name made of [temp_], the decimal clock reading, an underscore and
    base-36 digits. *)
Theorem downloadAndCompressImage_touches_only (E : Env) (fuel : nat)
    (url filename : string) (compressionQuality : Z) (w : World)
    (r : Result Download) (w' : World) (p : string) :
  canonicalDirectory (OUTPUT_DIR E) →
  plainName filename →
  downloadAndCompressImage E fuel url filename compressionQuality w = Some (r, w') →
  p ≠ Path.join (OUTPUT_DIR E) filename →
  (∀ timestamp digits,
     p ≠ Path.join (OUTPUT_DIR E)
           ("temp_" +:+ Js.show timestamp +:+ "_"
            +:+ string_of_list_ascii (digit36 <$> digits))) →
  files w' !! p = files w !! p.
Proof.
  intros Hdir Hname Hrun Hfinal Htemp.
  rewrite (join_canonical _ _ Hdir Hname) in Hfinal.
  eapply downloadAndCompressImage_frame; [exact Hrun|].
  split; [exact Hfinal|]. intros w0. rewrite <- (tempPathAt_join E w0 Hdir).
  apply Htemp.
Qed.

Lemma downloadAndCompressImage_touches_only_witness :
  ∃ r w', downloadAndCompressImage notAnImageEnv 1 "https://cdn/cat" "cat.jpg" 85
            imageWorld = Some (r, w')
          ∧ files w' !! "/out/in.png" = files imageWorld !! "/out/in.png".
Proof.
  eexists. eexists. split; [vm_compute; reflexivity|].
  eapply (downloadAndCompressImage_touches_only notAnImageEnv 1 "https://cdn/cat"
            "cat.jpg" 85 imageWorld).
  - by repeat split.
  - by repeat split.
  - vm_compute. reflexivity.
  - discriminate.
  - intros timestamp digits Heq.
    rewrite (join_canonical (OUTPUT_DIR notAnImageEnv) _ out_canonical
               (temporary_name_plain timestamp digits)) in Heq.
    change "/out/in.png" with (path_join (OUTPUT_DIR notAnImageEnv) "in.png") in Heq.
    apply path_join_inj in Heq.
    apply (f_equal (contains_char ".")) in Heq.
    rewrite !contains_char_append in Heq.
    rewrite show_digits, random_suffix_dot_free in Heq by reflexivity.
    discriminate.
Defined.

(** ** The compressor *)

(** X6: compressing an existing file into a different path.  The
    encoder is given the file's bytes, the quality (85 when none is
    passed) and a resize request exactly when [maxWidth] or [maxHeight]
    is a non-zero number; when it accepts, the call returns the two
    byte lengths and the percentage, the output path holds the encoder's
    output, and every other file, the input included, is unchanged. *)
Theorem compressImage_succeeds (E : Env) (inputPath outputPath : string)
    (quality maxWidth maxHeight : option Z) (w : World) (data output : bytes) :
  files w !! path_resolve E inputPath = Some data →
  path_resolve E inputPath ≠ path_resolve E outputPath →
  sharp_toFile E
    {| resize := if truthyNumber maxWidth || truthyNumber maxHeight
                 then Some (maxWidth, maxHeight) else None;
       jpegQuality := match quality with Some q => q | None => 85 end |}
    (Some data)
  = Encoded output →
  compressImage E inputPath outputPath quality maxWidth maxHeight w
  = Some (Ok {| originalSize := N.of_nat (length data);
                compressedSize := N.of_nat (length output);
                savedPercent := savedPercentOf (N.of_nat (length output))
                                               (N.of_nat (length data)) |},
          set_files <[path_resolve E outputPath := output]> w).
Proof.
  intros Hin Hne Hsharp.
  unfold compressImage, bind, existsSync, statSync_size, sharp_run, ret.
  rewrite bool_decide_eq_true_2 by (left; eauto). simpl.
  rewrite Hin. rewrite decide_False by done. rewrite Hin.
  replace (default DEFAULT_COMPRESSION_QUALITY quality)
    with (match quality with Some q => q | None => 85 end) by by destruct quality.
  rewrite Hsharp. simpl. by rewrite lookup_insert_eq.
Qed.

Lemma compressImage_succeeds_witness :
  compressImage imageEnv "/out/in.png" "/out/small.jpg" None (Some 0) None imageWorld
  = Some (Ok {| originalSize := 9; compressedSize := 4;
                savedPercent := Number.IntegerValue 56 |},
          set_files <["/out/small.jpg" := Demo.data "MAGE"]> imageWorld).
Proof.
  apply (compressImage_succeeds imageEnv "/out/in.png" "/out/small.jpg"
           None (Some 0) None imageWorld (Demo.data "IMAGEDATA") (Demo.data "MAGE")).
  - vm_compute. reflexivity.
  - discriminate.
  - reflexivity.
Defined.

Lemma preserves_existsSync (P : string → Prop) (p : string) : preserves P (existsSync p).
Proof. intros w r w' H q _. unfold existsSync in H. by inversion H. Qed.

(** X7: however [compressImage] ends, it has changed no file other than
    the one at the resolved output path. *)
Theorem compressImage_touches_only (E : Env) (inputPath outputPath : string)
    (quality maxWidth maxHeight : option Z) (w : World)
    (r : Result Compression) (w' : World) (p : string) :
  compressImage E inputPath outputPath quality maxWidth maxHeight w = Some (r, w') →
  p ≠ path_resolve E outputPath →
  files w' !! p = files w !! p.
Proof.
  intros Hrun Hp. revert w r w' Hrun p Hp.
  change (preserves (λ p, p ≠ path_resolve E outputPath)
            (compressImage E inputPath outputPath quality maxWidth maxHeight)).
  unfold compressImage. apply preserves_bind; [apply preserves_existsSync|].
  intros found. destruct (negb found); [apply preserves_pure|].
  apply preserves_bind; [apply preserves_statSync_size|]. intros o.
  apply preserves_bind; [apply preserves_sharp_run; by intros H|]. intros _.
  apply preserves_bind; [apply preserves_statSync_size|]. intros c.
  apply preserves_pure.
Qed.

Lemma compressImage_touches_only_witness :
  ∃ r w', compressImage notFoundEnv "/out/q.png" "/out/q.jpg" None None None
            opaqueWorld = Some (r, w')
          ∧ files w' !! "/out/q.png" = files opaqueWorld !! "/out/q.png".
Proof.
  eexists. eexists. split; [vm_compute; reflexivity|].
  eapply (compressImage_touches_only notFoundEnv "/out/q.png" "/out/q.jpg"
            None None None opaqueWorld).
  - vm_compute. reflexivity.
  - discriminate.
Defined.

(** X8: asked about a path at which nothing exists, [get_image_info] and
    [compress_image] answer with the error envelope, naming the resolved
    path after [Image not found: ] and [Input image not found: ], and
    change nothing. *)
Theorem missing_file_is_reported (E : Env) (fuel : nat) (args : ToolArguments)
    (p : string) (w : World) :
  files w !! path_resolve E p = None →
  path_resolve E p ∉ dirs w →
  (image_path args = Some p →
   handleToolCall E fuel "get_image_info" (Some args) w
   = Some (errorResult ("Image not found: " +:+ path_resolve E p), w))
  ∧ (input_path args = Some p →
     handleToolCall E fuel "compress_image" (Some args) w
     = Some (errorResult ("Input image not found: " +:+ path_resolve E p), w)).
Proof.
  intros Hfile Hdir.
  assert (Hexists : existsSync (path_resolve E p) w = Some (Ok false, w)).
  { unfold existsSync. rewrite bool_decide_eq_false_2; [done|].
    intros [[x Hx]|Hd]; [congruence|done]. }
  split; intros Harg; unfold handleToolCall, dispatch.
  - rewrite decide_False by discriminate. rewrite decide_False by discriminate.
    rewrite decide_True by reflexivity.
    unfold get_image_info, getImageMetadata. rewrite Harg.
    erewrite bind_Throw; [reflexivity|]. by erewrite bind_Ok by exact Hexists.
  - rewrite decide_False by discriminate. rewrite decide_True by reflexivity.
    unfold compress_image, compressImage. rewrite Harg.
    destruct (truthyString (output_path args)).
    + erewrite bind_Ok by reflexivity.
      erewrite bind_Throw; [reflexivity|]. by erewrite bind_Ok by exact Hexists.
    + erewrite bind_Ok by reflexivity.
      erewrite bind_Throw; [reflexivity|]. by erewrite bind_Ok by exact Hexists.
Qed.

Lemma missing_file_is_reported_witness :
  handleToolCall notFoundEnv 0 "get_image_info"
    (Some (imagePath "/nonexistent/path/image.jpg")) Demo.world
  = Some (errorResult "Image not found: /nonexistent/path/image.jpg", Demo.world).
Proof.
  apply (proj1 (missing_file_is_reported notFoundEnv 0
                  (imagePath "/nonexistent/path/image.jpg")
                  "/nonexistent/path/image.jpg" Demo.world
                  ltac:(vm_compute; reflexivity)
                  ltac:(apply (bool_decide_unpack _); vm_compute; exact I))).
  reflexivity.
Defined.

(** ** Validation in [generate_image] *)

(** X9: the checks before the backend is called.  With a model that the
    lookup finds: a reference image is refused when the model does not
    support one; otherwise a missing or empty API token is reported;
    otherwise a reference image that does not exist is reported with its
    resolved path.  In each case the caller gets the error envelope and
    nothing has been changed. *)
Theorem generate_image_checks (E : Env) (fuel : nat) (args : ToolArguments) (w : World) :
  let m := default DEFAULT_MODEL (model args) in
  let supports := default false (field supportsReferenceImage (MODELS_get m)) in
  truthy (MODELS_get m) = true →
  (truthyString (reference_image args) = true → supports = false →
   handleToolCall E fuel "generate_image" (Some args) w
   = Some (errorResult ("Model " +:+ m +:+ " does not support reference images. "
                        +:+ "Use flux-redux or nano-banana-pro instead."), w))
  ∧ (truthyString (reference_image args) && negb supports = false →
     truthyString (REPLICATE_API_TOKEN E) = false →
     handleToolCall E fuel "generate_image" (Some args) w
     = Some (errorResult
               ("REPLICATE_API_TOKEN environment variable is required. "
                +:+ "Get your API token from https://replicate.com/account/api-tokens"),
             w))
  ∧ (∀ reference,
       reference_image args = Some reference → reference ≠ "" → supports = true →
       truthyString (REPLICATE_API_TOKEN E) = true →
       files w !! path_resolve E reference = None →
       path_resolve E reference ∉ dirs w →
       handleToolCall E fuel "generate_image" (Some args) w
       = Some (errorResult ("Reference image not found: " +:+ path_resolve E reference),
               w)).
Proof.
  intros m supports Hmodel.
  unfold handleToolCall, dispatch. rewrite decide_True by reflexivity.
  unfold generate_image, requestImages, getReplicateClient.
  fold m. fold supports. rewrite Hmodel. simpl negb. cbv iota.
  split; [|split].
  - intros Href Hsup. rewrite Href, Hsup. reflexivity.
  - intros Hcheck Htoken. rewrite Hcheck, Htoken. reflexivity.
  - intros reference Href Hne Hsup Htoken Hfile Hdir.
    rewrite Href, Hsup, Htoken. simpl.
    rewrite bool_decide_eq_false_2 by done. simpl.
    unfold fileToDataUri, bind, ret, existsSync.
    rewrite bool_decide_eq_false_2; [reflexivity|].
    intros [[x Hx]|Hd]; [congruence|done].
Qed.

Lemma generate_image_checks_witness :
  handleToolCall noTokenEnv 1 "generate_image" (Some (promptOnly "a red fox"))
    Demo.world
  = Some (errorResult
            ("REPLICATE_API_TOKEN environment variable is required. "
             +:+ "Get your API token from https://replicate.com/account/api-tokens"),
          Demo.world).
Proof.
  apply (proj1 (proj2 (generate_image_checks noTokenEnv 1 (promptOnly "a red fox")
                         Demo.world ltac:(reflexivity))));
    reflexivity.
Defined.

Lemma bind_ext {A B : Type} (m : M A) (k1 k2 : A → M B) (w : World) :
  (∀ a w', m w = Some (Ok a, w') → k1 a w' = k2 a w') →
  bind m k1 w = bind m k2 w.
Proof.
  intros Hk. unfold bind. destruct (m w) as [[[a|message] w']|]; [|reflexivity..].
  by apply Hk.
Qed.

(** The request phase calls the backend, if at all, with a well-formed
    request. *)
Lemma requestImages_backend (E : Env)
    (backend : option string → BackendInput → Result BackendOutput)
    (args : ToolArguments) (w : World) :
  (∀ backendId input,
     wellFormedRequest backendId input →
     backend backendId input = replicate_run E backendId input) →
  requestImages (withBackend E backend) args w = requestImages E args w.
Proof.
  intros Hsame. unfold requestImages.
  set (m := default DEFAULT_MODEL (model args)).
  set (supports := default false (field supportsReferenceImage (MODELS_get m))).
  destruct (negb (truthy (MODELS_get m))); [reflexivity|].
  destruct (truthyString (reference_image args) && negb supports); [reflexivity|].
  apply (bind_ext (getReplicateClient E)). intros _ w1 _.
  apply (bind_ext
           (match reference_image args with
            | Some reference =>
                if truthyString (Some reference) && supports
                then bind (fileToDataUri E reference) (λ uri, ret (Some uri))
                else ret None
            | None => ret None
            end)).
  intros image w2 Himage.
  assert (Hsupports : is_Some image → supports = true).
  { intros [uri ->]. destruct (reference_image args) as [reference|]; [|done].
    destruct (truthyString (Some reference) && supports) eqn:Hsend; [|done].
    by apply andb_true_iff in Hsend as [_ ?]. }
  unfold bind, lift. rewrite Hsame; [reflexivity|].
  split; [cbn [input_num_outputs]; lia|]. split.
  - cbn [input_image input_prompt_strength].
    destruct image; split; intros [? ?]; try discriminate; eauto.
  - cbn [input_image]. intros Hsome. specialize (Hsupports Hsome). clear Hsome.
    revert Hsupports. unfold supports, MODELS_get.
    destruct (assoc m MODELS) as [config|] eqn:Hassoc.
    + intros Hsupports. exists m, config. split; [exact Hassoc|].
      split; [reflexivity|exact Hsupports].
    + destruct (bool_decide (m ∈ objectPrototypeKeys)); discriminate.
Qed.

(** X10: the handler never sends the backend a request that is not well
    formed (a number of outputs outside 1..4, a prompt strength without
    an image or the reverse, an image for a model without reference
    support): replacing the backend by one that differs only on such
    requests changes nothing in the outcome of any call. *)
Theorem backend_requests_are_well_formed (E : Env)
    (backend : option string → BackendInput → Result BackendOutput)
    (fuel : nat) (name : string) (args : option ToolArguments) (w : World) :
  (∀ backendId input,
     wellFormedRequest backendId input →
     backend backendId input = replicate_run E backendId input) →
  handleToolCall (withBackend E backend) fuel name args w
  = handleToolCall E fuel name args w.
Proof.
  intros Hsame. unfold handleToolCall. f_equal. unfold dispatch.
  case_decide; [|reflexivity].
  unfold generate_image. destruct args as [args|]; [|reflexivity].
  unfold bind at 1. rewrite (requestImages_backend E backend args w Hsame).
  reflexivity.
Qed.

Lemma backend_requests_are_well_formed_witness :
  handleToolCall (withBackend imageEnv pickyBackend) 1 "generate_image"
    (Some nineImages) Demo.world
  = handleToolCall (withBackend imageEnv (λ _ _, Ok (OutputSingle "https://cdn/1"))) 1
      "generate_image" (Some nineImages) Demo.world.
Proof.
  apply (backend_requests_are_well_formed
           (withBackend imageEnv (λ _ _, Ok (OutputSingle "https://cdn/1")))
           pickyBackend 1 "generate_image" (Some nineImages) Demo.world).
  intros backendId input (Hrange & _). unfold pickyBackend.
  by rewrite bool_decide_eq_true_2.
Defined.

(** ** The loop, when it works *)

(** X11: with a canonical output directory, when the loop over the
    addresses returns, it returns one entry per address; the entries'
    paths are pairwise different; each is [path.join] of the output
    directory and a plain name ending in [.jpg], hence an entry directly
    in the output directory; and each file exists at the end. *)
Theorem downloadAll_entries (E : Env) (fuel : nat) (prompt : option string)
    (quality : Z) (urls : list string) (w : World)
    (entries : list ImageEntry) (w' : World) :
  canonicalDirectory (OUTPUT_DIR E) →
  downloadAll E fuel prompt quality urls 0 [] w = Some (Ok entries, w') →
  length entries = length urls
  ∧ NoDup (entry_path <$> entries)
  ∧ ∀ entry, entry ∈ entries →
      (∃ base, plainName (base +:+ ".jpg")
               ∧ entry_path entry = Path.join (OUTPUT_DIR E) (base +:+ ".jpg"))
      ∧ is_Some (files w' !! entry_path entry).
Proof.
  intros Hdir Hrun.
  destruct (downloadAll_Ok _ _ _ _ _ _ _ _ _ _ Hrun) as (new & Hnew & Hlen & Hall).
  simpl in Hnew. subst new.
  assert (Hpath : ∀ k entry, entries !! k = Some entry →
            ∃ p wk, prompt = Some p
                    ∧ entry_path entry = finalPathAt E p (N.of_nat k) wk
                    ∧ is_Some (files w' !! entry_path entry)).
  { intros k entry Hk.
    destruct (Hall k entry Hk) as (u & wk & wk' & data & _ & _ & Hone & _ & Hd).
    change (0 + N.of_nat k)%N with (N.of_nat k) in Hone.
    destruct (downloadOne_Ok _ _ _ _ _ _ _ _ _ Hone) as (p & _ & Hp & Hpath & _).
    exists p, wk. eauto. }
  split; [exact Hlen|]. split.
  - apply NoDup_alt. intros i j x Hi Hj.
    rewrite list_lookup_fmap in Hi, Hj.
    destruct (entries !! i) as [ei|] eqn:Hei; [|discriminate].
    destruct (entries !! j) as [ej|] eqn:Hej; [|discriminate].
    injection Hi as Hi. injection Hj as Hj.
    destruct (Hpath i ei Hei) as (p & wi & Hp & Hpi & _).
    destruct (Hpath j ej Hej) as (p' & wj & Hp' & Hpj & _).
    assert (p' = p) as -> by congruence.
    rewrite Hpi in Hi. rewrite Hpj, <- Hi in Hj. unfold finalPathAt in Hj.
    apply path_join_inj, append_jpg_inj, filenameAt_index_inj in Hj. lia.
  - intros entry Hin. apply list_elem_of_lookup in Hin as [k Hk].
    destruct (Hpath k entry Hk) as (p & wk & _ & Hpk & Hsome).
    split; [|exact Hsome]. rewrite Hpk. unfold finalPathAt.
    eexists. split; [apply final_name_plain|].
    symmetry. apply join_canonical; [exact Hdir|apply final_name_plain].
Qed.

Lemma downloadAll_entries_witness :
  ∃ entries w',
    downloadAll imageEnv 1 (Some "a red fox") 85 ["https://cdn/1"; "https://cdn/2"]
      0 [] Demo.world = Some (Ok entries, w')
    ∧ length entries = 2%nat
    ∧ NoDup (entry_path <$> entries).
Proof.
  eexists. eexists. split; [vm_compute; reflexivity|].
  edestruct (downloadAll_entries imageEnv 1 (Some "a red fox") 85
               ["https://cdn/1"; "https://cdn/2"] Demo.world)
    as (Hlen & Hdistinct & _); [by repeat split|vm_compute; reflexivity|].
  split; [exact Hlen|exact Hdistinct].
Defined.

(** ** What the tools leave alone *)

Lemma unchanged_pure {A : Type} (r : Result A) : unchanged (λ w, Some (r, w)).
Proof. intros w r' w' H. by inversion H. Qed.

Lemma unchanged_bind {A B : Type} (m : M A) (k : A → M B) :
  unchanged m → (∀ a, unchanged (k a)) → unchanged (bind m k).
Proof.
  intros Hm Hk w r w' H.
  apply bind_Some in H as [(a & w1 & H1 & H2) | (message & H1 & _)].
  - rewrite (Hk a _ _ _ H2). exact (Hm _ _ _ H1).
  - exact (Hm _ _ _ H1).
Qed.

Lemma unchanged_existsSync (p : string) : unchanged (existsSync p).
Proof. intros w r w' H. unfold existsSync in H. by inversion H. Qed.

Lemma unchanged_statSync_size (E : Env) (p : string) : unchanged (statSync_size E p).
Proof. intros w r w' H. by apply statSync_size_Some in H. Qed.

Lemma unchanged_getImageMetadata (E : Env) (imagePath : string) :
  unchanged (getImageMetadata E imagePath).
Proof.
  unfold getImageMetadata. apply unchanged_bind; [apply unchanged_existsSync|].
  intros found. destruct (negb found); [apply unchanged_pure|].
  apply unchanged_bind.
  { intros w r w' H. by inversion H. }
  intros metadata. apply unchanged_bind; [apply unchanged_statSync_size|].
  intros size. apply unchanged_pure.
Qed.

Lemma unchanged_statAll (E : Env) (names : list string) : unchanged (statAll E names).
Proof.
  induction names as [|f names IH]; simpl; [apply unchanged_pure|].
  apply unchanged_bind; [apply unchanged_statSync_size|]. intros size.
  apply unchanged_bind; [exact IH|]. intros rest. apply unchanged_pure.
Qed.

Lemma unchanged_readdirSync (dir : string) : unchanged (readdirSync dir).
Proof.
  intros w r w' H. unfold readdirSync in H. case_bool_decide; by inversion H.
Qed.

(** X12: [get_image_info], [list_models], [list_generated_images] and
    [get_output_directory] never change anything: whatever they answer,
    the files, the directories and the counters are as before. *)
Theorem inspection_tools_change_nothing (E : Env) (fuel : nat) (name : string)
    (args : option ToolArguments) (w : World) (r : ToolResult) (w' : World) :
  name ∈ inspectionTools →
  handleToolCall E fuel name args w = Some (r, w') →
  w' = w.
Proof.
  intros Hname Hcall. unfold handleToolCall in Hcall.
  assert (Hdispatch : unchanged (dispatch E fuel name args)).
  { unfold dispatch, inspectionTools in *.
    repeat (apply elem_of_cons in Hname as [->|Hname]);
      [| | | |by apply elem_of_nil in Hname];
      repeat (rewrite decide_False by discriminate);
      rewrite decide_True by reflexivity.
    - unfold get_image_info. destruct args as [args|]; [|apply unchanged_pure].
      destruct (image_path args); [|apply unchanged_pure].
      apply unchanged_bind; [apply unchanged_getImageMetadata|].
      intros metadata. apply unchanged_pure.
    - apply unchanged_pure.
    - unfold list_generated_images.
      apply unchanged_bind; [apply unchanged_readdirSync|]. intros names.
      apply unchanged_bind; [apply unchanged_statAll|]. intros stats.
      apply unchanged_pure.
    - unfold get_output_directory.
      apply unchanged_bind; [apply unchanged_existsSync|]. intros found.
      apply unchanged_pure. }
  destruct (dispatch E fuel name args w) as [[[result|message] w1]|] eqn:Hd;
    [| |discriminate]; injection Hcall as _ <-; exact (Hdispatch _ _ _ Hd).
Qed.

Lemma inspection_tools_change_nothing_witness :
  ∃ r w', handleToolCall notFoundEnv 0 "list_generated_images" None listingWorld
          = Some (r, w')
          ∧ w' = listingWorld.
Proof.
  eexists. eexists. split; [vm_compute; reflexivity|].
  eapply (inspection_tools_change_nothing notFoundEnv 0 "list_generated_images"
            None listingWorld).
  - apply (bool_decide_unpack _). vm_compute. exact I.
  - vm_compute. reflexivity.
Defined.

(** ** The envelope *)

Lemma returnsText_ret (doc : Json) : returnsText (ret (textResult doc)).
Proof. intros w r w' H. inversion H. eauto. Qed.

Lemma returnsText_throw (message : string) : returnsText (throw message).
Proof. intros w r w' H. discriminate. Qed.

Lemma returnsText_bind {A : Type} (m : M A) (k : A → M ToolResult) :
  (∀ a, returnsText (k a)) → returnsText (bind m k).
Proof.
  intros Hk w r w' H.
  apply bind_Some in H as [(a & w1 & _ & H2) | (message & _ & ?)]; [|discriminate].
  exact (Hk a _ _ _ H2).
Qed.

Lemma dispatch_returnsText (E : Env) (fuel : nat) (name : string)
    (args : option ToolArguments) :
  returnsText (dispatch E fuel name args).
Proof.
  unfold dispatch. repeat case_decide.
  - unfold generate_image. destruct args as [args|]; [|apply returnsText_throw].
    apply returnsText_bind. intros g. apply returnsText_bind. intros results.
    apply returnsText_ret.
  - unfold compress_image. destruct args as [args|]; [|apply returnsText_throw].
    apply returnsText_bind. intros finalOutputPath.
    destruct (input_path args); [|apply returnsText_throw].
    apply returnsText_bind. intros result. apply returnsText_ret.
  - unfold get_image_info. destruct args as [args|]; [|apply returnsText_throw].
    destruct (image_path args); [|apply returnsText_throw].
    apply returnsText_bind. intros metadata. apply returnsText_ret.
  - apply returnsText_ret.
  - unfold list_generated_images. apply returnsText_bind. intros names.
    apply returnsText_bind. intros stats. apply returnsText_ret.
  - unfold get_output_directory. apply returnsText_bind. intros found.
    apply returnsText_ret.
  - apply returnsText_throw.
Qed.

(** X13: whatever the tool, the arguments and the outcome, an answer of
    the handler has one of two shapes: one text item holding the
    document of the tool and no error flag, or one text item holding
    [{success: false, error: message}] and the error flag.  No error
    escapes the handler. *)
Theorem handler_answers_with_envelope (E : Env) (fuel : nat) (name : string)
    (args : option ToolArguments) (w : World) (r : ToolResult) (w' : World) :
  handleToolCall E fuel name args w = Some (r, w') →
  (∃ doc, r = {| content := [ {| type := "text"; text := doc |} ];
                 isError := None |})
  ∨ (∃ message,
       r = {| content := [ {| type := "text";
                              text := JObject [ ("success", JBool false);
                                                ("error", JString message) ] |} ];
              isError := Some true |}).
Proof.
  unfold handleToolCall. intros Hcall.
  destruct (dispatch E fuel name args w) as [[[result|message] w1]|] eqn:Hd;
    [| |discriminate]; injection Hcall as <- <-.
  - left. exact (dispatch_returnsText E fuel name args _ _ _ Hd).
  - right. eauto.
Qed.

Lemma handler_answers_with_envelope_witness :
  ∃ r w', handleToolCall secondFailsEnv 1 "generate_image"
            (Some (promptOnly "a red fox")) Demo.world = Some (r, w')
          ∧ ((∃ doc, r = textResult doc) ∨ (∃ message, r = errorResult message)).
Proof.
  eexists. eexists. split; [vm_compute; reflexivity|].
  eapply (handler_answers_with_envelope secondFailsEnv 1 "generate_image"
            (Some (promptOnly "a red fox")) Demo.world).
  vm_compute. reflexivity.
Defined.

(** ** The listing *)

Lemma insertNewestFirst_perm (x : Listed) (l : list Listed) :
  insertNewestFirst x l ≡ₚ x :: l.
Proof.
  induction l as [|y l IH]; simpl; [done|].
  destruct (listed_birthtime y <? listed_birthtime x)%N; [done|].
  rewrite IH. apply Permutation_swap.
Qed.

Lemma insertNewestFirst_sorted (x : Listed) (l : list Listed) :
  StronglySorted newerOrSame l → StronglySorted newerOrSame (insertNewestFirst x l).
Proof.
  induction 1 as [|y l Hl IH Hy]; simpl; [repeat constructor|].
  destruct (listed_birthtime y <? listed_birthtime x)%N eqn:Hlt.
  - apply N.ltb_lt in Hlt. constructor; [by constructor|].
    constructor; [unfold newerOrSame; lia|].
    eapply Forall_impl; [exact Hy|]. unfold newerOrSame. intros z Hz. lia.
  - apply N.ltb_ge in Hlt. constructor; [exact IH|].
    rewrite insertNewestFirst_perm. by constructor.
Qed.

Lemma sortNewestFirst_spec (l : list Listed) :
  sortNewestFirst l ≡ₚ l ∧ StronglySorted newerOrSame (sortNewestFirst l).
Proof.
  unfold sortNewestFirst.
  assert (H : ∀ acc, StronglySorted newerOrSame acc →
            foldl (λ sorted x, insertNewestFirst x sorted) acc l ≡ₚ acc ++ l
            ∧ StronglySorted newerOrSame
                (foldl (λ sorted x, insertNewestFirst x sorted) acc l)).
  { induction l as [|x l IH]; intros acc Hacc; simpl.
    - by rewrite app_nil_r.
    - destruct (IH (insertNewestFirst x acc)) as [Hperm Hsorted];
        [by apply insertNewestFirst_sorted|].
      split; [|exact Hsorted].
      rewrite Hperm, insertNewestFirst_perm. simpl. apply Permutation_middle. }
  apply (H []). constructor.
Qed.

Lemma strip_prefix_Some (a p n : string) : strip_prefix a p = Some n → p = a +:+ n.
Proof.
  revert p. induction a as [|c a IH]; intros [|d p] H; simpl in H; try discriminate.
  - by injection H as <-.
  - by injection H as <-.
  - case_decide; [|discriminate]. subst d. rewrite append_cons. f_equal. by apply IH.
Qed.

Lemma statAll_Ok (E : Env) (names : list string) (w : World)
    (stats : list Listed) (w' : World) :
  statAll E names w = Some (Ok stats, w') →
  listed_filename <$> stats = names
  ∧ Forall (λ f, listed_path f = path_join (OUTPUT_DIR E) (listed_filename f)
                 ∧ listed_birthtime f = stat_birthtime E (listed_path f)) stats.
Proof.
  revert w stats w'. induction names as [|f names IH]; intros w stats w' H; simpl in H.
  - inversion H. by split.
  - bind_inv H as size w1 Hsize. bind_inv H as rest w2 Hrest.
    inversion H; subst. destruct (IH _ _ _ Hrest) as [Hnames Hall].
    split; [rewrite fmap_cons; simpl; by rewrite Hnames|]. by constructor.
Qed.

Lemma entryName_Some (dir p n : string) : entryName dir p = Some n → p = path_join dir n.
Proof.
  unfold entryName. intros H.
  destruct (strip_prefix (dir +:+ "/") p) as [m|] eqn:Hstrip; [|discriminate].
  destruct (bool_decide (m = "") || contains_char "/" m); [discriminate|].
  injection H as ->. apply strip_prefix_Some in Hstrip.
  unfold path_join. by rewrite append_assoc.
Qed.

(** X14: with a canonical output directory, when
    [list_generated_images] answers, [image_count] is the number of
    listed images; the images are ordered newest first by creation time;
    and every listed entry has a plain name with one of the image
    extensions (in any letter case), as path [path.join] of the output
    directory and that name, and is something that exists at that path,
    directly in the output directory. *)
Theorem list_generated_images_answer (E : Env) (w : World) (r : ToolResult) (w' : World) :
  canonicalDirectory (OUTPUT_DIR E) →
  list_generated_images E w = Some (Ok r, w') →
  ∃ listed,
    r = textResult (JObject
          [ ("output_directory", JString (OUTPUT_DIR E));
            ("image_count", JNumber (Z.of_nat (length listed)));
            ("images", JArray (listedJson <$> listed)) ])
    ∧ StronglySorted newerOrSame listed
    ∧ Forall (λ f, isImageName (listed_filename f) = true
                   ∧ plainName (listed_filename f)
                   ∧ listed_path f = Path.join (OUTPUT_DIR E) (listed_filename f)
                   ∧ (is_Some (files w !! listed_path f) ∨ listed_path f ∈ dirs w))
        listed.
Proof.
  unfold list_generated_images. intros Hdir H.
  bind_inv H as names w1 Hnames. bind_inv H as stats w2 Hstats.
  inversion H; subst; clear H.
  unfold readdirSync in Hnames. case_bool_decide; [|discriminate].
  inversion Hnames; subst; clear Hnames.
  destruct (statAll_Ok _ _ _ _ _ Hstats) as [Hfilenames Hpaths].
  destruct (sortNewestFirst_spec stats) as [Hperm Hsorted].
  exists (sortNewestFirst stats). split; [reflexivity|]. split; [exact Hsorted|].
  rewrite Hperm. apply Forall_forall. intros f Hf.
  rewrite Forall_forall in Hpaths. destruct (Hpaths f Hf) as [Hpath _].
  assert (Hname : listed_filename f
                  ∈ filter (λ f, isImageName f = true)
                      (omap (entryName (OUTPUT_DIR E))
                            (elements (dom (files w1) ∪ dirs w1)))).
  { rewrite <- Hfilenames. by apply list_elem_of_fmap_2. }
  apply list_elem_of_filter in Hname as [Himage Hname].
  apply list_elem_of_omap in Hname as (p & Hp & Hentry).
  assert (Hplain : plainName (listed_filename f)).
  { unfold entryName in Hentry.
    destruct (strip_prefix (OUTPUT_DIR E +:+ "/") p) as [n|]; [|discriminate].
    destruct (bool_decide (n = "")) eqn:Hempty; [discriminate|].
    destruct (contains_char "/" n) eqn:Hslash; [discriminate|].
    injection Hentry as ->. apply bool_decide_eq_false in Hempty.
    repeat split; [exact Hempty| | |exact Hslash];
      intros Hdot; rewrite Hdot in Himage; discriminate. }
  split; [exact Himage|]. split; [exact Hplain|].
  apply entryName_Some in Hentry.
  assert (listed_path f = p) as -> by congruence.
  split; [rewrite Hentry; symmetry; by apply join_canonical|].
  apply elem_of_elements, elem_of_union in Hp as [Hp|Hp]; [left|by right].
  by apply elem_of_dom.
Qed.

Lemma list_generated_images_answer_witness :
  ∃ w', list_generated_images galleryEnv galleryWorld
        = Some (Ok (textResult (JObject
            [ ("output_directory", JString "/out");
              ("image_count", JNumber 2);
              ("images", JArray
                 [ JObject [ ("filename", JString "new.jpg");
                             ("path", JString "/out/new.jpg");
                             ("size", JString "0.0 KB");
                             ("created", JString "2023-11-14T22:13:20.000Z") ];
                   JObject [ ("filename", JString "old.PNG");
                             ("path", JString "/out/old.PNG");
                             ("size", JString "0.0 KB");
                             ("created", JString "2020-09-13T12:26:40.000Z") ] ]) ])),
                w')
        ∧ ∃ listed, StronglySorted newerOrSame listed ∧ length listed = 2%nat.
Proof.
  eexists. split; [vm_compute; reflexivity|].
  edestruct (list_generated_images_answer galleryEnv galleryWorld)
    as (listed & Hr & Hsorted & _); [by repeat split|vm_compute; reflexivity|].
  exists listed. split; [exact Hsorted|].
  apply (f_equal (λ r, match content r with
                       | [ {| text := JObject [ _; (_, JNumber n); _ ] |} ] => n
                       | _ => 0
                       end)) in Hr.
  simpl in Hr. lia.
Defined.

(** ** The derived file name *)

(** X15: whatever the prompt, a name that [generateFilenameFromPrompt]
    returns is built only from the characters a to z, 0 to 9, the hyphen
    and the underscore; in particular it holds no path separator and no
    dot. *)
Theorem derived_filename_is_safe (E : Env) (prompt : string) (index : N)
    (w : World) (filename : string) (w' : World) :
  generateFilenameFromPrompt E prompt index w = Some (Ok filename, w') →
  (∀ c, contains_char c filename = true → filenameChar c = true)
  ∧ contains_char "/" filename = false
  ∧ contains_char "\" filename = false
  ∧ contains_char "." filename = false.
Proof.
  unfold generateFilenameFromPrompt. intros H. bind_inv H as timestamp w1 Hnow.
  inversion H; subst; clear H.
  assert (Hsafe : ∀ c, contains_char c (filenameAt timestamp prompt index) = true
                       → filenameChar c = true) by (intros c; apply filenameAt_chars).
  split; [exact Hsafe|].
  repeat split; apply not_true_is_false; intros Hc; by apply Hsafe in Hc.
Qed.

Lemma derived_filename_is_safe_witness :
  ∃ filename w',
    generateFilenameFromPrompt notFoundEnv "../../etc/PASSWD of A Cat's Cafe" 2 Demo.world
    = Some (Ok filename, w')
    ∧ contains_char "/" filename = false ∧ contains_char "." filename = false.
Proof.
  eexists _, _. split; [vm_compute; reflexivity|].
  edestruct (derived_filename_is_safe notFoundEnv "../../etc/PASSWD of A Cat's Cafe" 2
               Demo.world) as (_ & Hslash & _ & Hdot); [vm_compute; reflexivity|].
  split; [exact Hslash|exact Hdot].
Defined.

(** ** The directories *)

Create HintDb keeps.

Lemma keepsDirs_pure {A : Type} (r : Result A) : keepsDirs (λ w, Some (r, w)).
Proof. intros w r' w' H. by inversion H. Qed.

Lemma keepsDirs_ret {A : Type} (a : A) : keepsDirs (ret a).
Proof. apply keepsDirs_pure. Qed.

Lemma keepsDirs_throw {A : Type} (message : string) : keepsDirs (@throw A message).
Proof. apply keepsDirs_pure. Qed.

Lemma keepsDirs_lift {A : Type} (r : Result A) : keepsDirs (lift r).
Proof. apply keepsDirs_pure. Qed.

Lemma keepsDirs_pending {A : Type} : keepsDirs (@pending A).
Proof. intros w r w' H. discriminate. Qed.

Lemma keepsDirs_bind {A B : Type} (m : M A) (k : A → M B) :
  keepsDirs m → (∀ a, keepsDirs (k a)) → keepsDirs (bind m k).
Proof.
  intros Hm Hk w r w' H.
  apply bind_Some in H as [(a & w1 & H1 & H2) | (message & H1 & _)].
  - rewrite (Hk a _ _ _ H2). exact (Hm _ _ _ H1).
  - exact (Hm _ _ _ H1).
Qed.

Lemma keepsDirs_unchanged {A : Type} (m : M A) : unchanged m → keepsDirs m.
Proof. intros Hm w r w' H. by rewrite (Hm _ _ _ H). Qed.

#[local] Hint Resolve keepsDirs_ret keepsDirs_throw keepsDirs_lift keepsDirs_pending : keeps.

(** One step through a computation: split a [bind], or take the cases
    of a test. *)
Ltac keeps_step :=
  lazymatch goal with
  | |- keepsDirs (bind _ _) => apply keepsDirs_bind; [|intros ?]
  | |- keepsDirs (if ?b then _ else _) => destruct b
  | |- keepsDirs (match ?x with _ => _ end) => destruct x
  | |- _ => solve [eauto with keeps]
  end.

Ltac keeps := repeat keeps_step.

Section KeepsDirs.
Context (E : Env).

Lemma keepsDirs_existsSync (p : string) : keepsDirs (existsSync p).
Proof. apply keepsDirs_unchanged, unchanged_existsSync. Qed.

Lemma keepsDirs_statSync_size (p : string) : keepsDirs (statSync_size E p).
Proof. apply keepsDirs_unchanged, unchanged_statSync_size. Qed.

Lemma keepsDirs_writeFile (p : string) (data : bytes) : keepsDirs (writeFile p data).
Proof. intros w r w' H. by inversion H. Qed.

Lemma keepsDirs_unlink_ignoring (p : string) : keepsDirs (unlink_ignoring p).
Proof. intros w r w' H. by inversion H. Qed.

Lemma keepsDirs_unlinkSync (p : string) : keepsDirs (unlinkSync p).
Proof.
  intros w r w' H. unfold unlinkSync in H.
  destruct (files w !! p); [by inversion H|]. case_bool_decide; by inversion H.
Qed.

Lemma keepsDirs_now : keepsDirs (now E).
Proof. intros w r w' H. by inversion H. Qed.

Lemma keepsDirs_random36 : keepsDirs (random36 E).
Proof. intros w r w' H. by inversion H. Qed.

Lemma keepsDirs_readFileSync (p : string) : keepsDirs (readFileSync p).
Proof.
  intros w r w' H. unfold readFileSync in H.
  destruct (files w !! p); [by inversion H|]. case_bool_decide; by inversion H.
Qed.

Lemma keepsDirs_sharp_run (job : SharpJob) (input output : string) :
  keepsDirs (sharp_run E job input output).
Proof.
  intros w r w' H. unfold sharp_run in H.
  case_decide; [by inversion H|].
  destruct (sharp_toFile E job (files w !! input)) as [data|message [data|]];
    by inversion H.
Qed.

#[local] Hint Resolve keepsDirs_existsSync keepsDirs_statSync_size keepsDirs_writeFile
  keepsDirs_unlink_ignoring keepsDirs_unlinkSync keepsDirs_now keepsDirs_random36
  keepsDirs_readFileSync keepsDirs_sharp_run : keeps.

Lemma keepsDirs_pipeToFile (p : string) (transfer : Transfer) :
  keepsDirs (pipeToFile p transfer).
Proof. unfold pipeToFile. keeps. Qed.

#[local] Hint Resolve keepsDirs_pipeToFile : keeps.

Lemma keepsDirs_downloadImage (fuel : nat) (url filename : string) :
  keepsDirs (downloadImage E fuel url filename).
Proof.
  revert url. induction fuel as [|fuel IH]; intros url; simpl; [keeps|].
  destruct (http_get E (protocolOf url) url) as [message| |statusCode location transfer];
    [keeps..|].
  destruct (redirectTarget statusCode location); [apply IH|keeps].
Qed.

Lemma keepsDirs_downloadAndCompressImage (fuel : nat) (url filename : string)
    (quality : Z) :
  keepsDirs (downloadAndCompressImage E fuel url filename quality).
Proof.
  revert url. induction fuel as [|fuel IH]; intros url; simpl; [keeps|].
  apply keepsDirs_bind; [keeps|intros timestamp].
  apply keepsDirs_bind; [keeps|intros suffix].
  apply keepsDirs_bind; [|intros _; keeps].
  destruct (http_get E (protocolOf url) url) as [message| |statusCode location transfer];
    [keeps..|].
  destruct (redirectTarget statusCode location); [|keeps].
  apply keepsDirs_bind; [apply IH|intros ?; keeps].
Qed.

Lemma keepsDirs_compressImage (inputPath outputPath : string)
    (quality maxWidth maxHeight : option Z) :
  keepsDirs (compressImage E inputPath outputPath quality maxWidth maxHeight).
Proof. unfold compressImage. keeps. Qed.

Lemma keepsDirs_generateFilenameFromPrompt (prompt : string) (index : N) :
  keepsDirs (generateFilenameFromPrompt E prompt index).
Proof. unfold generateFilenameFromPrompt. keeps. Qed.

Lemma keepsDirs_fileToDataUri (filePath : string) : keepsDirs (fileToDataUri E filePath).
Proof. unfold fileToDataUri. keeps. Qed.

Lemma keepsDirs_getReplicateClient : keepsDirs (getReplicateClient E).
Proof. unfold getReplicateClient. keeps. Qed.

#[local] Hint Resolve keepsDirs_downloadAndCompressImage keepsDirs_compressImage
  keepsDirs_generateFilenameFromPrompt keepsDirs_fileToDataUri
  keepsDirs_getReplicateClient : keeps.

Lemma keepsDirs_requestImages (args : ToolArguments) : keepsDirs (requestImages E args).
Proof. unfold requestImages. keeps. Qed.

Lemma keepsDirs_downloadOne (fuel : nat) (prompt : option string) (quality : Z)
    (url : string) (i : N) :
  keepsDirs (downloadOne E fuel prompt quality url i).
Proof. unfold downloadOne. keeps. Qed.

Lemma keepsDirs_downloadAll (fuel : nat) (prompt : option string) (quality : Z)
    (urls : list string) (i : N) (results : list ImageEntry) :
  keepsDirs (downloadAll E fuel prompt quality urls i results).
Proof.
  revert i results. induction urls as [|url urls IH]; intros i results; simpl; [keeps|].
  apply keepsDirs_bind; [apply keepsDirs_downloadOne|]. intros entry. apply IH.
Qed.

#[local] Hint Resolve keepsDirs_requestImages keepsDirs_downloadAll : keeps.

Lemma keepsDirs_dispatch (fuel : nat) (name : string) (args : option ToolArguments) :
  keepsDirs (dispatch E fuel name args).
Proof.
  unfold dispatch. repeat case_decide.
  - unfold generate_image. keeps.
  - unfold compress_image. keeps.
  - unfold get_image_info. destruct args as [args|]; [|keeps].
    destruct (image_path args); [|keeps].
    apply keepsDirs_bind; [|intros ?; keeps].
    apply keepsDirs_unchanged, unchanged_getImageMetadata.
  - unfold list_models. keeps.
  - unfold list_generated_images.
    apply keepsDirs_bind; [apply keepsDirs_unchanged, unchanged_readdirSync|].
    intros names.
    apply keepsDirs_bind; [apply keepsDirs_unchanged, unchanged_statAll|].
    intros stats. keeps.
  - unfold get_output_directory. keeps.
  - keeps.
Qed.

Lemma handleToolCall_dirs (fuel : nat) (name : string) (args : option ToolArguments)
    (w : World) (r : ToolResult) (w' : World) :
  handleToolCall E fuel name args w = Some (r, w') → dirs w' = dirs w.
Proof.
  unfold handleToolCall. intros H.
  destruct (dispatch E fuel name args w) as [[[result|message] w1]|] eqn:Hd;
    [| |discriminate]; inversion H; subst; by eapply keepsDirs_dispatch.
Qed.

End KeepsDirs.

(** X16: start-up creates the output directory when it is missing,
    together with every ancestor, and no tool call creates or removes a
    directory.  So when start-up has run with a canonical output
    directory in a world with no regular file in its place, then after
    any number of tool calls the directories are those of before
    start-up, joined where the output directory was missing by it and
    its ancestors; start-up itself has touched no file; and
    [get_output_directory] reports that the directory exists, leaving
    the world as it is. *)
Theorem output_directory_persists (E : Env) (w0 w1 w : World) :
  canonicalDirectory (OUTPUT_DIR E) →
  files w0 !! OUTPUT_DIR E = None →
  ensureOutputDirectory E w0 = Some (Ok tt, w1) →
  afterCalls E w1 w →
  files w1 = files w0
  ∧ dirs w = (if bool_decide (OUTPUT_DIR E ∈ dirs w0) then dirs w0
              else list_to_set (OUTPUT_DIR E :: Path.ancestors (OUTPUT_DIR E))
                   ∪ dirs w0)
  ∧ OUTPUT_DIR E ∈ dirs w
  ∧ get_output_directory E w
    = Some (Ok (textResult (JObject
        [ ("output_directory", JString (OUTPUT_DIR E));
          ("exists", JBool true) ])), w).
Proof.
  intros _ Hfile Hstart Hcalls.
  assert (Hstarted :
            files w1 = files w0
            ∧ dirs w1 = (if bool_decide (OUTPUT_DIR E ∈ dirs w0) then dirs w0
                         else list_to_set (OUTPUT_DIR E :: Path.ancestors (OUTPUT_DIR E))
                              ∪ dirs w0)
            ∧ OUTPUT_DIR E ∈ dirs w1).
  { unfold ensureOutputDirectory, bind, existsSync in Hstart.
    case_bool_decide as Hfound.
    - inversion Hstart; subst.
      destruct Hfound as [Hsome|Hdir]; [rewrite Hfile in Hsome; by destruct Hsome|].
      by rewrite bool_decide_eq_true_2.
    - unfold mkdirSync_recursive in Hstart. case_bool_decide; [discriminate|].
      injection Hstart as <-. cbn [files dirs].
      rewrite bool_decide_eq_false_2 by (intros Hdir; apply Hfound; by right).
      repeat split.
      do 2 apply elem_of_union_l. by apply elem_of_singleton. }
  destruct Hstarted as (Hfiles & Hdirs & Hthere). split; [exact Hfiles|].
  assert (Hkept : dirs w = dirs w1).
  { clear Hstart Hfiles Hdirs Hthere.
    induction Hcalls as [|fuel name args w r w1 w2 Hcall _ IH]; [reflexivity|].
    rewrite IH. by eapply handleToolCall_dirs. }
  split; [by rewrite Hkept|]. split; [by rewrite Hkept|].
  unfold get_output_directory, bind, existsSync, ret.
  rewrite bool_decide_eq_true_2; [reflexivity|].
  right. by rewrite Hkept.
Qed.

Lemma output_directory_persists_witness :
  ∃ w1 r w,
    ensureOutputDirectory nestedEnv freshWorld = Some (Ok tt, w1)
    ∧ handleToolCall nestedEnv 3 "generate_image" (Some (promptOnly "a red fox")) w1
      = Some (r, w)
    ∧ files w1 = files freshWorld
    ∧ dirs w = list_to_set ["/srv/images/out"; "/srv"; "/srv/images"] ∪ dirs freshWorld
    ∧ "/srv/images/out" ∈ dirs w
    ∧ get_output_directory nestedEnv w
      = Some (Ok (textResult (JObject
          [ ("output_directory", JString "/srv/images/out");
            ("exists", JBool true) ])), w).
Proof.
  eexists _, _, _. split; [vm_compute; reflexivity|].
  split; [vm_compute; reflexivity|].
  eapply (output_directory_persists nestedEnv freshWorld);
    [by repeat split|vm_compute; reflexivity|vm_compute; reflexivity|].
  eapply (afterCalls_call _ 3 "generate_image" (Some (promptOnly "a red fox")));
    [vm_compute; reflexivity|apply afterCalls_none].
Defined.

(** ** From generation to the listing *)

Lemma strip_prefix_append (a n : string) : strip_prefix a (a +:+ n) = Some n.
Proof.
  induction a as [|c a IH]; [by destruct n|].
  rewrite append_cons. simpl. by rewrite decide_True.
Qed.

Lemma rev_app_append (a b acc : string) :
  String.rev_app (a +:+ b) acc = String.rev_app b (String.rev_app a acc).
Proof.
  revert acc. induction a as [|c a IH]; intros acc; [reflexivity|].
  rewrite append_cons. simpl. apply IH.
Qed.

Lemma map_chars_append (f : ascii → ascii) (a b : string) :
  Js.map_chars f (a +:+ b) = Js.map_chars f a +:+ Js.map_chars f b.
Proof.
  induction a as [|c a IH]; [reflexivity|].
  rewrite append_cons. simpl. rewrite IH. by rewrite append_cons.
Qed.

Lemma isImageName_jpg (base : string) : isImageName (base +:+ ".jpg") = true.
Proof.
  unfold isImageName, Js.toLowerCase. rewrite map_chars_append.
  assert (Hjpg : endsWith ".jpg" (Js.map_chars Js.lower_char base
                                  +:+ Js.map_chars Js.lower_char ".jpg") = true).
  { unfold endsWith, String.rev. rewrite rev_app_append.
    change (Js.map_chars Js.lower_char ".jpg") with ".jpg". cbn.
    by destruct (String.rev_app (Js.map_chars Js.lower_char base) ""). }
  rewrite Hjpg. by rewrite orb_true_r.
Qed.

Lemma entryName_join (dir n : string) :
  n ≠ "" → contains_char "/" n = false → entryName dir (path_join dir n) = Some n.
Proof.
  intros Hn Hslash. unfold entryName, path_join.
  rewrite append_assoc, strip_prefix_append, Hslash.
  by rewrite bool_decide_eq_false_2.
Qed.

(** Every name that can be listed can be examined. *)
Lemma statAll_present (E : Env) (names : list string) (w : World) :
  Forall (λ f, is_Some (files w !! path_join (OUTPUT_DIR E) f)
               ∨ path_join (OUTPUT_DIR E) f ∈ dirs w) names →
  ∃ stats, statAll E names w = Some (Ok stats, w).
Proof.
  induction 1 as [|f names Hf _ [stats IH]]; [by exists []|].
  simpl. unfold bind at 1, statSync_size.
  destruct (files w !! path_join (OUTPUT_DIR E) f) as [data|] eqn:Hdata.
  - unfold bind. rewrite IH. eauto.
  - destruct Hf as [[? ?]|Hdir]; [discriminate|].
    rewrite bool_decide_eq_true_2 by done. unfold bind. rewrite IH. eauto.
Qed.

(** X17: what the loop of [generate_image] has returned is what
    [list_generated_images] shows next.  When the output directory
    exists and the loop over the addresses returns its entries, the
    listing taken afterwards succeeds, and for every entry it holds an
    image with the entry's path. *)
Theorem generated_images_are_listed (E : Env) (fuel : nat) (prompt : option string)
    (quality : Z) (urls : list string) (w : World)
    (entries : list ImageEntry) (w' : World) :
  OUTPUT_DIR E ∈ dirs w →
  downloadAll E fuel prompt quality urls 0 [] w = Some (Ok entries, w') →
  ∃ listed,
    list_generated_images E w'
    = Some (Ok (textResult (JObject
        [ ("output_directory", JString (OUTPUT_DIR E));
          ("image_count", JNumber (Z.of_nat (length listed)));
          ("images", JArray (listedJson <$> listed)) ])), w')
    ∧ ∀ entry, entry ∈ entries →
        ∃ f, f ∈ listed ∧ listed_path f = entry_path entry.
Proof.
  intros Hdir Hrun.
  assert (Hdir' : OUTPUT_DIR E ∈ dirs w').
  { by rewrite (keepsDirs_downloadAll _ _ _ _ _ _ _ _ _ _ Hrun). }
  set (names := omap (entryName (OUTPUT_DIR E)) (elements (dom (files w') ∪ dirs w'))).
  set (images := filter (λ f, isImageName f = true) names).
  destruct (statAll_present E images w') as [stats Hstats].
  { apply Forall_forall. intros f Hf.
    apply list_elem_of_filter in Hf as [_ Hf].
    apply list_elem_of_omap in Hf as (p & Hp & Hentry).
    apply entryName_Some in Hentry as <-.
    apply elem_of_elements, elem_of_union in Hp as [Hp|Hp]; [left|by right].
    by apply elem_of_dom. }
  destruct (statAll_Ok _ _ _ _ _ Hstats) as [Hfilenames Hpaths].
  destruct (sortNewestFirst_spec stats) as [Hperm _].
  exists (sortNewestFirst stats). split.
  - unfold list_generated_images, bind, readdirSync.
    rewrite bool_decide_eq_true_2 by done. fold names. fold images.
    rewrite Hstats. reflexivity.
  - intros entry Hin.
    destruct (downloadAll_Ok _ _ _ _ _ _ _ _ _ _ Hrun) as (new & Hnew & _ & Hall).
    simpl in Hnew. subst new.
    apply list_elem_of_lookup in Hin as [k Hk].
    destruct (Hall k entry Hk) as (u & wk & wk' & data & _ & _ & Hone & _ & Hdata).
    destruct (downloadOne_Ok _ _ _ _ _ _ _ _ _ Hone) as (p & _ & _ & Hpath & _).
    unfold finalPathAt in Hpath.
    set (n := filenameAt (Date_now E (clockReads wk)) p (0 + N.of_nat k) +:+ ".jpg") in *.
    assert (Hn : n ∈ images).
    { apply list_elem_of_filter. split; [apply isImageName_jpg|].
      apply list_elem_of_omap. exists (entry_path entry). split.
      - apply elem_of_elements, elem_of_union_l, elem_of_dom. by rewrite Hdata.
      - rewrite Hpath. apply entryName_join.
        + unfold n. apply append_nonempty_r. discriminate.
        + unfold n. rewrite contains_char_append.
          apply orb_false_iff. split; [|reflexivity].
          apply not_true_is_false. intros Hc. by apply filenameAt_chars in Hc. }
    rewrite <- Hfilenames in Hn. apply list_elem_of_fmap in Hn as (f & Hf & Hfin).
    exists f. split; [by rewrite Hperm|].
    rewrite Forall_forall in Hpaths. destruct (Hpaths f Hfin) as [-> _].
    by rewrite <- Hf, Hpath.
Qed.

Lemma generated_images_are_listed_witness :
  ∃ entries w' listed,
    downloadAll imageEnv 1 (Some "a red fox") 85 ["https://cdn/1"; "https://cdn/2"]
      0 [] Demo.world = Some (Ok entries, w')
    ∧ list_generated_images imageEnv w'
      = Some (Ok (textResult (JObject
          [ ("output_directory", JString (OUTPUT_DIR imageEnv));
            ("image_count", JNumber (Z.of_nat (length listed)));
            ("images", JArray (listedJson <$> listed)) ])), w')
    ∧ ∀ entry, entry ∈ entries → ∃ f, f ∈ listed ∧ listed_path f = entry_path entry.
Proof.
  eexists _, _.
  edestruct (generated_images_are_listed imageEnv 1 (Some "a red fox") 85
               ["https://cdn/1"; "https://cdn/2"] Demo.world)
    as (listed & Hlist & Hall);
    [apply (bool_decide_unpack _); vm_compute; exact I|vm_compute; reflexivity|].
  exists listed. split; [vm_compute; reflexivity|]. split; [exact Hlist|exact Hall].
Defined.

(** ** Unknown models *)

Lemma assoc_None {A : Type} (key : string) (l : list (string * A)) :
  key ∉ l.*1 → assoc key l = None.
Proof.
  induction l as [|[k v] l IH]; [reflexivity|].
  rewrite fmap_cons. simpl. intros Hkey. apply not_elem_of_cons in Hkey as [Hk Hl].
  rewrite decide_False by congruence. by apply IH.
Qed.

(** X18: a model name that is none of the seven registered keys and none
    of the names defined by [Object.prototype] is rejected by
    [generate_image] with the list of the registered keys, before the
    token is looked at, the backend is called or anything is written. *)
Theorem unknown_model_is_rejected (E : Env) (fuel : nat) (args : ToolArguments)
    (m : string) (w : World) :
  model args = Some m →
  m ∉ modelKeys →
  m ∉ objectPrototypeKeys →
  handleToolCall E fuel "generate_image" (Some args) w
  = Some (errorResult
            ("Unknown model: " +:+ m +:+ ". Available models: "
             +:+ "imagen-3, imagen-3-fast, nano-banana-pro, flux-schnell, "
             +:+ "flux-dev, flux-pro, flux-redux"), w).
Proof.
  intros Hm Hkey Hproto. unfold handleToolCall, dispatch.
  rewrite decide_True by reflexivity.
  unfold generate_image, requestImages. rewrite Hm.
  change (default DEFAULT_MODEL (Some m)) with m.
  unfold MODELS_get. rewrite (assoc_None m MODELS Hkey).
  rewrite bool_decide_eq_false_2 by exact Hproto. reflexivity.
Qed.

Lemma unknown_model_is_rejected_witness :
  handleToolCall noTokenEnv 1 "generate_image" (Some (withModel "dall-e" None)) Demo.world
  = Some (errorResult
            ("Unknown model: dall-e. Available models: "
             +:+ "imagen-3, imagen-3-fast, nano-banana-pro, flux-schnell, "
             +:+ "flux-dev, flux-pro, flux-redux"), Demo.world).
Proof.
  apply (unknown_model_is_rejected noTokenEnv 1 (withModel "dall-e" None) "dall-e");
    [reflexivity|apply (bool_decide_unpack _); vm_compute; exact I..].
Defined.

(** ** Where [generate_image] writes *)

Lemma preserves_weaken {A : Type} (P Q : string → Prop) (m : M A) :
  (∀ p, P p → Q p) → preserves Q m → preserves P m.
Proof. intros HPQ Hm w r w' H p Hp. by apply (Hm w r w' H), HPQ. Qed.

Lemma preserves_unchanged {A : Type} (P : string → Prop) (m : M A) :
  unchanged m → preserves P m.
Proof. intros Hm w r w' H p _. by rewrite (Hm _ _ _ H). Qed.

Lemma unchanged_requestImages (E : Env) (args : ToolArguments) :
  unchanged (requestImages E args).
Proof.
  assert (Hread : ∀ p, unchanged (readFileSync p)).
  { intros p w r w' H. unfold readFileSync in H.
    destruct (files w !! p); [by inversion H|]. case_bool_decide; by inversion H. }
  assert (Huri : ∀ p, unchanged (fileToDataUri E p)).
  { intros p. unfold fileToDataUri.
    apply unchanged_bind; [apply unchanged_existsSync|]. intros found.
    destruct (negb found); [apply unchanged_pure|].
    apply unchanged_bind; [apply Hread|]. intros buffer. apply unchanged_pure. }
  unfold requestImages.
  destruct (negb (truthy _)); [apply unchanged_pure|].
  destruct (_ && _); [apply unchanged_pure|].
  apply unchanged_bind.
  { unfold getReplicateClient. destruct (truthyString _); apply unchanged_pure. }
  intros _. apply unchanged_bind.
  { destruct (reference_image args) as [reference|]; [|apply unchanged_pure].
    destruct (_ && _); [|apply unchanged_pure].
    apply unchanged_bind; [apply Huri|]. intros uri. apply unchanged_pure. }
  intros image. apply unchanged_bind; [apply unchanged_pure|].
  intros output. apply unchanged_pure.
Qed.

Section Inside.
Context (E : Env) (fuel : nat) (prompt : option string) (quality : Z).
Hypothesis canonical : canonicalDirectory (OUTPUT_DIR E).

Lemma downloadOne_inside (url : string) (i : N) :
  preserves (λ p, ¬ directEntry E p) (downloadOne E fuel prompt quality url i).
Proof.
  intros w r w' H p Hp. unfold downloadOne in H.
  destruct prompt as [text|]; [|by inversion H].
  unfold generateFilenameFromPrompt in H.
  apply bind_Some in H as [(base & w1 & Hname & H)|(message & Hname & _)];
    [|discriminate].
  inversion Hname; subst; clear Hname. simpl in H.
  change (files w) with
    (files {| files := files w; dirs := dirs w;
              clockReads := S (clockReads w); randomDraws := randomDraws w |}).
  revert H. generalize {| files := files w; dirs := dirs w;
                          clockReads := S (clockReads w);
                          randomDraws := randomDraws w |}.
  generalize (Date_now E (clockReads w)). intros timestamp w1 H.
  assert (Hframe : p ≠ path_join (OUTPUT_DIR E) (filenameAt timestamp text i +:+ ".jpg")
                   ∧ ∀ w0, p ≠ tempPathAt E w0).
  { split.
    - intros ->. apply Hp. eexists. split; [apply final_name_plain|].
      symmetry. apply join_canonical; [exact canonical|apply final_name_plain].
    - intros w0 ->. apply Hp. exists (tempNameAt E w0).
      split; [apply temporary_name_plain|]. symmetry. by apply tempPathAt_join. }
  apply bind_Some in H as [(result & w2 & Hrun & H)|(message & Hrun & _)].
  - inversion H; subst. exact (downloadAndCompressImage_frame _ _ _ _ _ _ _ _ Hrun p Hframe).
  - exact (downloadAndCompressImage_frame _ _ _ _ _ _ _ _ Hrun p Hframe).
Qed.

Lemma downloadAll_inside (urls : list string) (i : N) (results : list ImageEntry) :
  preserves (λ p, ¬ directEntry E p) (downloadAll E fuel prompt quality urls i results).
Proof.
  revert i results. induction urls as [|url urls IH]; intros i results; simpl.
  - apply preserves_pure.
  - apply preserves_bind; [apply downloadOne_inside|]. intros entry. apply IH.
Qed.

End Inside.

(** X19: with a canonical output directory, whatever [generate_image]
    is asked and however it ends, every file it has created, changed or
    removed is an entry directly in the output directory: a path that
    is not [path.join] of the output directory and a plain name holds
    afterwards what it held before. *)
Theorem generate_image_stays_in_output_directory (E : Env) (fuel : nat)
    (args : option ToolArguments) (w : World) (r : ToolResult) (w' : World) (p : string) :
  canonicalDirectory (OUTPUT_DIR E) →
  handleToolCall E fuel "generate_image" args w = Some (r, w') →
  ¬ directEntry E p →
  files w' !! p = files w !! p.
Proof.
  intros Hdir Hcall Hp.
  assert (Hinside : preserves (λ p, ¬ directEntry E p) (generate_image E fuel args)).
  { unfold generate_image. destruct args as [args|]; [|apply preserves_pure].
    apply preserves_bind; [apply preserves_unchanged, unchanged_requestImages|].
    intros g. apply preserves_bind; [by apply downloadAll_inside|].
    intros results. apply preserves_pure. }
  unfold handleToolCall, dispatch in Hcall. rewrite decide_True in Hcall by reflexivity.
  destruct (generate_image E fuel args w) as [[[result|message] w1]|] eqn:Hrun;
    [| |discriminate]; inversion Hcall; subst; exact (Hinside _ _ _ Hrun p Hp).
Qed.

Lemma generate_image_stays_in_output_directory_witness :
  ∃ r w',
    handleToolCall secondFailsEnv 1 "generate_image" (Some (promptOnly "a red fox"))
      homeWorld = Some (r, w')
    ∧ files w' !! "/home/user/notes.txt" = Some (Demo.data "keep")
    ∧ files w' ≠ files homeWorld.
Proof.
  eexists _, _. split; [vm_compute; reflexivity|]. split.
  - erewrite (generate_image_stays_in_output_directory secondFailsEnv 1
                (Some (promptOnly "a red fox")) homeWorld);
      [reflexivity|by repeat split|vm_compute; reflexivity|].
    intros (n & Hplain & Heq).
    rewrite (join_canonical (OUTPUT_DIR secondFailsEnv) n out_canonical Hplain) in Heq.
    vm_compute in Heq. discriminate.
  - vm_compute. discriminate.
Defined.

(** ** When everything works *)

Lemma downloadOne_run (E : Env) (fuel : nat) (text : string) (quality : Z)
    (url : string) (i : N) (w : World) (body output : bytes) :
  serves E quality url body output →
  ∃ entry w',
    downloadOne E (S fuel) (Some text) quality url i w = Some (Ok entry, w')
    ∧ reports entry body output.
Proof.
  intros [[location Hget] Hsharp].
  unfold downloadOne, generateFilenameFromPrompt.
  unfold bind at 1 2. unfold now, ret.
  set (w1 := {| files := files w; dirs := dirs w;
                clockReads := S (clockReads w); randomDraws := randomDraws w |}).
  set (base := filenameAt (Date_now E (clockReads w)) text i).
  pose proof (final_path_not_temporary E base w1) as Hne.
  unfold bind at 1. rewrite downloadAndCompressImage_unfold.
  cbv zeta. rewrite Hget. simpl redirectTarget. cbv iota. simpl negb. cbv iota.
  unfold bind, pipeToFile, writeFile, statSync_size, sharp_run, unlinkSync. simpl.
  rewrite lookup_insert_eq. rewrite decide_False by done. simpl.
  rewrite lookup_insert_eq, Hsharp. simpl.
  rewrite lookup_insert_ne by done. rewrite lookup_insert_eq. simpl.
  rewrite lookup_delete_ne by done. rewrite lookup_insert_eq.
  eexists _, _. split; [reflexivity|]. by repeat split.
Qed.

Lemma downloadAll_run (E : Env) (fuel : nat) (text : string) (quality : Z)
    (urls : list string) (i : N) (results : list ImageEntry) (w : World) :
  Forall (λ url, ∃ body output, serves E quality url body output) urls →
  ∃ entries w',
    downloadAll E (S fuel) (Some text) quality urls i results w
    = Some (Ok (results ++ entries), w')
    ∧ Forall2 (λ url entry, ∃ body output, serves E quality url body output
                                           ∧ reports entry body output)
        urls entries.
Proof.
  intros Hurls. revert i results w.
  induction Hurls as [|url urls (body & output & Hurl) _ IH]; intros i results w.
  - exists [], w. rewrite app_nil_r. by split.
  - destruct (downloadOne_run E fuel text quality url i w body output Hurl)
      as (entry & w1 & Hone & Hentry).
    destruct (IH (i + 1)%N (results ++ [entry]) w1) as (entries & w' & Hrest & Hall).
    exists (entry :: entries), w'. split; [|constructor; eauto].
    cbn [downloadAll]. rewrite (bind_Ok _ _ _ _ _ Hone), Hrest.
    by rewrite <- app_assoc.
Qed.

(** X20: the whole of [generate_image] when everything works.  With a
    prompt, a registered model, no reference image and an API token, the
    backend is asked once, for the prompt, the aspect ratio (1:1 unless
    given) and the number of outputs brought into 1..4; when it answers
    with addresses that each serve a body the encoder accepts, the
    caller gets the success document: the count in the message, one
    entry per address in the order of the addresses with the sizes of
    that address's body and encoding, the prompt, the model and the
    settings. *)
Theorem generate_image_succeeds (E : Env) (fuel : nat) (args : ToolArguments)
    (text : string) (config : ModelConfig) (output : BackendOutput) (w : World) :
  let key := default DEFAULT_MODEL (model args) in
  let quality := default DEFAULT_COMPRESSION_QUALITY (compression_quality args) in
  let ratio := default "1:1" (aspect_ratio args) in
  prompt args = Some text →
  assoc key MODELS = Some config →
  truthyString (reference_image args) = false →
  truthyString (REPLICATE_API_TOKEN E) = true →
  replicate_run E (Some (id config))
    {| input_prompt := Some text;
       input_aspect_ratio := ratio;
       input_num_outputs := Z.min (Z.max (default 1%Z (num_outputs args)) 1) 4;
       input_image := None;
       input_prompt_strength := None |}
  = Ok output →
  Forall (λ url, ∃ body output, serves E quality url body output) (urlsOf output) →
  ∃ entries w',
    handleToolCall E (S fuel) "generate_image" (Some args) w
    = Some (textResult (JObject
        [ ("success", JBool true);
          ("message", JString ("Generated " +:+ pretty (length entries) +:+ " image(s)"));
          ("images", JArray (entryJson <$> entries));
          ("prompt", JString text);
          ("model", JObject [ ("key", JString key);
                              ("name", JString (name config));
                              ("provider", JString (provider config));
                              ("cost_per_image", JString (cost config)) ]);
          ("settings", JObject [ ("aspect_ratio", JString ratio);
                                 ("compression_quality", JNumber quality);
                                 ("had_reference_image", JBool false) ]) ]), w')
    ∧ Forall2 (λ url entry, ∃ body output, serves E quality url body output
                                           ∧ reports entry body output)
        (urlsOf output) entries.
Proof.
  intros key quality ratio Hprompt Hmodel Href Htoken Hrun Hurls.
  destruct (downloadAll_run E fuel text quality (urlsOf output) 0 [] w Hurls)
    as (entries & w' & Hloop & Hall).
  exists entries, w'. split; [|exact Hall].
  assert (Hrequest : requestImages E args w
                     = Some (Ok {| gen_model := key; gen_modelConfig := Own config;
                                   gen_aspect_ratio := ratio;
                                   gen_compression_quality := quality;
                                   gen_urls := urlsOf output |}, w)).
  { unfold requestImages. fold key. fold quality. fold ratio.
    unfold MODELS_get. rewrite Hmodel. cbn [truthy negb field].
    rewrite Href. cbn [andb]. unfold getReplicateClient. rewrite Htoken.
    unfold bind at 1. unfold ret at 1.
    assert (Himage : (match reference_image args with
                      | Some reference =>
                          if truthyString (Some reference)
                             && default false (Some (supportsReferenceImage config))
                          then let* uri := fileToDataUri E reference in ret (Some uri)
                          else ret None
                      | None => ret None
                      end) = ret None).
    { destruct (reference_image args) as [reference|]; [|reflexivity].
      by rewrite Href. }
    rewrite Himage. unfold bind at 1. unfold ret at 1.
    rewrite Hprompt. unfold bind, lift. rewrite Hrun. reflexivity. }
  unfold handleToolCall, dispatch. rewrite decide_True by reflexivity.
  unfold generate_image. rewrite (bind_Ok _ _ _ _ _ Hrequest).
  cbn [gen_urls gen_compression_quality gen_model gen_modelConfig gen_aspect_ratio].
  rewrite Hprompt. rewrite (bind_Ok _ _ _ _ _ Hloop).
  rewrite Href. reflexivity.
Qed.

Lemma generate_image_succeeds_witness :
  ∃ entries w',
    handleToolCall (withBackend imageEnv (λ _ _, Ok (OutputArray ["https://cdn/1";
                                                                 "https://cdn/2"])))
      1 "generate_image" (Some (promptOnly "a red fox")) Demo.world
    = Some (textResult (JObject
        [ ("success", JBool true);
          ("message", JString ("Generated " +:+ pretty (length entries) +:+ " image(s)"));
          ("images", JArray (entryJson <$> entries));
          ("prompt", JString "a red fox");
          ("model", JObject [ ("key", JString "imagen-3");
                              ("name", JString "Google Imagen 3");
                              ("provider", JString "replicate");
                              ("cost_per_image", JString "$0.04") ]);
          ("settings", JObject [ ("aspect_ratio", JString "1:1");
                                 ("compression_quality", JNumber 85);
                                 ("had_reference_image", JBool false) ]) ]), w')
    ∧ length entries = 2%nat.
Proof.
  edestruct (generate_image_succeeds
               (withBackend imageEnv (λ _ _, Ok (OutputArray ["https://cdn/1";
                                                              "https://cdn/2"])))
               0 (promptOnly "a red fox") "a red fox")
    as (entries & w' & Hcall & Hall).
  - reflexivity.
  - reflexivity.
  - reflexivity.
  - reflexivity.
  - reflexivity.
  - repeat constructor;
      exists (Demo.data "IMAGEDATA"), (Demo.data "MAGE"); (split; [by exists None|done]).
  - exists entries, w'. split; [exact Hcall|].
    apply Forall2_length in Hall. by rewrite <- Hall.
Defined.

(** ** The [compress_image] tool *)

(** X21: the [compress_image] tool on an existing file.  It writes to the
    given output path, or when that is missing or empty beside the input
    under the input's name with [_compressed.jpg] for its extension;
    the encoder gets the file's bytes at the given quality (85 when
    none); when it accepts, the caller gets the success document with
    both paths, the two sizes and the percentage saved, the output path
    holds the encoder's output, and nothing else is changed. *)
Theorem compress_image_succeeds (E : Env) (fuel : nat) (args : ToolArguments)
    (p : string) (data output : bytes) (w : World) :
  input_path args = Some p →
  files w !! path_resolve E p = Some data →
  path_resolve E p ≠ path_resolve E (outputPathFor E args p) →
  sharp_toFile E
    {| resize := if truthyNumber (max_width args) || truthyNumber (max_height args)
                 then Some (max_width args, max_height args) else None;
       jpegQuality := default 85%Z (quality args) |}
    (Some data)
  = Encoded output →
  handleToolCall E fuel "compress_image" (Some args) w
  = Some (textResult (JObject
      [ ("success", JBool true);
        ("input_path", JString p);
        ("output_path", JString (outputPathFor E args p));
        ("original_size", JString (kilobytes (N.of_nat (length data))));
        ("compressed_size", JString (kilobytes (N.of_nat (length output))));
        ("saved", JString (percent (savedPercentOf (N.of_nat (length output))
                                                   (N.of_nat (length data))))) ]),
          set_files <[path_resolve E (outputPathFor E args p) := output]> w).
Proof.
  intros Hinput Hdata Hne Hsharp.
  unfold handleToolCall, dispatch.
  rewrite decide_False by discriminate. rewrite decide_True by reflexivity.
  unfold compress_image. rewrite Hinput.
  assert (Hpath : (if truthyString (output_path args)
                   then ret (default "" (output_path args))
                   else ret (path_normalize E
                               (path_join (path_dirname E p)
                                  (path_basename E p (path_extname E p)
                                   +:+ "_compressed.jpg"))))
                  = (ret (outputPathFor E args p) : M string)).
  { unfold outputPathFor, truthyString.
    destruct (output_path args) as [given|]; [|reflexivity].
    case_decide; [by rewrite bool_decide_eq_true_2|by rewrite bool_decide_eq_false_2]. }
  rewrite Hpath. unfold bind at 1. unfold ret at 1.
  unfold compressImage, bind, existsSync, statSync_size, sharp_run, ret.
  rewrite bool_decide_eq_true_2 by (left; eauto). simpl.
  rewrite Hdata. rewrite decide_False by done. rewrite Hdata.
  change DEFAULT_COMPRESSION_QUALITY with 85%Z. rewrite Hsharp. simpl.
  by rewrite lookup_insert_eq.
Qed.

Lemma compress_image_succeeds_witness :
  handleToolCall imageEnv 0 "compress_image" (Some compressRequest) imageWorld
  = Some (textResult (JObject
      [ ("success", JBool true);
        ("input_path", JString "/out/in.png");
        ("output_path", JString "/out/in_compressed.jpg");
        ("original_size", JString "0.0 KB");
        ("compressed_size", JString "0.0 KB");
        ("saved", JString "56%") ]),
          set_files <["/out/in_compressed.jpg" := Demo.data "MAGE"]> imageWorld).
Proof.
  apply (compress_image_succeeds imageEnv 0 compressRequest "/out/in.png"
           (Demo.data "IMAGEDATA") (Demo.data "MAGE") imageWorld).
  - reflexivity.
  - vm_compute. reflexivity.
  - discriminate.
  - reflexivity.
Defined.
